(** * The battle-game server (server.py): a shallow embedding and its properties

    The server keeps one global game state (a 5x5 grid of characters, four
    player dictionaries and a client counter) and a registry of client
    sockets.  Every block the source runs under [g_stateLock] is modelled as
    one atomic computation in a state-and-exception monad over the [World];
    interleavings of the threads are sequences of such blocks.

    [print] and [time.sleep] have no effect on the modelled state and are
    left out. *)

From Stdlib Require Import ZArith String Ascii List Lia Bool.
From stdpp Require Import base list strings pretty.

Local Open Scope string_scope.
Local Open Scope Z_scope.

(** ** Constants (server.py, lines 21-24) *)

Definition MAX_CLIENTS : nat := 4.
Definition BUFFER_SIZE : nat := 1024.
Definition GRID_ROWS : Z := 5.
Definition GRID_COLS : Z := 5.

(** ** Data structures (server.py, lines 30-47) *)

Module Player.

(** The player dictionary: keys 'x', 'y', 'hp', 'active'. *)
Record t := mk { x : Z; y : Z; hp : Z; active : bool }.

(** [player[key] = v] *)
Definition set_x (v : Z) (p : t) : t := mk v (y p) (hp p) (active p).
Definition set_y (v : Z) (p : t) : t := mk (x p) v (hp p) (active p).
Definition set_hp (v : Z) (p : t) : t := mk (x p) (y p) v (active p).
Definition set_active (v : bool) (p : t) : t := mk (x p) (y p) (hp p) v.

End Player.

(** The grid: a list of rows of one-character strings. *)
Abbreviation Grid := (list (list ascii)).

(** The game-state dictionary: keys 'grid', 'players', 'clientCount'. *)
Record GameState := mkGameState {
  grid : Grid;
  players : list Player.t;
  clientCount : Z
}.

(** A socket object.  [peer_ok] is the environment's part: while it holds,
    data sent on the socket reaches the client; [closed] is set by
    [sock.close()]. *)
Record Socket := mkSocket { peer_ok : bool; closed : bool }.

(** What the server does on the network, in the order it happens. *)
Inductive Event :=
| EvSend (sid : nat) (data : string)
| EvClose (sid : nat).

(** The shared store: the global [g_gameState], the registry
    [g_clientSockets] (its entries are references into the heap of socket
    objects, [None] for a free slot), the socket objects and the trace. *)
Record World := mkWorld {
  g_gameState : GameState;
  g_clientSockets : list (option nat);
  sockets : list Socket;
  trace : list Event
}.

Global Instance Event_eq_dec : EqDecision Event.
Proof. solve_decision. Defined.

(** ** Python exceptions and the monad of locked blocks *)

Inductive exn := IndexError | AttributeError | SocketError | TypeError | ValueError.

Inductive result (A : Type) :=
| Ok (a : A)
| Raise (e : exn).
Arguments Ok {A} a.
Arguments Raise {A} e.

(** A computation may change the world and then raise: Python does not roll
    back the mutations done before an exception. *)
Definition M (A : Type) : Type := World -> result A * World.

Definition ret {A} (a : A) : M A := fun w => (Ok a, w).
Definition raise {A} (e : exn) : M A := fun w => (Raise e, w).
Definition bind {A B} (m : M A) (k : A -> M B) : M B :=
  fun w => match m w with
           | (Ok a, w') => k a w'
           | (Raise e, w') => (Raise e, w')
           end.

(** [try: m except socket.error: h] *)
Definition try_except_socket_error {A} (m : M A) (h : M A) : M A :=
  fun w => match m w with
           | (Raise SocketError, w') => h w'
           | r => r
           end.

Declare Scope py_scope.
Delimit Scope py_scope with py.
Notation "'let!' x ':=' m 'in' k" := (bind m (fun x => k))
  (at level 10, x name, m at level 100, k at level 200) : py_scope.
Notation "m ;;; k" := (bind m (fun _ => k))
  (at level 100, k at level 200, right associativity) : py_scope.
Local Open Scope py_scope.

Definition when (b : bool) (m : M unit) : M unit := if b then m else ret tt.

Definition of_option {A} (e : exn) (o : option A) : M A :=
  match o with Some a => ret a | None => raise e end.

(** ** Python list indexing: negative indices count from the end *)

Definition py_index (len : nat) (i : Z) : option nat :=
  if (0 <=? i) && (i <? Z.of_nat len) then Some (Z.to_nat i)
  else if (- Z.of_nat len <=? i) && (i <? 0) then Some (Z.to_nat (Z.of_nat len + i))
  else None.

Definition py_get {A} (l : list A) (i : Z) : option A :=
  match py_index (length l) i with
  | Some n => l !! n
  | None => None
  end.

Definition py_set {A} (l : list A) (i : Z) (v : A) : option (list A) :=
  match py_index (length l) i with
  | Some n => Some (<[n:=v]> l)
  | None => None
  end.

(** [grid[r][c]] *)
Definition grid_get (g : Grid) (r c : Z) : option ascii :=
  match py_get g r with
  | Some row => py_get row c
  | None => None
  end.

(** [grid[r][c] = v]; the rows are distinct list objects. *)
Definition grid_set (g : Grid) (r c : Z) (v : ascii) : option Grid :=
  match py_get g r with
  | Some row =>
      match py_set row c v with
      | Some row' => py_set g r row'
      | None => None
      end
  | None => None
  end.

(** ** Access to the world *)

Definition getState : M GameState := fun w => (Ok (g_gameState w), w).
Definition putState (s : GameState) : M unit :=
  fun w => (Ok tt, mkWorld s (g_clientSockets w) (sockets w) (trace w)).
Definition getRegistry : M (list (option nat)) := fun w => (Ok (g_clientSockets w), w).
Definition putRegistry (r : list (option nat)) : M unit :=
  fun w => (Ok tt, mkWorld (g_gameState w) r (sockets w) (trace w)).

(** [g_gameState['grid'][r][c]] *)
Definition readGrid (r c : Z) : M ascii :=
  let! s := getState in of_option IndexError (grid_get (grid s) r c).

(** [g_gameState['grid'][r][c] = v] *)
Definition writeGrid (r c : Z) (v : ascii) : M unit :=
  let! s := getState in
  let! g := of_option IndexError (grid_set (grid s) r c v) in
  putState (mkGameState g (players s) (clientCount s)).

(** [players[i]] *)
Definition getPlayer (i : nat) : M Player.t :=
  let! s := getState in of_option IndexError (players s !! i).

(** [players[i][key] = ...], as an update of the dictionary in place *)
Definition updPlayer (i : nat) (f : Player.t -> Player.t) : M unit :=
  let! s := getState in
  let! p := of_option IndexError (players s !! i) in
  putState (mkGameState (grid s) (<[i := f p]> (players s)) (clientCount s)).

(** [g_gameState['clientCount'] += d] *)
Definition addClientCount (d : Z) : M unit :=
  let! s := getState in
  putState (mkGameState (grid s) (players s) (clientCount s + d)).

(** [g_clientSockets[i]]: [None] for a free slot *)
Definition getSock (i : nat) : M (option nat) :=
  let! r := getRegistry in of_option IndexError (r !! i).

(** [g_clientSockets[i] = v] *)
Definition setSock (i : nat) (v : option nat) : M unit :=
  let! r := getRegistry in
  if (i <? length r)%nat then putRegistry (<[i := v]> r) else raise IndexError.

(** A method call on [g_clientSockets[i]] needs a socket there: on [None]
    Python raises AttributeError. *)
Definition theSock (i : nat) : M nat :=
  let! o := getSock i in of_option AttributeError o.

(** [sock.send(data)] and [sock.sendall(data)]: socket.error when the socket
    was closed here or the peer is gone. *)
Definition sock_send (sid : nat) (data : string) : M unit :=
  fun w => match sockets w !! sid with
           | Some s =>
               if peer_ok s && negb (closed s)
               then (Ok tt, mkWorld (g_gameState w) (g_clientSockets w) (sockets w)
                                    (trace w ++ [EvSend sid data]))
               else (Raise SocketError, w)
           | None => (Raise SocketError, w)
           end.

(** [sock.close()] *)
Definition sock_close (sid : nat) : M unit :=
  fun w => match sockets w !! sid with
           | Some s =>
               (Ok tt, mkWorld (g_gameState w) (g_clientSockets w)
                               (<[sid := mkSocket (peer_ok s) true]> (sockets w))
                               (trace w ++ [EvClose sid]))
           | None => (Ok tt, w)
           end.

(** ** initGameState (server.py, lines 52-87) *)

Definition initial_player : Player.t := Player.mk (-1) (-1) 100 false.

Definition initGameState_value : option GameState :=
  let grid0 : Grid := replicate (Z.to_nat GRID_ROWS) (replicate (Z.to_nat GRID_COLS) "."%char) in
  g1 ← grid_set grid0 2 2 "#"%char;
  g2 ← grid_set g1 1 3 "#"%char;
  g3 ← grid_set g2 3 1 "+"%char;
  g4 ← grid_set g3 0 4 "+"%char;
  g5 ← grid_set g4 1 3 "+"%char;
  g6 ← grid_set g5 2 3 "+"%char;
  Some (mkGameState g6 (replicate MAX_CLIENTS initial_player) 0).

Definition initGameState : M unit :=
  let! s := of_option IndexError initGameState_value in putState s.

(** The world when the module is loaded: [g_gameState = {}] is modelled by
    an empty state, [g_clientSockets = [None] * MAX_CLIENTS]. *)
Definition world0 : World :=
  mkWorld (mkGameState [] [] 0) (replicate MAX_CLIENTS None) [] [].

(** ** Loops and strings *)

(** [for a in l: body(a)] *)
Fixpoint for_each {A} (l : list A) (body : A -> M unit) : M unit :=
  match l with
  | [] => ret tt
  | a :: l' => body a ;;; for_each l' body
  end.

Definition nl : string := String (ascii_of_nat 10) "".

(** [sub in s] *)
Fixpoint str_in (sub s : string) : bool :=
  String.prefix sub s ||
  match s with
  | EmptyString => false
  | String _ s' => str_in sub s'
  end.

(** [s.split(sep)] for a one-character separator; [cur] holds the
    characters of the current word, last first. *)
Fixpoint split_go (sep : ascii) (cur : list ascii) (s : string) : list string :=
  match s with
  | EmptyString => [string_of_list_ascii (rev cur)]
  | String c s' =>
      if Ascii.eqb c sep then string_of_list_ascii (rev cur) :: split_go sep [] s'
      else split_go sep (c :: cur) s'
  end.
Definition py_split (sep : ascii) (s : string) : list string := split_go sep [] s.

(** The white space [str.strip()] removes, within ASCII. *)
Definition is_space (c : ascii) : bool :=
  let n := nat_of_ascii c in
  ((9 <=? n) && (n <=? 13) || (28 <=? n) && (n <=? 32))%nat.

Fixpoint lstrip (s : string) : string :=
  match s with
  | String c s' => if is_space c then lstrip s' else s
  | EmptyString => EmptyString
  end.

Definition py_strip (s : string) : string :=
  string_of_list_ascii (rev (list_ascii_of_string
    (lstrip (string_of_list_ascii (rev (list_ascii_of_string (lstrip s))))))).

(** [chr(ord('A') + i)]; the player indices are below [MAX_CLIENTS]. *)
Definition marker (i : nat) : ascii := ascii_of_nat (nat_of_ascii "A" + i).

(** ** refreshPlayerPositions (server.py, lines 94-110) *)

Definition refreshPlayerPositions : M unit :=
  for_each (seqZ 0 GRID_ROWS) (fun r =>
    for_each (seqZ 0 GRID_COLS) (fun c =>
      let! ch := readGrid r c in
      when (negb (Ascii.eqb ch "#") && negb (Ascii.eqb ch "+")) (writeGrid r c "."))) ;;;
  let! s := getState in
  for_each (seq 0 (length (players s))) (fun i =>
    let! player := getPlayer i in
    when (Player.active player && (0 <? Player.hp player))
      (writeGrid (Player.x player) (Player.y player) (marker i))).

(** ** buildStateString (server.py, lines 116-140) *)

Definition roster_line (i : nat) (player : Player.t) : string :=
  "  Player " +:+ pretty i +:+ ": HP=" +:+ pretty (Player.hp player) +:+
  " Pos = (" +:+ pretty (Player.x player) +:+ "," +:+ pretty (Player.y player) +:+ ")" +:+ nl.

Definition buildStateString_of (s : GameState) : string :=
  "STATE" +:+ nl +:+
  String.concat "" (map (fun row => string_of_list_ascii row +:+ nl) (grid s)) +:+
  "Players:" +:+ nl +:+
  String.concat "" (imap (fun i player =>
    if Player.active player then roster_line i player else "") (players s)).

Definition buildStateString : M string :=
  let! s := getState in ret (buildStateString_of s).

(** ** broadcastState (server.py, lines 147-156) *)

(** [g_clientSockets.index(sock)]: the first slot holding that socket *)
Fixpoint index_of (sid : nat) (r : list (option nat)) : option nat :=
  match r with
  | [] => None
  | o :: r' => if decide (o = Some sid) then Some 0%nat else S <$> index_of sid r'
  end.

(** The handler of a failed send in broadcastState and in SAY:
    [sock.close(); g_clientSockets[g_clientSockets.index(sock)] = None] *)
Definition drop_socket (sid : nat) : M unit :=
  sock_close sid ;;;
  let! r := getRegistry in
  let! k := of_option ValueError (index_of sid r) in
  setSock k None.

Definition broadcastState : M unit :=
  let! stateStr := buildStateString in
  let! r := getRegistry in
  for_each (seq 0 (length r)) (fun k =>
    let! sock := getSock k in
    match sock with
    | Some sid => try_except_socket_error (sock_send sid stateStr) (drop_socket sid)
    | None => ret tt
    end).

(** ** handleCommand (server.py, lines 164-413) *)

(** [sock.send('Invalid command')] on the issuer's registry entry *)
Definition reply_invalid (playerIndex : nat) : M unit :=
  let! sid := theSock playerIndex in sock_send sid "Invalid command".

(** One direction branch of MOVE and JUMP.  [inb] is the bounds test of the
    branch, [upd] its coordinate update; the grid is read only when [inb]
    holds (Python's [and]). *)
Definition moveTo (playerIndex : nat) (ogx ogy nx ny : Z) (inb : bool)
    (upd : Player.t -> Player.t) : M unit :=
  let! free := (if inb
                then let! ch := readGrid nx ny in
                     ret (Ascii.eqb ch "." || Ascii.eqb ch "+")
                else ret false) in
  when free
    (writeGrid ogx ogy "." ;;;
     updPlayer playerIndex upd ;;;
     let! ch := readGrid nx ny in
     when (Ascii.eqb ch "+")
       (updPlayer playerIndex (fun p => Player.set_hp (Player.hp p + 5) p)) ;;;
     writeGrid nx ny (marker playerIndex)) ;;;
  refreshPlayerPositions ;;;
  broadcastState.

(** The MOVE branch (lines 173-249, [step = 1]) and the JUMP branch (lines
    322-387, [step = 2]) differ in the step only. *)
Definition handleMove (playerIndex : nat) (ogx ogy : Z) (step : Z) (cmd : string) : M unit :=
  if str_in "UP" cmd then
    let! p := getPlayer playerIndex in
    let nx := Player.x p - step in
    let ny := Player.y p in
    moveTo playerIndex ogx ogy nx ny ((0 <=? nx) && (nx <? GRID_ROWS)) (Player.set_x nx)
  else if str_in "DOWN" cmd then
    let! p := getPlayer playerIndex in
    let nx := Player.x p + step in
    let ny := Player.y p in
    moveTo playerIndex ogx ogy nx ny (nx <? GRID_ROWS) (Player.set_x nx)
  else if str_in "LEFT" cmd then
    let! p := getPlayer playerIndex in
    let nx := Player.x p in
    let ny := Player.y p - step in
    moveTo playerIndex ogx ogy nx ny ((0 <=? ny) && (ny <? GRID_COLS)) (Player.set_y ny)
  else if str_in "RIGHT" cmd then
    let! p := getPlayer playerIndex in
    let nx := Player.x p in
    let ny := Player.y p + step in
    moveTo playerIndex ogx ogy nx ny (ny <? GRID_COLS) (Player.set_y ny)
  else reply_invalid playerIndex.

Definition death_notice (playerIndex : nat) : string :=
  "You were killed by Player " +:+ String (marker playerIndex) "".

Definition adjacent (ogx ogy : Z) (player : Player.t) : bool :=
  (Player.x player =? ogx - 1) && (Player.y player =? ogy)
  || (Player.x player =? ogx + 1) && (Player.y player =? ogy)
  || (Player.x player =? ogx) && (Player.y player =? ogy - 1)
  || (Player.x player =? ogx) && (Player.y player =? ogy + 1).

(** The body of the ATTACK loop for player [i] (lines 258-286) *)
Definition attackPlayer (playerIndex : nat) (ogx ogy : Z) (i : nat) : M unit :=
  let! player := getPlayer i in
  when (Player.active player && (0 <? Player.hp player))
    (when (adjacent ogx ogy player)
       (updPlayer i (fun p => Player.set_hp (Player.hp p - 10) p)) ;;;
     let! player := getPlayer i in
     when (Player.hp player <=? 0)
       (try_except_socket_error
          (let! sid := theSock i in sock_send sid (death_notice playerIndex))
          (ret tt) ;;;
        updPlayer i (Player.set_active false) ;;;
        (let! sid := theSock i in sock_close sid) ;;;
        setSock i None ;;;
        addClientCount (-1))).

Definition handleAttack (playerIndex : nat) : M unit :=
  let! p := getPlayer playerIndex in
  let ogx := Player.x p in
  let ogy := Player.y p in
  let! s := getState in
  for_each (seq 0 (length (players s))) (attackPlayer playerIndex ogx ogy) ;;;
  refreshPlayerPositions ;;;
  broadcastState.

Definition quit_message (playerIndex : nat) : string :=
  "Player " +:+ pretty playerIndex +:+ " has quit the game.".

Definition handleQuit (playerIndex : nat) (ogx ogy : Z) : M unit :=
  updPlayer playerIndex (Player.set_active false) ;;;
  updPlayer playerIndex (Player.set_x (-1)) ;;;
  updPlayer playerIndex (Player.set_y (-1)) ;;;
  writeGrid ogx ogy "." ;;;
  let! own := getSock playerIndex in
  when (bool_decide (is_Some own))
    (try_except_socket_error
       (let! r := getRegistry in
        for_each (seq 0 (length r)) (fun i =>
          let! sock := getSock i in
          match sock with
          | Some sid => sock_send sid (quit_message playerIndex)
          | None => ret tt
          end))
       (ret tt) ;;;
     (let! sid := theSock playerIndex in sock_close sid) ;;;
     setSock playerIndex None ;;;
     addClientCount (-1)) ;;;
  refreshPlayerPositions ;;;
  broadcastState.

(** The line SAY sends: the words after the first, joined without a
    separator, behind ['SAY Player<i>: '] (lines 389-396). *)
Definition say_line (playerIndex : nat) (cmd : string) : string :=
  let msg_cmd := py_split " " cmd in
  "SAY Player" +:+ pretty playerIndex +:+ ": " +:+ String.concat "" (tail msg_cmd).

Definition handleSay (playerIndex : nat) (cmd : string) : M unit :=
  let msgStr := say_line playerIndex cmd in
  let! r := getRegistry in
  for_each (seq 0 (length r)) (fun i =>
    let! sock := getSock i in
    match sock with
    | Some sid =>
        when (negb (i =? playerIndex)%nat)
          (try_except_socket_error (sock_send sid msgStr) (drop_socket sid))
    | None => ret tt
    end) ;;;
  refreshPlayerPositions ;;;
  broadcastState.

Definition handleCommand (playerIndex : nat) (cmd : string) : M unit :=
  let! p := getPlayer playerIndex in
  let ogx := Player.x p in
  let ogy := Player.y p in
  if String.prefix "MOVE" cmd then handleMove playerIndex ogx ogy 1 cmd
  else if String.prefix "ATTACK" cmd then handleAttack playerIndex
  else if String.prefix "QUIT" cmd then handleQuit playerIndex ogx ogy
  else if String.prefix "JUMP" cmd then handleMove playerIndex ogx ogy 2 cmd
  else if String.prefix "SAY" cmd then handleSay playerIndex cmd
  else reply_invalid playerIndex.

(** ** clientHandler (server.py, lines 423-455) *)

(** The first locked block: the player enters the game. *)
Definition clientHandler_join (playerIndex : nat) : M unit :=
  let! sock := getSock playerIndex in
  updPlayer playerIndex (Player.set_x (Z.of_nat playerIndex)) ;;;
  updPlayer playerIndex (Player.set_y 0) ;;;
  updPlayer playerIndex (Player.set_hp 100) ;;;
  updPlayer playerIndex (Player.set_active true) ;;;
  refreshPlayerPositions ;;;
  (let! sid := of_option AttributeError sock in sock_send sid ("READY" +:+ nl)) ;;;
  broadcastState.

(** The locked block after the loop. *)
Definition clientHandler_cleanup (playerIndex : nat) : M unit :=
  updPlayer playerIndex (Player.set_active false) ;;;
  let! p := getPlayer playerIndex in
  writeGrid (Player.x p) (Player.y p) "." ;;;
  setSock playerIndex None ;;;
  refreshPlayerPositions ;;;
  broadcastState.

(** What one [sock.recv] of the handler's socket gives: data, or
    socket.error. *)
Inductive recv_result :=
| Recv (data : string)
| RecvFails.

Definition is_closed (sid : nat) : M bool :=
  fun w => (Ok (match sockets w !! sid with Some s => closed s | None => true end), w).

(** The [while True] loop, run on the successive results of [recv].  It
    returns [true] when the loop is left by [break], [false] when the
    results are used up and the thread waits in [recv].  [recv] on a socket
    closed by the server raises socket.error. *)
Fixpoint clientHandler_loop (playerIndex sid : nat) (script : list recv_result) : M bool :=
  let! c := is_closed sid in
  if c : bool then ret true
  else match script with
       | [] => ret false
       | RecvFails :: _ => ret true
       | Recv data :: rest =>
           let player_command := py_strip data in
           if String.eqb player_command "" then ret true
           else
             let! stop := try_except_socket_error
                            (handleCommand playerIndex player_command ;;; ret false)
                            (ret true) in
             if stop : bool then ret true
             else clientHandler_loop playerIndex sid rest
       end.

(** The whole thread, when no other thread runs in between. *)
Definition clientHandler (playerIndex : nat) (script : list recv_result) : M unit :=
  let! sock := getSock playerIndex in
  clientHandler_join playerIndex ;;;
  let! sid := of_option AttributeError sock in
  let! left := clientHandler_loop playerIndex sid script in
  when left (clientHandler_cleanup playerIndex).

(** ** The accept loop of main (server.py, lines 482-509) *)

(** [for i in range(MAX_CLIENTS): if g_clientSockets[i] is None: slot = i; break] *)
Fixpoint find_slot (r : list (option nat)) (idxs : list nat) : result (option nat) :=
  match idxs with
  | [] => Ok None
  | i :: idxs' =>
      match r !! i with
      | None => Raise IndexError
      | Some None => Ok (Some i)
      | Some (Some _) => find_slot r idxs'
      end
  end.

(** One turn of the loop for a connection whose peer is [peer]: the slot
    given to the new handler thread, or [None] when the server is full. *)
Definition main_accept (peer : bool) : M (option nat) :=
  fun w =>
    let clientSock := length (sockets w) in
    let w := mkWorld (g_gameState w) (g_clientSockets w)
                     (sockets w ++ [mkSocket peer false]) (trace w) in
    (if Z.of_nat MAX_CLIENTS <=? clientCount (g_gameState w)
     then sock_send clientSock "Server is full." ;;; sock_close clientSock ;;; ret None
     else
       let! r := getRegistry in
       match find_slot r (seq 0 MAX_CLIENTS) with
       | Raise e => raise e
       | Ok None => raise TypeError
       | Ok (Some slot) =>
           setSock slot (Some clientSock) ;;; addClientCount 1 ;;; ret (Some slot)
       end) w.

(** ** Threads as sequences of locked blocks *)

(** The environment's move: the client behind socket [sid] goes away, and
    from then on the socket takes no data. *)
Definition peer_gone (sid : nat) : M unit :=
  fun w => match sockets w !! sid with
           | Some s =>
               (Ok tt, mkWorld (g_gameState w) (g_clientSockets w)
                               (<[sid := mkSocket false (closed s)]> (sockets w)) (trace w))
           | None => (Ok tt, w)
           end.

Inductive Action :=
| Accept (peer : bool)
| Join (playerIndex : nat)
| Command (playerIndex : nat) (cmd : string)
| Cleanup (playerIndex : nat)
| PeerGone (sid : nat).

Definition step (a : Action) : M unit :=
  match a with
  | Accept peer => main_accept peer ;;; ret tt
  | Join i => clientHandler_join i
  | Command i cmd => handleCommand i cmd
  | Cleanup i => clientHandler_cleanup i
  | PeerGone sid => peer_gone sid
  end.

(** A thread that raises dies; the others go on.  [run] gives the world
    after the blocks of [acts], whatever their results. *)
Definition run (acts : list Action) (w : World) : World :=
  fold_left (fun w a => snd (step a w)) acts w.

(** The world after [main] has initialised the state. *)
Definition world_init : World := snd (initGameState world0).

(** * Specification vocabulary *)

(** ** The grid, cell by cell *)

Definition in_grid (r c : Z) : Prop := 0 <= r < GRID_ROWS /\ 0 <= c < GRID_COLS.

Definition in_gridb (r c : Z) : bool :=
  (0 <=? r) && (r <? GRID_ROWS) && (0 <=? c) && (c <? GRID_COLS).

(** Five rows of five cells. *)
Definition grid_shape (g : Grid) : Prop :=
  length g = 5%nat /\ Forall (fun row : list ascii => length row = 5%nat) g.

Definition grid_shapeb (g : Grid) : bool :=
  (length g =? 5)%nat && forallb (fun row : list ascii => (length row =? 5)%nat) g.

(** The grid with cell [(r, c)] replaced, for coordinates inside the grid. *)
Definition gset (g : Grid) (r c : Z) (v : ascii) : Grid :=
  alter (fun row : list ascii => <[Z.to_nat c := v]> row) (Z.to_nat r) g.

(** ** What refreshPlayerPositions computes *)

Definition clear_cell (ch : ascii) : ascii :=
  if negb (Ascii.eqb ch "#") && negb (Ascii.eqb ch "+") then "."%char else ch.

Definition clear_grid (g : Grid) : Grid := map (map clear_cell) g.

(** The players the second loop draws. *)
Definition drawn (p : Player.t) : bool := Player.active p && (0 <? Player.hp p).

Definition stands_at (p : Player.t) (r c : Z) : bool :=
  (Player.x p =? r) && (Player.y p =? c).

(** The markers of the players [ps], numbered from [i], put on [g] in order. *)
Fixpoint place (ps : list Player.t) (i : nat) (g : Grid) : Grid :=
  match ps with
  | [] => g
  | p :: ps' =>
      place ps' (S i)
        (if drawn p then gset g (Player.x p) (Player.y p) (marker i) else g)
  end.

(** The index of the last drawn player of [ps] (numbered from [i]) standing
    at [(r, c)]. *)
Fixpoint last_at (ps : list Player.t) (i : nat) (r c : Z) : option nat :=
  match ps with
  | [] => None
  | p :: ps' =>
      match last_at ps' (S i) r c with
      | Some k => Some k
      | None => if drawn p && stands_at p r c then Some i else None
      end
  end.

Definition refresh_grid (s : GameState) : Grid := place (players s) 0 (clear_grid (grid s)).

Definition refreshed (s : GameState) : GameState :=
  mkGameState (refresh_grid s) (players s) (clientCount s).

Definition set_gs (w : World) (s : GameState) : World :=
  mkWorld s (g_clientSockets w) (sockets w) (trace w).

(** ** States *)

(** The state has the shape the loops rely on: a 5x5 grid, four players,
    every drawn player inside the grid. *)
Definition shape_ok (s : GameState) : Prop :=
  grid_shape (grid s) /\ length (players s) = MAX_CLIENTS /\
  forall i p, players s !! i = Some p -> drawn p = true ->
              in_grid (Player.x p) (Player.y p).

Definition is_terrain (ch : ascii) : bool :=
  Ascii.eqb ch "." || Ascii.eqb ch "#" || Ascii.eqb ch "+".

(** A consistent state: every active player is alive, inside the grid and
    shown by its own marker, and every marker on the grid is that of an
    active player standing there. *)
Definition wf_state (s : GameState) : Prop :=
  grid_shape (grid s) /\ length (players s) = MAX_CLIENTS /\
  (forall i p, players s !! i = Some p -> Player.active p = true ->
     in_grid (Player.x p) (Player.y p) /\ 0 < Player.hp p /\
     grid_get (grid s) (Player.x p) (Player.y p) = Some (marker i)) /\
  (forall r c ch, in_grid r c -> grid_get (grid s) r c = Some ch ->
     is_terrain ch = true \/
     exists i p, players s !! i = Some p /\ Player.active p = true /\
                 Player.x p = r /\ Player.y p = c /\ ch = marker i).

(** The same, as a check that runs. *)
Definition wf_stateb (s : GameState) : bool :=
  grid_shapeb (grid s) && (length (players s) =? MAX_CLIENTS)%nat &&
  forallb (fun ip : nat * Player.t =>
             negb (Player.active ip.2) ||
             in_gridb (Player.x ip.2) (Player.y ip.2) && (0 <? Player.hp ip.2) &&
             bool_decide (grid_get (grid s) (Player.x ip.2) (Player.y ip.2) = Some (marker ip.1)))
          (imap pair (players s)) &&
  forallb (fun r => forallb (fun c =>
             match grid_get (grid s) r c with
             | Some ch =>
                 is_terrain ch ||
                 existsb (fun ip : nat * Player.t =>
                            Player.active ip.2 && stands_at ip.2 r c &&
                            Ascii.eqb ch (marker ip.1))
                         (imap pair (players s))
             | None => false
             end) (seqZ 0 GRID_COLS)) (seqZ 0 GRID_ROWS).

(** A socket that takes data. *)
Definition live (w : World) (sid : nat) : bool :=
  match sockets w !! sid with
  | Some s => peer_ok s && negb (closed s)
  | None => false
  end.

Definition is_closedb (w : World) (sid : nat) : bool :=
  match sockets w !! sid with
  | Some s => closed s
  | None => true
  end.

(** ** Weakest preconditions for computations that return *)

Definition wp {A} (m : M A) (w : World) (Q : A -> World -> Prop) : Prop :=
  match m w with
  | (Ok a, w') => Q a w'
  | (Raise _, _) => False
  end.

(** ** Worlds after one primitive *)

Definition set_registry (w : World) (r : list (option nat)) : World :=
  mkWorld (g_gameState w) r (sockets w) (trace w).

Definition add_event (w : World) (e : Event) : World :=
  mkWorld (g_gameState w) (g_clientSockets w) (sockets w) (trace w ++ [e]).

Definition closed_world (w : World) (sid : nat) : World :=
  match sockets w !! sid with
  | Some s =>
      mkWorld (g_gameState w) (g_clientSockets w)
              (<[sid := mkSocket (peer_ok s) true]> (sockets w))
              (trace w ++ [EvClose sid])
  | None => w
  end.

(** The grid [g'] the first loop of refreshPlayerPositions has made of [g]
    when it reaches row [R], column [C]. *)
Definition cleared_upto (g g' : Grid) (R C : Z) : Prop :=
  grid_shape g' /\
  forall r c, in_grid r c ->
    grid_get g' r c =
    if (r <? R) || (r =? R) && (c <? C) then clear_cell <$> grid_get g r c else grid_get g r c.

(** ** Delivery to the sessions *)

(** No socket is registered in two slots. *)
Definition registry_ok (w : World) : Prop :=
  forall i j sid, g_clientSockets w !! i = Some (Some sid) ->
                  g_clientSockets w !! j = Some (Some sid) -> i = j.

Definition registry_okb (w : World) : bool :=
  let r := g_clientSockets w in
  forallb (fun i => forallb (fun j =>
    match r !! i, r !! j with
    | Some (Some a), Some (Some b) => negb (a =? b)%nat || (i =? j)%nat
    | _, _ => true
    end) (seq 0 (length r))) (seq 0 (length r)).

(** The loop body broadcastState and SAY share: send [data] to the socket of
    slot [k] unless the slot is skipped, and drop the socket when the send
    fails. *)
Definition deliver_body (skip : nat -> bool) (data : string) (k : nat) : M unit :=
  let! sock := getSock k in
  match sock with
  | Some sid =>
      when (negb (skip k))
        (try_except_socket_error (sock_send sid data) (drop_socket sid))
  | None => ret tt
  end.

Definition deliver (skip : nat -> bool) (data : string) : M unit :=
  let! r := getRegistry in
  for_each (seq 0 (length r)) (deliver_body skip data).

(** The registry entry of slot [k] after a delivery that started in [w]. *)
Definition kept (skip : nat -> bool) (w : World) (k : nat) (o : option nat) : option nat :=
  match o with
  | Some sid => if skip k || live w sid then Some sid else None
  | None => None
  end.

(** What a delivery of [data] from [w] leaves in [w'], when the slots below
    [n] have been served. *)
Definition delivered_upto (n : nat) (skip : nat -> bool) (data : string) (w w' : World) : Prop :=
  g_gameState w' = g_gameState w /\
  length (g_clientSockets w') = length (g_clientSockets w) /\
  (forall k o, g_clientSockets w !! k = Some o ->
     g_clientSockets w' !! k = Some (if (k <? n)%nat then kept skip w k o else o)) /\
  (forall sid, live w' sid = live w sid) /\
  (forall sid, is_closedb w sid = true -> is_closedb w' sid = true) /\
  (forall k sid, (k < n)%nat -> skip k = false ->
     g_clientSockets w !! k = Some (Some sid) -> live w sid = false ->
     is_closedb w' sid = true) /\
  length (sockets w') = length (sockets w) /\
  exists evs : list Event,
    trace w' = (trace w ++ evs)%list /\
    (forall e, e ∈ evs -> exists k sid,
       (k < n)%nat /\ skip k = false /\ g_clientSockets w !! k = Some (Some sid) /\
       (e = EvSend sid data /\ live w sid = true \/
        e = EvClose sid /\ live w sid = false)) /\
    (forall k sid, (k < n)%nat -> skip k = false ->
       g_clientSockets w !! k = Some (Some sid) -> live w sid = true ->
       EvSend sid data ∈ evs).

Definition delivered (skip : nat -> bool) (data : string) (w w' : World) : Prop :=
  delivered_upto (length (g_clientSockets w)) skip data w w'.

(** ** Movement *)

Inductive Dir := UP | DOWN | LEFT | RIGHT.

Definition dir_name (d : Dir) : string :=
  match d with UP => "UP" | DOWN => "DOWN" | LEFT => "LEFT" | RIGHT => "RIGHT" end.

(** The command lines [MOVE <DIR>] and [JUMP <DIR>]. *)
Definition move_cmd (jump : bool) (d : Dir) : string :=
  (if jump then "JUMP " else "MOVE ") +:+ dir_name d.

Definition step_of (jump : bool) : Z := if jump then 2 else 1.

(** The destination cell: [st] rows or columns from the player. *)
Definition dest (p : Player.t) (st : Z) (d : Dir) : Z * Z :=
  match d with
  | UP => (Player.x p - st, Player.y p)
  | DOWN => (Player.x p + st, Player.y p)
  | LEFT => (Player.x p, Player.y p - st)
  | RIGHT => (Player.x p, Player.y p + st)
  end.

(** The bounds test of each direction branch. *)
Definition dir_inb (d : Dir) (nx ny : Z) : bool :=
  match d with
  | UP => (0 <=? nx) && (nx <? GRID_ROWS)
  | DOWN => nx <? GRID_ROWS
  | LEFT => (0 <=? ny) && (ny <? GRID_COLS)
  | RIGHT => ny <? GRID_COLS
  end.

(** The coordinate each direction branch assigns. *)
Definition dir_upd (d : Dir) (nx ny : Z) : Player.t -> Player.t :=
  match d with
  | UP | DOWN => Player.set_x nx
  | LEFT | RIGHT => Player.set_y ny
  end.

(** The branch of handleMove for direction [d]. *)
Definition moveDir (playerIndex : nat) (ogx ogy st : Z) (d : Dir) : M unit :=
  let! p := getPlayer playerIndex in
  moveTo playerIndex ogx ogy (dest p st d).1 (dest p st d).2
         (dir_inb d (dest p st d).1 (dest p st d).2)
         (dir_upd d (dest p st d).1 (dest p st d).2).

(** Another active player stands on the cell. *)
Definition occupied_by_other (s : GameState) (i : nat) (r c : Z) : Prop :=
  exists k q, k <> i /\ players s !! k = Some q /\ Player.active q = true /\
              Player.x q = r /\ Player.y q = c.

(** A destination the rules allow: inside the grid, not an obstacle, not
    occupied by another active player. *)
Definition legal_destination (s : GameState) (i : nat) (r c : Z) : Prop :=
  in_grid r c /\ grid_get (grid s) r c <> Some "#"%char /\ ~ occupied_by_other s i r c.

(** The test the code makes on the destination. *)
Definition passable (s : GameState) (r c : Z) : bool :=
  in_gridb r c &&
  match grid_get (grid s) r c with
  | Some ch => Ascii.eqb ch "." || Ascii.eqb ch "+"
  | None => false
  end.

Definition pickup_bonus (s : GameState) (r c : Z) : Z :=
  if bool_decide (grid_get (grid s) r c = Some "+"%char) then 5 else 0.

(** The state after player [i], who is [p], has moved to [(r, c)]. *)
Definition moved (s : GameState) (i : nat) (p : Player.t) (r c : Z) : GameState :=
  mkGameState
    (gset (gset (grid s) (Player.x p) (Player.y p) ".") r c (marker i))
    (<[i := Player.mk r c (Player.hp p + pickup_bonus s r c) (Player.active p)]> (players s))
    (clientCount s).

(** The state string of [w'] went out to every session of [w] that takes
    data, and nothing else was sent. *)
Definition broadcast_done (w w' : World) : Prop :=
  exists evs : list Event,
    trace w' = (trace w ++ evs)%list /\
    (forall k sid, g_clientSockets w !! k = Some (Some sid) -> live w sid = true ->
       EvSend sid (buildStateString_of (g_gameState w')) ∈ evs) /\
    (forall e, e ∈ evs -> exists k sid,
       g_clientSockets w !! k = Some (Some sid) /\
       (e = EvSend sid (buildStateString_of (g_gameState w')) /\ live w sid = true \/
        e = EvClose sid /\ live w sid = false)).

(** ** Sample worlds *)

(** Two clients have connected and entered the game: A at (0,0), B at (1,0). *)
Definition world_two : World :=
  run [Accept true; Join 0%nat; Accept true; Join 1%nat] world_init.

(** From [world_two], B has jumped right and stands at (1,2), next to the
    pickup at (1,3). *)
Definition world_near_pickup : World := run [Command 1%nat "JUMP RIGHT"] world_two.

(** ** The initial layout *)

(** The cell the initial grid is expected to hold at [(r, c)]: the obstacle
    at (2,2), pickups at (3,1), (0,4), (1,3) and (2,3), empty elsewhere. *)
Definition expected_initial_cell (r c : Z) : ascii :=
  if (r =? 2) && (c =? 2) then "#"%char
  else if (r =? 3) && (c =? 1) || (r =? 0) && (c =? 4)
          || (r =? 1) && (c =? 3) || (r =? 2) && (c =? 3) then "+"%char
  else "."%char.

(** ** Join states and safety *)


Definition is_active (s : GameState) (i : nat) : bool :=
  match players s !! i with
  | Some p => Player.active p
  | None => false
  end.



(** Every active player is inside the grid, not on an obstacle and alone on
    its cell. *)
Definition players_safe (s : GameState) : Prop :=
  forall i p, players s !! i = Some p -> Player.active p = true ->
    in_grid (Player.x p) (Player.y p) /\
    grid_get (grid s) (Player.x p) (Player.y p) <> Some "#"%char /\
    forall j q, j <> i -> players s !! j = Some q -> Player.active q = true ->
                (Player.x q, Player.y q) <> (Player.x p, Player.y p).



(** ** Chat *)

Fixpoint no_space (s : string) : bool :=
  match s with
  | EmptyString => true
  | String c s' => negb (Ascii.eqb c " ") && no_space s'
  end.

(** The line the sessions are sent for [SAY <text>] from player [i]. *)
Definition chat_line (i : nat) (text : string) : string :=
  "SAY Player" +:+ pretty i +:+ ": " +:+ text.

(** ** Command dispatch *)

Inductive Keyword := KMove | KAttack | KQuit | KJump | KSay.

(** What a dispatcher selects: the command, and for MOVE and JUMP the
    direction. *)
Definition Selection : Type := option Keyword * option Dir.

(** The branch of handleCommand a selection stands for. *)
Definition exec_selection (playerIndex : nat) (cmd : string) (sel : Selection) : M unit :=
  let! p := getPlayer playerIndex in
  let ogx := Player.x p in
  let ogy := Player.y p in
  match sel with
  | (Some KMove, Some d) => moveDir playerIndex ogx ogy 1 d
  | (Some KJump, Some d) => moveDir playerIndex ogx ogy 2 d
  | (Some KMove, None) | (Some KJump, None) => reply_invalid playerIndex
  | (Some KAttack, _) => handleAttack playerIndex
  | (Some KQuit, _) => handleQuit playerIndex ogx ogy
  | (Some KSay, _) => handleSay playerIndex cmd
  | (None, _) => reply_invalid playerIndex
  end.

(** The dispatch handleCommand implements: the keyword is the first of
    MOVE, ATTACK, QUIT, JUMP, SAY the line starts with; the direction is the
    first of UP, DOWN, LEFT, RIGHT that occurs anywhere in the line. *)
Definition dispatch_impl (cmd : string) : Selection :=
  let dir :=
    if str_in "UP" cmd then Some UP
    else if str_in "DOWN" cmd then Some DOWN
    else if str_in "LEFT" cmd then Some LEFT
    else if str_in "RIGHT" cmd then Some RIGHT
    else None in
  if String.prefix "MOVE" cmd then (Some KMove, dir)
  else if String.prefix "ATTACK" cmd then (Some KAttack, None)
  else if String.prefix "QUIT" cmd then (Some KQuit, None)
  else if String.prefix "JUMP" cmd then (Some KJump, dir)
  else if String.prefix "SAY" cmd then (Some KSay, None)
  else (None, None).

(** [s.split()]: the words between runs of white space; [cur] holds the
    characters of the current word, last first. *)
Fixpoint words_go (cur : list ascii) (s : string) : list string :=
  match s with
  | EmptyString =>
      match cur with [] => [] | _ => [string_of_list_ascii (rev cur)] end
  | String c s' =>
      if is_space c
      then match cur with
           | [] => words_go [] s'
           | _ => string_of_list_ascii (rev cur) :: words_go [] s'
           end
      else words_go (c :: cur) s'
  end.
Definition py_words (s : string) : list string := words_go [] s.

Definition keyword_of_word (word : string) : option Keyword :=
  if String.eqb word "MOVE" then Some KMove
  else if String.eqb word "ATTACK" then Some KAttack
  else if String.eqb word "QUIT" then Some KQuit
  else if String.eqb word "JUMP" then Some KJump
  else if String.eqb word "SAY" then Some KSay
  else None.

Definition dir_of_word (word : string) : option Dir :=
  if String.eqb word "UP" then Some UP
  else if String.eqb word "DOWN" then Some DOWN
  else if String.eqb word "LEFT" then Some LEFT
  else if String.eqb word "RIGHT" then Some RIGHT
  else None.

(** The dispatch the specification proposes, in its words: strict
    tokenization, the keyword being the first white-space-delimited word
    (matched whole, case-sensitive) and the direction the second word. *)
Definition dispatch_strict (cmd : string) : Selection :=
  match py_words cmd with
  | [] => (None, None)
  | word :: rest =>
      match keyword_of_word word with
      | Some KMove => (Some KMove, head rest ≫= dir_of_word)
      | Some KJump => (Some KJump, head rest ≫= dir_of_word)
      | Some k => (Some k, None)
      | None => (None, None)
      end
  end.

Definition handleCommand_strict (playerIndex : nat) (cmd : string) : M unit :=
  exec_selection playerIndex cmd (dispatch_strict cmd).

(** The lines of the wire protocol. *)
Inductive Line :=
| LMove (jump : bool) (d : Dir)
| LAttack
| LQuit
| LSay (text : string).

Definition line_text (l : Line) : string :=
  match l with
  | LMove jump d => move_cmd jump d
  | LAttack => "ATTACK"
  | LQuit => "QUIT"
  | LSay text => "SAY " +:+ text
  end.

(** ** Combat *)












(** ** Frames *)

(** Whatever [m] does, and whether it returns or raises, it leaves the part
    [f] of the world as it was. *)
Definition keeps {A B} (f : World -> B) (m : M A) : Prop :=
  forall w, f (snd (m w)) = f w.

Definition count_of (w : World) : Z := clientCount (g_gameState w).

(** ** More sample worlds *)

(** One connection has been accepted; its handler has not run yet. *)
Definition world_one_accepted : World := snd (main_accept true world_init).

(** From [world_two], the client of player B (socket 1) has gone away. *)
Definition world_b_gone : World := run [PeerGone 1%nat] world_two.


(** From [world_b_gone], A has attacked nine times: B is at 10 hp, and the
    first broadcast, failing on B's socket, has freed B's registry slot. *)
Definition world_b_gone_weak : World :=
  run (replicate 9 (Command 0%nat "ATTACK")) world_b_gone.

(** * Vocabulary of the further properties *)

(** ** Lines no branch of handleCommand takes *)

(** The line starts with none of the keywords, or it starts with MOVE or
    JUMP and contains none of the direction words. *)
Definition is_invalid_line (cmd : string) : bool :=
  match dispatch_impl cmd with
  | (None, _) => true
  | (Some KMove, None) | (Some KJump, None) => true
  | _ => false
  end.

(** ** The accept loop *)

(** The world once [serverSock.accept()] has made the socket object of a
    connection whose peer is [peer]. *)
Definition with_new_socket (w : World) (peer : bool) : World :=
  mkWorld (g_gameState w) (g_clientSockets w)
          (sockets w ++ [mkSocket peer false]) (trace w).

(** The number of registry slots that hold a socket. *)
Definition occupied (w : World) : nat :=
  length (filter (fun o : option nat => is_Some o) (g_clientSockets w)).

(** How far clientCount is above the number of occupied slots. *)
Definition slack (w : World) : Z := clientCount (g_gameState w) - Z.of_nat (occupied w).

(** ** Chat, end to end *)

(** The text without its spaces. *)
Fixpoint remove_spaces (s : string) : string :=
  match s with
  | EmptyString => EmptyString
  | String c s' => if Ascii.eqb c " " then remove_spaces s' else String c (remove_spaces s')
  end.

(** What follows the first space of the line; nothing when it has none. *)
Fixpoint after_space (s : string) : string :=
  match s with
  | EmptyString => EmptyString
  | String c s' => if Ascii.eqb c " " then s' else after_space s'
  end.

(** [s[n:]] *)
Fixpoint str_drop (n : nat) (s : string) : string :=
  match n, s with
  | O, _ => s
  | S n', String _ s' => str_drop n' s'
  | S _, EmptyString => EmptyString
  end.

(** What receiverThread of client.py (lines 45-70) prints for one message:
    a chat line without its [SAY ] prefix, anything else as it is. *)
Definition client_display (msg : string) : string :=
  if String.prefix "SAY " msg then str_drop 4 msg else msg.


(** ** Reads that end a session *)


(** From [world_two], A has quit, B has moved up onto A's start cell, and
    a new connection has been given slot 0. *)
Definition world_start_taken : World :=
  run [Command 0%nat "QUIT"; Command 1%nat "MOVE UP"; Accept true] world_two.

(** ** QUIT *)

Definition add_events (w : World) (evs : list Event) : World :=
  mkWorld (g_gameState w) (g_clientSockets w) (sockets w) (trace w ++ evs).

(** The quit messages that go out: to the registered sockets in slot
    order, up to the first one that takes no data. *)
Fixpoint quit_events (w : World) (msg : string) (regs : list (option nat)) : list Event :=
  match regs with
  | [] => []
  | None :: regs' => quit_events w msg regs'
  | Some sid :: regs' =>
      if live w sid then EvSend sid msg :: quit_events w msg regs' else []
  end.

(** The game state a QUIT of player [i], who was [p], leaves. *)
Definition quit_state (s : GameState) (i : nat) (p : Player.t) : GameState :=
  refreshed (mkGameState (gset (grid s) (Player.x p) (Player.y p) ".")
                         (<[i := Player.mk (-1) (-1) (Player.hp p) false]> (players s))
                         (clientCount s - 1)).

(** The loop of QUIT that sends the quit message (lines 303-306). *)
Definition quit_loop_body (playerIndex i : nat) : M unit :=
  let! sock := getSock i in
  match sock with
  | Some sid => sock_send sid (quit_message playerIndex)
  | None => ret tt
  end.

(** From [world_two], A has sent QUIT. *)
Definition world_a_quit : World := run [Command 0%nat "QUIT"] world_two.

(** ** The end of a session *)

(** The game state the cleanup of slot [i], whose player was [p], leaves:
    Python takes a coordinate from -5 to -1 from the end of the list. *)
Definition cleanup_state (s : GameState) (i : nat) (p : Player.t) : GameState :=
  refreshed (mkGameState
               (gset (grid s) (Player.x p mod GRID_ROWS) (Player.y p mod GRID_COLS) ".")
               (<[i := Player.set_active false p]> (players s))
               (clientCount s)).

(** ** What every block respects *)

(** [m] takes every world to one that [R] relates to it, whether it
    returns or raises. *)
Definition respects {A} (R : World -> World -> Prop) (m : M A) : Prop :=
  forall w, R w (snd (m w)).

(** The registry keeps its length, and clientCount loses nothing against
    the number of occupied slots. *)
Definition slack_le (w w' : World) : Prop :=
  length (g_clientSockets w') = length (g_clientSockets w) /\ slack w <= slack w'.

(** The end of QUIT and of an elimination by ATTACK: the socket of slot [i]
    is closed, the slot freed and clientCount decremented. *)
Definition release_slot (i : nat) : M unit :=
  (let! sid := theSock i in sock_close sid) ;;;
  setSock i None ;;;
  addClientCount (-1).

(** The blocks that may change clientCount: an accept, and the commands
    dispatched to ATTACK or QUIT. *)
Definition touches_count (a : Action) : bool :=
  match a with
  | Accept _ => true
  | Command _ cmd =>
      negb (String.prefix "MOVE" cmd)
      && (String.prefix "ATTACK" cmd || String.prefix "QUIT" cmd)
  | _ => false
  end.

(** A connection whose client is gone before its handler starts. *)
Definition world_dead_on_arrival : World := run [Accept false] world_init.

(** * Proofs *)

(** ** Python indexing inside the bounds *)

Lemma py_index_in_range (n : nat) (i : Z) :
  0 <= i < Z.of_nat n -> py_index n i = Some (Z.to_nat i).
Proof.
  intros H. unfold py_index.
  destruct (0 <=? i) eqn:E1; [|lia]. destruct (i <? Z.of_nat n) eqn:E2; [|lia]. reflexivity.
Qed.

Lemma py_get_in_range {A} (l : list A) (i : Z) :
  0 <= i < Z.of_nat (length l) -> py_get l i = l !! Z.to_nat i.
Proof. intros H. unfold py_get. by rewrite py_index_in_range. Qed.

Lemma py_set_in_range {A} (l : list A) (i : Z) v :
  0 <= i < Z.of_nat (length l) -> py_set l i v = Some (<[Z.to_nat i := v]> l).
Proof. intros H. unfold py_set. by rewrite py_index_in_range. Qed.

(** ** The grid, cell by cell *)

Lemma in_gridb_spec r c : in_gridb r c = true <-> in_grid r c.
Proof. unfold in_gridb, in_grid, GRID_ROWS, GRID_COLS. rewrite !andb_true_iff. lia. Qed.

Lemma grid_shapeb_spec g : grid_shapeb g = true <-> grid_shape g.
Proof.
  unfold grid_shapeb, grid_shape. rewrite andb_true_iff, forallb_forall, Forall_forall.
  rewrite Nat.eqb_eq. split; intros [H1 H2]; split; try done.
  - intros row Hrow. apply Nat.eqb_eq, H2. by apply list_elem_of_In.
  - intros row Hrow. apply Nat.eqb_eq, H2. by apply list_elem_of_In.
Qed.

Lemma grid_shape_row g n :
  grid_shape g -> (n < 5)%nat -> exists row, g !! n = Some row /\ length row = 5%nat.
Proof.
  intros [Hl Hr] Hn.
  destruct (lookup_lt_is_Some_2 g n) as [row Hrow]; [lia|].
  exists row. split; [done|]. by eapply Forall_lookup_1 in Hr.
Qed.

Lemma grid_get_in g r c :
  grid_shape g -> in_grid r c ->
  grid_get g r c = g !! Z.to_nat r ≫= (fun row => row !! Z.to_nat c).
Proof.
  intros Hs [Hr Hc]. unfold grid_get, GRID_ROWS, GRID_COLS in *.
  destruct (grid_shape_row g (Z.to_nat r) Hs) as (row & Hrow & Hlen); [lia|].
  destruct Hs as [Hl _].
  rewrite py_get_in_range by lia. rewrite Hrow. cbv beta iota.
  rewrite py_get_in_range by lia. done.
Qed.

Lemma grid_get_is_Some g r c :
  grid_shape g -> in_grid r c -> is_Some (grid_get g r c).
Proof.
  intros Hs Hin. rewrite grid_get_in by done. destruct Hin as [Hr Hc].
  unfold GRID_ROWS, GRID_COLS in *.
  destruct (grid_shape_row g (Z.to_nat r) Hs) as (row & Hrow & Hlen); [lia|].
  rewrite Hrow. simpl. apply lookup_lt_is_Some_2. lia.
Qed.

Lemma grid_set_in g r c v :
  grid_shape g -> in_grid r c -> grid_set g r c v = Some (gset g r c v).
Proof.
  intros Hs [Hr Hc]. unfold grid_set, gset, GRID_ROWS, GRID_COLS in *.
  destruct (grid_shape_row g (Z.to_nat r) Hs) as (row & Hrow & Hlen); [lia|].
  destruct Hs as [Hl _].
  rewrite py_get_in_range by lia. rewrite Hrow. cbv beta iota.
  rewrite py_set_in_range by lia. cbv beta iota.
  rewrite py_set_in_range by lia. f_equal.
  apply list_eq. intros n. destruct (decide (n = Z.to_nat r)) as [->|Hne].
  - rewrite list_lookup_insert_eq by lia. by rewrite list_lookup_alter_eq, Hrow.
  - rewrite list_lookup_insert_ne by done. by rewrite list_lookup_alter_ne.
Qed.

Lemma gset_shape g r c v : grid_shape g -> grid_shape (gset g r c v).
Proof.
  intros [Hl Hr]. unfold gset. split.
  - by rewrite length_alter.
  - apply Forall_alter; [done|]. intros row _ Hlen. by rewrite length_insert.
Qed.

Lemma grid_get_gset g r c v r' c' :
  grid_shape g -> in_grid r c -> in_grid r' c' ->
  grid_get (gset g r c v) r' c' =
  if decide (r = r' /\ c = c') then Some v else grid_get g r' c'.
Proof.
  intros Hs Hin Hin'.
  rewrite !grid_get_in by auto using gset_shape.
  destruct Hin as [Hr Hc], Hin' as [Hr' Hc']. unfold gset, GRID_ROWS, GRID_COLS in *.
  destruct (grid_shape_row g (Z.to_nat r) Hs) as (row & Hrow & Hlen); [lia|].
  destruct (decide (r = r')) as [<-|Hne].
  - rewrite list_lookup_alter_eq, Hrow. simpl.
    destruct (decide (c = c')) as [<-|Hnc].
    + rewrite decide_True by done. apply list_lookup_insert_eq. lia.
    + rewrite decide_False by tauto. apply list_lookup_insert_ne. lia.
  - rewrite list_lookup_alter_ne by lia. rewrite decide_False by tauto. done.
Qed.

Lemma gset_same g r c v r' c' :
  grid_shape g -> in_grid r c -> r' = r -> c' = c ->
  grid_get (gset g r c v) r' c' = Some v.
Proof. intros Hs Hin -> ->. rewrite grid_get_gset by done. by rewrite decide_True. Qed.

Lemma gset_other g r c v r' c' :
  grid_shape g -> in_grid r c -> in_grid r' c' -> ~ (r = r' /\ c = c') ->
  grid_get (gset g r c v) r' c' = grid_get g r' c'.
Proof. intros Hs Hin Hin' Hne. rewrite grid_get_gset by done. by rewrite decide_False. Qed.

(** Two grids with the same cells are the same grid. *)
Lemma grid_ext g g' :
  grid_shape g -> grid_shape g' ->
  (forall r c, in_grid r c -> grid_get g r c = grid_get g' r c) -> g = g'.
Proof.
  intros Hs Hs' Hcells.
  apply list_eq_same_length with 5%nat; [apply Hs'|apply Hs|].
  intros i row row' Hi Hrow Hrow'.
  assert (Hlen : length row = 5%nat).
  { destruct Hs as [_ HF]. by eapply Forall_lookup_1 in HF. }
  assert (Hlen' : length row' = 5%nat).
  { destruct Hs' as [_ HF]. by eapply Forall_lookup_1 in HF. }
  apply list_eq_same_length with 5%nat; [done..|].
  intros j ch ch' Hj Hch Hch'.
  specialize (Hcells (Z.of_nat i) (Z.of_nat j)).
  rewrite !grid_get_in in Hcells by (done || unfold in_grid, GRID_ROWS, GRID_COLS; lia).
  rewrite !Nat2Z.id, Hrow, Hrow' in Hcells. simpl in Hcells.
  rewrite Hch, Hch' in Hcells.
  assert (Some ch = Some ch') as [= ->]; [|done].
  apply Hcells. unfold in_grid, GRID_ROWS, GRID_COLS; lia.
Qed.

Lemma clear_grid_shape g : grid_shape g -> grid_shape (clear_grid g).
Proof.
  intros [Hl Hr]. unfold clear_grid. split.
  - by rewrite length_map.
  - apply Forall_map. eapply Forall_impl; [exact Hr|].
    intros row Hrow. simpl. by rewrite length_map.
Qed.

Lemma grid_get_clear g r c :
  grid_shape g -> in_grid r c ->
  grid_get (clear_grid g) r c = clear_cell <$> grid_get g r c.
Proof.
  intros Hs Hin. rewrite !grid_get_in by auto using clear_grid_shape.
  unfold clear_grid. rewrite !list_lookup_fmap.
  destruct (g !! Z.to_nat r) as [row|]; [|done]. simpl.
  by rewrite list_lookup_fmap.
Qed.

(** ** Rules for [wp] *)

Lemma wp_elim {A} (m : M A) w Q :
  wp m w Q -> exists a w', m w = (Ok a, w') /\ Q a w'.
Proof. unfold wp. destruct (m w) as [[a|e] w']; [eauto|done]. Qed.

Lemma wp_intro {A} (m : M A) w (Q : A -> World -> Prop) a w' :
  m w = (Ok a, w') -> Q a w' -> wp m w Q.
Proof. unfold wp. by intros ->. Qed.

Lemma wp_mono {A} (m : M A) w (Q Q' : A -> World -> Prop) :
  wp m w Q -> (forall a w', Q a w' -> Q' a w') -> wp m w Q'.
Proof. unfold wp. destruct (m w) as [[a|e] w']; [auto|done]. Qed.

Lemma wp_ret {A} (a : A) w (Q : A -> World -> Prop) : Q a w -> wp (ret a) w Q.
Proof. done. Qed.

Lemma wp_bind {A B} (m : M A) (k : A -> M B) w Q :
  wp m w (fun a w' => wp (k a) w' Q) -> wp (bind m k) w Q.
Proof. unfold wp, bind. destruct (m w) as [[a|e] w']; [auto|done]. Qed.

Lemma wp_when (b : bool) (m : M unit) w Q :
  (b = true -> wp m w Q) -> (b = false -> Q tt w) -> wp (when b m) w Q.
Proof. destruct b; simpl; intros H1 H2; [auto | apply wp_ret; auto]. Qed.

Lemma wp_of_option {A} e (o : option A) w (Q : A -> World -> Prop) a :
  o = Some a -> Q a w -> wp (of_option e o) w Q.
Proof. by intros ->. Qed.

Lemma wp_getState w (Q : GameState -> World -> Prop) :
  Q (g_gameState w) w -> wp getState w Q.
Proof. done. Qed.

Lemma wp_putState s w (Q : unit -> World -> Prop) :
  Q tt (set_gs w s) -> wp (putState s) w Q.
Proof. done. Qed.

Lemma wp_getRegistry w (Q : list (option nat) -> World -> Prop) :
  Q (g_clientSockets w) w -> wp getRegistry w Q.
Proof. done. Qed.

Lemma wp_readGrid r c w (Q : ascii -> World -> Prop) ch :
  grid_get (grid (g_gameState w)) r c = Some ch -> Q ch w -> wp (readGrid r c) w Q.
Proof. intros H HQ. unfold wp, readGrid, bind, getState. by rewrite H. Qed.

Lemma wp_writeGrid r c v w (Q : unit -> World -> Prop) :
  grid_shape (grid (g_gameState w)) -> in_grid r c ->
  Q tt (set_gs w (mkGameState (gset (grid (g_gameState w)) r c v)
                              (players (g_gameState w)) (clientCount (g_gameState w)))) ->
  wp (writeGrid r c v) w Q.
Proof.
  intros Hs Hin HQ. unfold wp, writeGrid, bind, getState.
  by rewrite grid_set_in.
Qed.

Lemma wp_getPlayer i w (Q : Player.t -> World -> Prop) p :
  players (g_gameState w) !! i = Some p -> Q p w -> wp (getPlayer i) w Q.
Proof. intros H HQ. unfold wp, getPlayer, bind, getState. by rewrite H. Qed.

Lemma wp_updPlayer i f w (Q : unit -> World -> Prop) p :
  players (g_gameState w) !! i = Some p ->
  Q tt (set_gs w (mkGameState (grid (g_gameState w)) (<[i := f p]> (players (g_gameState w)))
                              (clientCount (g_gameState w)))) ->
  wp (updPlayer i f) w Q.
Proof. intros H HQ. unfold wp, updPlayer, bind, getState. by rewrite H. Qed.

Lemma wp_addClientCount d w (Q : unit -> World -> Prop) :
  Q tt (set_gs w (mkGameState (grid (g_gameState w)) (players (g_gameState w))
                              (clientCount (g_gameState w) + d))) ->
  wp (addClientCount d) w Q.
Proof. done. Qed.

Lemma wp_getSock i w (Q : option nat -> World -> Prop) o :
  g_clientSockets w !! i = Some o -> Q o w -> wp (getSock i) w Q.
Proof. intros H HQ. unfold wp, getSock, bind, getRegistry. by rewrite H. Qed.

Lemma wp_theSock i w (Q : nat -> World -> Prop) sid :
  g_clientSockets w !! i = Some (Some sid) -> Q sid w -> wp (theSock i) w Q.
Proof. intros H HQ. unfold wp, theSock, getSock, bind, getRegistry. by rewrite H. Qed.

Lemma wp_setSock i v w (Q : unit -> World -> Prop) :
  (i < length (g_clientSockets w))%nat ->
  Q tt (set_registry w (<[i := v]> (g_clientSockets w))) ->
  wp (setSock i v) w Q.
Proof.
  intros H HQ. unfold wp, setSock, bind, getRegistry.
  destruct (Nat.ltb_spec i (length (g_clientSockets w))); [done|lia].
Qed.

Lemma sock_send_live sid data w :
  live w sid = true -> sock_send sid data w = (Ok tt, add_event w (EvSend sid data)).
Proof.
  unfold live, sock_send. destruct (sockets w !! sid) as [s|]; [|done]. by intros ->.
Qed.

Lemma sock_send_dead sid data w :
  live w sid = false -> sock_send sid data w = (Raise SocketError, w).
Proof.
  unfold live, sock_send. destruct (sockets w !! sid) as [s|]; [|done]. by intros ->.
Qed.

Lemma wp_sock_send sid data w (Q : unit -> World -> Prop) :
  live w sid = true -> Q tt (add_event w (EvSend sid data)) -> wp (sock_send sid data) w Q.
Proof. intros H HQ. unfold wp. by rewrite sock_send_live. Qed.

Lemma sock_close_eq sid w : sock_close sid w = (Ok tt, closed_world w sid).
Proof. unfold sock_close, closed_world. by destruct (sockets w !! sid). Qed.

Lemma wp_sock_close sid w (Q : unit -> World -> Prop) :
  Q tt (closed_world w sid) -> wp (sock_close sid) w Q.
Proof. intros HQ. unfold wp. by rewrite sock_close_eq. Qed.

(** A send under [try ... except socket.error]: the handler runs from the
    unchanged world when the socket takes no data. *)
Lemma wp_try_send sid data (h : M unit) w Q :
  (live w sid = true -> Q tt (add_event w (EvSend sid data))) ->
  (live w sid = false -> wp h w Q) ->
  wp (try_except_socket_error (sock_send sid data) h) w Q.
Proof.
  intros H1 H2. unfold wp, try_except_socket_error.
  destruct (live w sid) eqn:E.
  - rewrite sock_send_live by done. auto.
  - rewrite sock_send_dead by done. by apply H2.
Qed.

(** Loops, with an invariant on the items still to come. *)
Lemma wp_for_each {A} (l : list A) (body : A -> M unit) (I : list A -> World -> Prop) w :
  I l w ->
  (forall a rest w, I (a :: rest) w -> wp (body a) w (fun _ w' => I rest w')) ->
  wp (for_each l body) w (fun _ w' => I [] w').
Proof.
  intros HI Hbody. revert w HI.
  induction l as [|a rest IH]; intros w HI; simpl.
  - by apply wp_ret.
  - apply wp_bind. eapply wp_mono; [by apply Hbody|].
    intros [] w' HI'. by apply IH.
Qed.

(** Counting loops, with an invariant on the index reached. *)
Lemma wp_for_each_seq (k n : nat) (body : nat -> M unit) (I : nat -> World -> Prop) w :
  I k w ->
  (forall j w, (k <= j < k + n)%nat -> I j w -> wp (body j) w (fun _ w' => I (S j) w')) ->
  wp (for_each (seq k n) body) w (fun _ w' => I (k + n)%nat w').
Proof.
  revert k w. induction n as [|n IH]; intros k w HI Hbody; simpl.
  - apply wp_ret. by rewrite Nat.add_0_r.
  - apply wp_bind. eapply wp_mono; [apply Hbody; [lia|done]|].
    intros [] w' HI'. cbv beta. replace (k + S n)%nat with (S k + n)%nat by lia.
    apply IH; [done|]. intros j w'' Hj. apply Hbody. lia.
Qed.

Lemma for_each_fmap {A B} (f : A -> B) (l : list A) (body : B -> M unit) :
  for_each (f <$> l) body = for_each l (fun a => body (f a)).
Proof. induction l as [|a l IH]; csimpl; [done|]. by rewrite IH. Qed.

(** The same for [range(n)] over the integers. *)
Lemma wp_for_each_seqZ (n : nat) (body : Z -> M unit) (I : Z -> World -> Prop) w :
  I 0 w ->
  (forall j w, 0 <= j < Z.of_nat n -> I j w -> wp (body j) w (fun _ w' => I (j + 1) w')) ->
  wp (for_each (seqZ 0 (Z.of_nat n)) body) w (fun _ w' => I (Z.of_nat n) w').
Proof.
  intros HI Hbody. unfold seqZ. rewrite Nat2Z.id, for_each_fmap.
  pose proof (wp_for_each_seq 0 n (fun a => body (Z.of_nat a + 0))
                (fun j => I (Z.of_nat j)) w) as H.
  simpl in H. apply H; [done|].
  intros j w' Hj HIj. rewrite Z.add_0_r.
  eapply wp_mono; [apply Hbody; [lia|done]|].
  intros [] w'' HI''. by replace (Z.of_nat (S j)) with (Z.of_nat j + 1) by lia.
Qed.

(** ** refreshPlayerPositions computes [refreshed] *)

Lemma clear_cell_when (ch : ascii) :
  (if negb (Ascii.eqb ch "#") && negb (Ascii.eqb ch "+") then "."%char else ch) = clear_cell ch.
Proof. done. Qed.

Lemma cleared_upto_step g g' R C ch :
  grid_shape g -> in_grid R C -> cleared_upto g g' R C ->
  grid_get g' R C = Some ch ->
  cleared_upto g (if negb (Ascii.eqb ch "#") && negb (Ascii.eqb ch "+")
                  then gset g' R C "." else g') R (C + 1).
Proof.
  intros Hs Hin [Hs' Hc] Hch.
  assert (Horig : grid_get g R C = Some ch).
  { rewrite <- Hch, (Hc R C Hin).
    destruct (R <? R) eqn:E1; [lia|]. destruct (C <? C) eqn:E2; [lia|].
    by rewrite andb_false_r. }
  split.
  - destruct (negb _ && negb _); auto using gset_shape.
  - intros r c Hrc.
    destruct (decide (R = r /\ C = c)) as [[<- <-]|Hne].
    + replace ((R <? R) || (R =? R) && (C <? C + 1)) with true
        by (symmetry; rewrite orb_true_iff, andb_true_iff; lia).
      rewrite Horig. simpl. unfold clear_cell.
      destruct (negb _ && negb _) eqn:E; [by rewrite gset_same|done].
    + transitivity (grid_get g' r c).
      { destruct (negb _ && negb _); [by rewrite gset_other|done]. }
      rewrite (Hc r c Hrc).
      replace ((r <? R) || (r =? R) && (c <? C + 1))
        with ((r <? R) || (r =? R) && (c <? C)); [done|].
      destruct (r <? R) eqn:E1; [done|]. simpl.
      destruct (r =? R) eqn:E2; [|done]. simpl.
      destruct (c <? C) eqn:E3, (c <? C + 1) eqn:E4; try done; lia.
Qed.

Lemma cleared_upto_next_row g g' R :
  cleared_upto g g' R GRID_COLS -> cleared_upto g g' (R + 1) 0.
Proof.
  intros [Hs Hc]. split; [done|]. intros r c Hrc. rewrite (Hc r c Hrc).
  destruct Hrc as [Hr Hcc].
  replace ((r <? R + 1) || (r =? R + 1) && (c <? 0))
    with ((r <? R) || (r =? R) && (c <? GRID_COLS)); [done|].
  destruct (r <? R) eqn:E1, (r =? R) eqn:E2, (c <? GRID_COLS) eqn:E3,
           (r <? R + 1) eqn:E4, (r =? R + 1) eqn:E5, (c <? 0) eqn:E6;
    simpl; try done; lia.
Qed.

Lemma cleared_upto_done g g' :
  grid_shape g -> cleared_upto g g' GRID_ROWS 0 -> g' = clear_grid g.
Proof.
  intros Hs [Hs' Hc]. apply grid_ext; [done|by apply clear_grid_shape|].
  intros r c Hrc. rewrite (Hc r c Hrc), grid_get_clear by done.
  destruct Hrc as [Hr _]. destruct (r <? GRID_ROWS) eqn:E; [done|lia].
Qed.

Lemma wp_clear_loops w (Q : unit -> World -> Prop) :
  grid_shape (grid (g_gameState w)) ->
  Q tt (set_gs w (mkGameState (clear_grid (grid (g_gameState w)))
                              (players (g_gameState w)) (clientCount (g_gameState w)))) ->
  wp (for_each (seqZ 0 GRID_ROWS) (fun r =>
        for_each (seqZ 0 GRID_COLS) (fun c =>
          let! ch := readGrid r c in
          when (negb (Ascii.eqb ch "#") && negb (Ascii.eqb ch "+")) (writeGrid r c ".")))) w Q.
Proof.
  intros Hs HQ.
  set (g := grid (g_gameState w)) in *.
  set (I := fun (R C : Z) (w' : World) =>
         exists g', w' = set_gs w (mkGameState g' (players (g_gameState w))
                                               (clientCount (g_gameState w)))
                    /\ cleared_upto g g' R C).
  eapply wp_mono.
  - change GRID_ROWS with (Z.of_nat 5).
    apply (wp_for_each_seqZ 5 _ (fun R => I R 0)).
    + exists g. split; [by destruct w as [[] ? ? ?]|]. split; [done|].
      intros r c [Hr Hc]. destruct (r <? 0) eqn:E1; [lia|].
      destruct (c <? 0) eqn:E2; [lia|]. by rewrite andb_false_r.
    + intros R w1 HR HI1. eapply wp_mono.
      * change GRID_COLS with (Z.of_nat 5).
        apply (wp_for_each_seqZ 5 _ (fun C => I R C)); [done|].
        intros C w2 HC (g2 & -> & Hg2).
        assert (Hin : in_grid R C) by (unfold in_grid, GRID_ROWS, GRID_COLS; lia).
        destruct (grid_get_is_Some g2 R C) as [ch Hch]; [apply Hg2|done|].
        apply wp_bind. eapply wp_readGrid; [exact Hch|].
        pose proof (cleared_upto_step g g2 R C ch Hs Hin Hg2 Hch) as Hstep.
        apply wp_when; intros Hb; rewrite Hb in Hstep.
        -- apply wp_writeGrid; [apply Hg2|done|]. by eexists.
        -- by eexists.
      * intros [] w2 (g2 & -> & Hg2). exists g2. split; [done|].
        by apply cleared_upto_next_row.
  - intros [] w' (g' & -> & Hg'). by rewrite (cleared_upto_done g g').
Qed.

Lemma wp_place_loop ps : forall k w (Q : unit -> World -> Prop),
  drop k (players (g_gameState w)) = ps ->
  grid_shape (grid (g_gameState w)) ->
  (forall p, p ∈ ps -> drawn p = true -> in_grid (Player.x p) (Player.y p)) ->
  Q tt (set_gs w (mkGameState (place ps k (grid (g_gameState w)))
                              (players (g_gameState w)) (clientCount (g_gameState w)))) ->
  wp (for_each (seq k (length ps)) (fun i =>
        let! player := getPlayer i in
        when (Player.active player && (0 <? Player.hp player))
          (writeGrid (Player.x player) (Player.y player) (marker i)))) w Q.
Proof.
  induction ps as [|p ps IH]; intros k w Q Hdrop Hs Hin HQ; simpl.
  - apply wp_ret. by destruct w as [[] ? ? ?].
  - assert (Hk : players (g_gameState w) !! k = Some p).
    { rewrite <- (Nat.add_0_r k), <- lookup_drop, Hdrop. done. }
    assert (Hdrop' : drop (S k) (players (g_gameState w)) = ps).
    { replace (S k) with (k + 1)%nat by lia. rewrite <- drop_drop. by rewrite Hdrop. }
    apply wp_bind, wp_bind. eapply wp_getPlayer; [exact Hk|].
    fold (drawn p). cbn [place] in HQ. apply wp_when; intros Hd; rewrite Hd in HQ.
    + apply wp_writeGrid; [done| |].
      { apply Hin; [apply list_elem_of_here|done]. }
      apply IH; simpl; [done|by apply gset_shape| |done].
      intros q Hq. apply Hin. by apply list_elem_of_further.
    + apply IH; [done..| |done].
      intros q Hq. apply Hin. by apply list_elem_of_further.
Qed.

Lemma wp_refreshPlayerPositions w (Q : unit -> World -> Prop) :
  shape_ok (g_gameState w) ->
  Q tt (set_gs w (refreshed (g_gameState w))) ->
  wp refreshPlayerPositions w Q.
Proof.
  intros (Hs & Hlen & Hin) HQ. unfold refreshPlayerPositions.
  apply wp_bind. apply wp_clear_loops; [done|].
  apply wp_bind, wp_getState. cbn [g_gameState set_gs players grid clientCount].
  apply wp_place_loop; cbn [g_gameState set_gs players grid clientCount].
  - done.
  - by apply clear_grid_shape.
  - intros p Hp Hd. apply list_elem_of_lookup in Hp as [i Hi]. by eapply Hin.
  - exact HQ.
Qed.

(** ** Markers *)

Lemma marker_inj i j :
  (i < MAX_CLIENTS)%nat -> (j < MAX_CLIENTS)%nat -> marker i = marker j -> i = j.
Proof.
  unfold marker, MAX_CLIENTS. intros Hi Hj H.
  apply (f_equal nat_of_ascii) in H.
  rewrite !nat_ascii_embedding in H by (simpl; lia). lia.
Qed.

Lemma marker_not_terrain i : (i < MAX_CLIENTS)%nat -> is_terrain (marker i) = false.
Proof.
  unfold MAX_CLIENTS. intros Hi.
  destruct i as [|[|[|[|i]]]]; [reflexivity..|lia].
Qed.

Lemma is_terrain_cases ch :
  is_terrain ch = true -> ch = "."%char \/ ch = "#"%char \/ ch = "+"%char.
Proof.
  unfold is_terrain. rewrite !orb_true_iff, !Ascii.eqb_eq. tauto.
Qed.

Lemma clear_cell_terrain ch : is_terrain (clear_cell ch) = true.
Proof.
  unfold clear_cell, is_terrain.
  destruct (Ascii.eqb ch "#") eqn:E1; simpl; [by rewrite E1, orb_true_r|].
  destruct (Ascii.eqb ch "+") eqn:E2; simpl; [by rewrite E2, orb_true_r|done].
Qed.

Lemma clear_cell_id ch : is_terrain ch = true -> clear_cell ch = ch.
Proof.
  intros [->|[->| ->]]%is_terrain_cases; reflexivity.
Qed.

Lemma clear_cell_not_terrain ch : is_terrain ch = false -> clear_cell ch = "."%char.
Proof.
  unfold is_terrain, clear_cell. rewrite !orb_false_iff. by intros [[_ ->] ->].
Qed.

Lemma stands_at_spec p r c :
  stands_at p r c = true <-> Player.x p = r /\ Player.y p = c.
Proof. unfold stands_at. rewrite andb_true_iff. lia. Qed.

(** ** The grid after the second loop, cell by cell *)

Lemma place_shape ps : forall i g, grid_shape g -> grid_shape (place ps i g).
Proof.
  induction ps as [|p ps IH]; intros i g Hs; simpl; [done|].
  apply IH. destruct (drawn p); auto using gset_shape.
Qed.

Lemma place_cell ps : forall i g r c,
  grid_shape g ->
  (forall p, p ∈ ps -> drawn p = true -> in_grid (Player.x p) (Player.y p)) ->
  in_grid r c ->
  grid_get (place ps i g) r c =
  match last_at ps i r c with
  | Some k => Some (marker k)
  | None => grid_get g r c
  end.
Proof.
  induction ps as [|p ps IH]; intros i g r c Hs Hin Hrc; simpl; [done|].
  rewrite IH; [|destruct (drawn p); auto using gset_shape
               |intros q Hq; apply Hin; by apply list_elem_of_further|done].
  destruct (last_at ps (S i) r c) as [k|]; [done|].
  destruct (drawn p) eqn:Hd; simpl; [|done].
  assert (Hp : in_grid (Player.x p) (Player.y p)).
  { apply Hin; [apply list_elem_of_here|done]. }
  rewrite grid_get_gset by done.
  destruct (stands_at p r c) eqn:Hat.
  - apply stands_at_spec in Hat. by rewrite decide_True.
  - rewrite decide_False; [done|]. intros Heq. apply stands_at_spec in Heq. congruence.
Qed.

Lemma last_at_Some ps : forall i r c k,
  last_at ps i r c = Some k ->
  exists j p, k = (i + j)%nat /\ ps !! j = Some p /\ drawn p = true /\ stands_at p r c = true.
Proof.
  induction ps as [|p ps IH]; intros i r c k; simpl; [done|].
  destruct (last_at ps (S i) r c) as [k'|] eqn:E.
  - intros [= <-]. apply IH in E as (j & q & -> & Hq & Hd & Hat).
    exists (S j), q. split; [lia|done].
  - destruct (drawn p && stands_at p r c) eqn:E2; [|done]. intros [= <-].
    apply andb_true_iff in E2 as [Hd Hat]. exists 0%nat, p. split; [lia|done].
Qed.

Lemma last_at_None ps : forall i r c j p,
  last_at ps i r c = None -> ps !! j = Some p -> drawn p = true -> stands_at p r c = false.
Proof.
  induction ps as [|p ps IH]; intros i r c j q; simpl; [done|].
  destruct (last_at ps (S i) r c) as [k'|] eqn:E; [done|].
  destruct (drawn p && stands_at p r c) eqn:E2; [done|]. intros _.
  destruct j as [|j]; simpl.
  - intros [= <-] Hd. by rewrite Hd in E2.
  - by eapply IH.
Qed.

Lemma refresh_grid_shape s : grid_shape (grid s) -> grid_shape (refresh_grid s).
Proof. intros Hs. by apply place_shape, clear_grid_shape. Qed.

Lemma refresh_grid_cell s r c :
  shape_ok s -> in_grid r c ->
  grid_get (refresh_grid s) r c =
  match last_at (players s) 0 r c with
  | Some k => Some (marker k)
  | None => clear_cell <$> grid_get (grid s) r c
  end.
Proof.
  intros (Hs & Hlen & Hin) Hrc. unfold refresh_grid.
  rewrite place_cell; [|by apply clear_grid_shape| |done].
  - by rewrite grid_get_clear.
  - intros p Hp Hd. apply list_elem_of_lookup in Hp as [i Hi]. by eapply Hin.
Qed.

(** ** Consistent states *)

Lemma wf_shape_ok s : wf_state s -> shape_ok s.
Proof.
  intros (Hs & Hlen & Hpl & _). split; [done|]. split; [done|].
  intros i p Hi Hd. apply andb_true_iff in Hd as [Ha _]. by apply (Hpl i p).
Qed.

Lemma wf_index s i p : wf_state s -> players s !! i = Some p -> (i < MAX_CLIENTS)%nat.
Proof. intros (_ & Hlen & _) Hi. rewrite <- Hlen. by eapply lookup_lt_Some. Qed.

(** In a consistent state two active players never stand on one cell. *)
Lemma wf_distinct s i j p q :
  wf_state s -> players s !! i = Some p -> players s !! j = Some q ->
  Player.active p = true -> Player.active q = true ->
  Player.x p = Player.x q -> Player.y p = Player.y q -> i = j.
Proof.
  intros Hwf Hi Hj Hp Hq Hx Hy.
  pose proof (wf_index _ _ _ Hwf Hi). pose proof (wf_index _ _ _ Hwf Hj).
  destruct Hwf as (_ & _ & Hpl & _).
  destruct (Hpl i p Hi Hp) as (_ & _ & Hci). destruct (Hpl j q Hj Hq) as (_ & _ & Hcj).
  rewrite Hx, Hy in Hci. rewrite Hci in Hcj. injection Hcj as Hm. by apply marker_inj.
Qed.


(** On a consistent state refreshPlayerPositions changes nothing. *)
Lemma wf_refreshed s : wf_state s -> refreshed s = s.
Proof.
  intros Hwf. pose proof (wf_shape_ok s Hwf) as Hok.
  assert (Hidx := wf_index s).
  destruct Hwf as (Hs & Hlen & Hpl & Hcell).
  assert (refresh_grid s = grid s) as Hg; [|destruct s; unfold refreshed; simpl in *; by rewrite Hg].
  apply grid_ext; [by apply refresh_grid_shape|done|].
  intros r c Hrc. rewrite refresh_grid_cell by done.
  destruct (grid_get_is_Some (grid s) r c Hs Hrc) as [ch Hch].
  destruct (last_at (players s) 0 r c) as [k|] eqn:E.
  - apply last_at_Some in E as (j & q & -> & Hq & Hd & Hat). simpl.
    apply andb_true_iff in Hd as [Haq _]. apply stands_at_spec in Hat as [<- <-].
    destruct (Hpl j q Hq Haq) as (_ & _ & Hc). by rewrite Hc.
  - rewrite Hch. simpl. f_equal.
    destruct (Hcell r c ch Hrc Hch) as [Ht|(i & p & Hi & Ha & Hx & Hy & ->)].
    + by apply clear_cell_id.
    + eapply last_at_None in E; [|exact Hi|].
      * assert (stands_at p r c = true) by by apply stands_at_spec. congruence.
      * destruct (Hpl i p Hi Ha) as (_ & Hhp & _).
        unfold drawn. rewrite Ha. simpl. apply Z.ltb_lt. lia.
Qed.

Lemma wp_refresh_wf w (Q : unit -> World -> Prop) :
  wf_state (g_gameState w) -> Q tt w -> wp refreshPlayerPositions w Q.
Proof.
  intros Hwf HQ. apply wp_refreshPlayerPositions; [by apply wf_shape_ok|].
  rewrite wf_refreshed by done. by destruct w.
Qed.

(** The check [wf_stateb] is sound. *)
Lemma wf_stateb_sound s : wf_stateb s = true -> wf_state s.
Proof.
  unfold wf_stateb. rewrite !andb_true_iff. intros [[[Hs Hlen] Hpl] Hcell].
  apply grid_shapeb_spec in Hs. apply Nat.eqb_eq in Hlen.
  rewrite forallb_forall in Hpl. rewrite forallb_forall in Hcell.
  split; [done|]. split; [done|]. split.
  - intros i p Hi Ha.
    specialize (Hpl (i, p)). simpl in Hpl. rewrite Ha in Hpl. simpl in Hpl.
    rewrite !andb_true_iff, in_gridb_spec, Z.ltb_lt, bool_decide_eq_true in Hpl.
    assert (In (i, p) (imap pair (players s))) as HI.
    { apply list_elem_of_In, list_elem_of_lookup. exists i. by rewrite list_lookup_imap, Hi. }
    destruct (Hpl HI) as [[? ?] ?]. done.
  - intros r c ch Hrc Hch.
    assert (In r (seqZ 0 GRID_ROWS)) as Hr.
    { apply list_elem_of_In, elem_of_seqZ. destruct Hrc. lia. }
    assert (In c (seqZ 0 GRID_COLS)) as Hc.
    { apply list_elem_of_In, elem_of_seqZ. destruct Hrc. lia. }
    specialize (Hcell r Hr). rewrite forallb_forall in Hcell.
    specialize (Hcell c Hc). rewrite Hch in Hcell.
    apply orb_true_iff in Hcell as [Ht|Hex]; [by left|right].
    apply existsb_exists in Hex as ([i p] & HI & Hip). simpl in Hip.
    rewrite !andb_true_iff, stands_at_spec, Ascii.eqb_eq in Hip.
    destruct Hip as [[Ha [Hx Hy]] ->].
    apply list_elem_of_In, list_elem_of_lookup in HI as [j Hj].
    rewrite list_lookup_imap in Hj.
    destruct (players s !! j) as [q|] eqn:Hq; [|done]. simpl in Hj.
    injection Hj as <- <-. by exists j, q.
Qed.

(** ** Delivery: broadcastState and the loop of SAY *)

Lemma registry_okb_sound w : registry_okb w = true -> registry_ok w.
Proof.
  unfold registry_okb, registry_ok. intros H i j sid Hi Hj.
  rewrite forallb_forall in H.
  assert (In i (seq 0 (length (g_clientSockets w)))) as Ii.
  { apply in_seq. apply lookup_lt_Some in Hi. lia. }
  assert (In j (seq 0 (length (g_clientSockets w)))) as Ij.
  { apply in_seq. apply lookup_lt_Some in Hj. lia. }
  specialize (H i Ii). rewrite forallb_forall in H. specialize (H j Ij).
  rewrite Hi, Hj, Nat.eqb_refl in H. simpl in H. by apply Nat.eqb_eq.
Qed.

Lemma index_of_first sid r k :
  r !! k = Some (Some sid) ->
  (forall j, (j < k)%nat -> r !! j <> Some (Some sid)) ->
  index_of sid r = Some k.
Proof.
  revert k. induction r as [|o r IH]; intros k Hk Hfirst; [done|]. simpl.
  destruct k as [|k].
  - simpl in Hk. injection Hk as ->. by rewrite decide_True.
  - rewrite decide_False.
    + rewrite (IH k); [done|done|]. intros j Hj. apply (Hfirst (S j)). lia.
    + intros ->. by apply (Hfirst 0%nat); [lia|].
Qed.

Lemma live_add_event w e sid : live (add_event w e) sid = live w sid.
Proof. done. Qed.

Lemma live_set_registry w r sid : live (set_registry w r) sid = live w sid.
Proof. done. Qed.


Lemma live_closed_world w sid sid' :
  live (closed_world w sid) sid' = if decide (sid = sid') then false else live w sid'.
Proof.
  unfold closed_world, live. destruct (sockets w !! sid) as [s|] eqn:E; simpl.
  - destruct (decide (sid = sid')) as [<-|Hne].
    + rewrite list_lookup_insert_eq; [by rewrite andb_false_r|]. by eapply lookup_lt_Some.
    + by rewrite list_lookup_insert_ne.
  - destruct (decide (sid = sid')) as [<-|Hne]; [by rewrite E|done].
Qed.

Lemma is_closedb_closed_world w sid sid' :
  is_closedb (closed_world w sid) sid' =
  if decide (sid = sid') then true else is_closedb w sid'.
Proof.
  unfold closed_world, is_closedb. destruct (sockets w !! sid) as [s|] eqn:E; simpl.
  - destruct (decide (sid = sid')) as [<-|Hne].
    + rewrite list_lookup_insert_eq; [done|]. by eapply lookup_lt_Some.
    + by rewrite list_lookup_insert_ne.
  - destruct (decide (sid = sid')) as [<-|Hne]; [by rewrite E|done].
Qed.

Lemma delivered_upto_start skip data w : delivered_upto 0 skip data w w.
Proof.
  repeat split; try done.
  - lia.
  - exists []. rewrite app_nil_r. repeat split; try done.
    + intros e He. by apply elem_of_nil in He.
    + lia.
Qed.

Lemma closed_world_registry w sid :
  g_clientSockets (closed_world w sid) = g_clientSockets w.
Proof. unfold closed_world. by destruct (sockets w !! sid). Qed.

Lemma closed_world_gs w sid : g_gameState (closed_world w sid) = g_gameState w.
Proof. unfold closed_world. by destruct (sockets w !! sid). Qed.

Lemma closed_world_trace w sid :
  is_Some (sockets w !! sid) -> trace (closed_world w sid) = (trace w ++ [EvClose sid])%list.
Proof. unfold closed_world. intros [s ->]. done. Qed.

Lemma closed_world_events w sid :
  exists evs : list Event,
    trace (closed_world w sid) = (trace w ++ evs)%list /\
    forall e, e ∈ evs -> e = EvClose sid.
Proof.
  unfold closed_world. destruct (sockets w !! sid).
  - exists [EvClose sid]. split; [done|]. by intros e ->%list_elem_of_singleton.
  - exists []. rewrite app_nil_r. split; [done|]. intros e He. by apply elem_of_nil in He.
Qed.

Lemma wp_deliver_body skip data w w' n :
  registry_ok w -> (n < length (g_clientSockets w))%nat ->
  delivered_upto n skip data w w' ->
  wp (deliver_body skip data n) w' (fun _ w'' => delivered_upto (S n) skip data w w'').
Proof.
  intros Hok Hn (Hgs & Hlen & Hreg & Hlive & Hcl & Hdead & Hsl & evs & Htr & Hsound & Hcompl).
  destruct (lookup_lt_is_Some_2 (g_clientSockets w) n Hn) as [o Ho].
  pose proof (Hreg n o Ho) as Ho'. rewrite Nat.ltb_irrefl in Ho'.
  assert (Hext : forall k o0, k <> n ->
            (if (k <? S n)%nat then kept skip w k o0 else o0) =
            (if (k <? n)%nat then kept skip w k o0 else o0)).
  { intros k o0 Hne. destruct (Nat.ltb_spec k (S n)), (Nat.ltb_spec k n); try done; lia. }
  assert (Hsound' : forall e, e ∈ evs -> exists k sid,
       (k < S n)%nat /\ skip k = false /\ g_clientSockets w !! k = Some (Some sid) /\
       (e = EvSend sid data /\ live w sid = true \/ e = EvClose sid /\ live w sid = false)).
  { intros e He. destruct (Hsound e He) as (k & sid & Hk & ?). exists k, sid. split; [lia|done]. }
  assert (Hskipped : (forall sid, o = Some sid -> skip n = true) ->
            delivered_upto (S n) skip data w w').
  { intros Hsk0.
    assert (Hkept : kept skip w n o = o).
    { destruct o as [sid|]; [|done]. simpl. by rewrite (Hsk0 sid). }
    split; [done|]. split; [done|]. split.
    { intros k o0 Hk. rewrite (Hreg k o0 Hk).
      destruct (decide (k = n)) as [->|Hne]; [|by rewrite Hext].
      rewrite Ho in Hk. injection Hk as <-.
      destruct (Nat.ltb_spec n (S n)); [|lia]. by rewrite Nat.ltb_irrefl, Hkept. }
    split; [done|]. split; [done|]. split.
    { intros k sid0 Hk Hsk Hk0 Hd.
      destruct (decide (k = n)) as [->|Hne]; [|apply (Hdead k sid0); [lia|done..]].
      rewrite Ho in Hk0. injection Hk0 as ->. rewrite (Hsk0 sid0) in Hsk; done. }
    split; [done|].
    exists evs. split; [done|]. split; [done|].
    intros k sid0 Hk Hsk Hk0 Hl0.
    destruct (decide (k = n)) as [->|Hne]; [|apply (Hcompl k sid0); [lia|done..]].
    rewrite Ho in Hk0. injection Hk0 as ->. rewrite (Hsk0 sid0) in Hsk; done. }
  unfold deliver_body. apply wp_bind. eapply wp_getSock; [exact Ho'|].
  destruct o as [sid|]; [|apply wp_ret; by apply Hskipped].
  apply wp_when; intros Hskip.
  2:{ apply Hskipped. intros ? _. by apply negb_false_iff in Hskip. }
  apply negb_true_iff in Hskip. apply wp_try_send; rewrite Hlive; intros Hl.
  - (* the send succeeds *)
    split; [done|]. split; [done|]. split.
    { intros k o0 Hk. cbn [add_event set_registry set_gs g_clientSockets g_gameState trace sockets]. rewrite (Hreg k o0 Hk).
      destruct (decide (k = n)) as [->|Hne]; [|by rewrite Hext].
      rewrite Ho in Hk. injection Hk as <-.
      destruct (Nat.ltb_spec n (S n)); [|lia]. rewrite Nat.ltb_irrefl.
      simpl. by rewrite Hskip, Hl. }
    split; [done|]. split; [done|]. split.
    { intros k sid0 Hk Hsk Hk0 Hd. change (is_closedb (add_event ?a ?b) ?c) with (is_closedb a c).
      destruct (decide (k = n)) as [->|Hne]; [|apply (Hdead k sid0); [lia|done..]].
      rewrite Ho in Hk0. injection Hk0 as <-. congruence. }
    split; [done|].
    exists (evs ++ [EvSend sid data])%list. split; [cbn [add_event set_registry set_gs g_clientSockets g_gameState trace sockets]; by rewrite Htr, app_assoc|]. split.
    { intros e [He|He%list_elem_of_singleton]%elem_of_app; [by apply Hsound'|].
      exists n, sid. split; [lia|]. split; [done|]. split; [done|]. by left. }
    intros k sid0 Hk Hsk Hk0 Hl0. apply elem_of_app.
    destruct (decide (k = n)) as [->|Hne].
    + right. rewrite Ho in Hk0. injection Hk0 as <-. by apply list_elem_of_singleton.
    + left. apply (Hcompl k sid0); [lia|done..].
  - (* the send fails: the socket is dropped *)
    unfold drop_socket. apply wp_bind, wp_sock_close.
    apply wp_bind, wp_getRegistry. apply wp_bind.
    rewrite closed_world_registry.
    eapply wp_of_option.
    { apply (index_of_first sid _ n); [done|].
      intros j Hj Hj'.
      destruct (lookup_lt_is_Some_2 (g_clientSockets w) j) as [oj Hoj]; [lia|].
      pose proof (Hreg j oj Hoj) as Hj2. rewrite Hj' in Hj2.
      destruct (Nat.ltb_spec j n); [|lia]. injection Hj2 as Hj2.
      destruct oj as [sj|]; [|done]. simpl in Hj2.
      destruct (skip j || live w sj); [|done]. injection Hj2 as <-.
      assert (j = n) by by apply (Hok j n sid). lia. }
    apply wp_setSock; [rewrite closed_world_registry; lia|].
    destruct (closed_world_events w' sid) as (cevs & Hctr & Hcevs).
    split; [cbn [add_event set_registry set_gs g_clientSockets g_gameState trace sockets]; by rewrite closed_world_gs|].
    split; [cbn [add_event set_registry set_gs g_clientSockets g_gameState trace sockets]; by rewrite length_insert, closed_world_registry|].
    split.
    { intros k o0 Hk. cbn [add_event set_registry set_gs g_clientSockets g_gameState trace sockets]. rewrite closed_world_registry.
      destruct (decide (k = n)) as [->|Hne].
      - rewrite Ho in Hk. injection Hk as <-.
        rewrite list_lookup_insert_eq by lia.
        destruct (Nat.ltb_spec n (S n)); [|lia]. simpl. by rewrite Hskip, Hl.
      - rewrite list_lookup_insert_ne by done. rewrite (Hreg k o0 Hk). by rewrite Hext. }
    split.
    { intros sid0. rewrite live_set_registry, live_closed_world.
      destruct (decide (sid = sid0)) as [<-|Hne]; [done|apply Hlive]. }
    split.
    { intros sid0 Hc.
      change (is_closedb (set_registry ?a ?b) ?c) with (is_closedb a c).
      rewrite is_closedb_closed_world. destruct (decide _); [done|by apply Hcl]. }
    split.
    { intros k sid0 Hk Hsk Hk0 Hd.
      change (is_closedb (set_registry ?a ?b) ?c) with (is_closedb a c).
      rewrite is_closedb_closed_world.
      destruct (decide (sid = sid0)); [done|].
      destruct (decide (k = n)) as [->|Hne]; [congruence|].
      apply (Hdead k sid0); [lia|done..]. }
    split.
    { change (sockets (set_registry ?a ?b)) with (sockets a). rewrite <- Hsl.
      unfold closed_world. destruct (sockets w' !! sid); [|done]. simpl.
      by rewrite length_insert. }
    exists (evs ++ cevs)%list. split.
    { change (trace (set_registry ?a ?b)) with (trace a). by rewrite Hctr, Htr, app_assoc. }
    split.
    { intros e [He|He]%elem_of_app; [by apply Hsound'|].
      exists n, sid. split; [lia|]. split; [done|]. split; [done|]. right.
      split; [by apply Hcevs|done]. }
    intros k sid0 Hk Hsk Hk0 Hl0. apply elem_of_app. left.
    destruct (decide (k = n)) as [->|Hne]; [congruence|].
    apply (Hcompl k sid0); [lia|done..].
Qed.

Lemma wp_deliver skip data w (Q : unit -> World -> Prop) :
  registry_ok w ->
  (forall w', delivered skip data w w' -> Q tt w') ->
  wp (deliver skip data) w Q.
Proof.
  intros Hok HQ. unfold deliver. apply wp_bind, wp_getRegistry.
  eapply wp_mono.
  - apply (wp_for_each_seq 0 _ _ (fun n w' => delivered_upto n skip data w w')).
    + apply delivered_upto_start.
    + intros j w' Hj HI. apply wp_deliver_body; [done|lia|done].
  - intros [] w' H. by apply HQ.
Qed.

Lemma broadcastState_deliver :
  broadcastState = (let! stateStr := buildStateString in deliver (fun _ => false) stateStr).
Proof. reflexivity. Qed.

Lemma wp_broadcastState w (Q : unit -> World -> Prop) :
  registry_ok w ->
  (forall w', delivered (fun _ => false) (buildStateString_of (g_gameState w)) w w' -> Q tt w') ->
  wp broadcastState w Q.
Proof.
  intros Hok HQ. rewrite broadcastState_deliver.
  apply wp_bind. unfold buildStateString. apply wp_bind, wp_getState, wp_ret.
  by apply wp_deliver.
Qed.

Lemma delivered_registry_ok skip data w w' :
  registry_ok w -> delivered skip data w w' -> registry_ok w'.
Proof.
  intros Hok (_ & Hlen & Hreg & _) i j sid Hi Hj.
  assert (forall k, g_clientSockets w' !! k = Some (Some sid) ->
                    g_clientSockets w !! k = Some (Some sid)) as Hback.
  { intros k Hk.
    destruct (lookup_lt_is_Some_2 (g_clientSockets w) k) as [o Ho].
    { rewrite <- Hlen. by eapply lookup_lt_Some. }
    pose proof (Hreg k o Ho) as Hk'. rewrite Hk in Hk'. injection Hk' as Hk'.
    destruct (k <? _)%nat; [|congruence].
    destruct o as [s|]; [|done]. simpl in Hk'.
    destruct (skip k || live w s); congruence. }
  apply (Hok i j sid); by apply Hback.
Qed.

(** A live registered socket stays registered and gets the data. *)
Lemma delivered_live skip data w w' k sid :
  delivered skip data w w' ->
  g_clientSockets w !! k = Some (Some sid) -> live w sid = true ->
  g_clientSockets w' !! k = Some (Some sid) /\ live w' sid = true.
Proof.
  intros (_ & _ & Hreg & Hlive & _) Hk Hl. split; [|by rewrite Hlive].
  rewrite (Hreg k _ Hk). apply lookup_lt_Some in Hk as Hlt.
  destruct (Nat.ltb_spec k (length (g_clientSockets w))); [|lia].
  simpl. by rewrite Hl, orb_true_r.
Qed.

(** A registered socket that takes no data is closed and its slot freed. *)
Lemma delivered_dead skip data w w' k sid :
  delivered skip data w w' -> skip k = false ->
  g_clientSockets w !! k = Some (Some sid) -> live w sid = false ->
  g_clientSockets w' !! k = Some None /\ is_closedb w' sid = true.
Proof.
  intros (_ & _ & Hreg & _ & _ & Hdead & _) Hsk Hk Hl.
  apply lookup_lt_Some in Hk as Hlt. split; [|by apply (Hdead k sid)].
  rewrite (Hreg k _ Hk).
  destruct (Nat.ltb_spec k (length (g_clientSockets w))); [|lia].
  simpl. by rewrite Hl, Hsk.
Qed.

(** ** Moves *)


Lemma handleCommand_move_cmd i jump d :
  handleCommand i (move_cmd jump d) =
  (let! p := getPlayer i in moveDir i (Player.x p) (Player.y p) (step_of jump) d).
Proof. destruct jump, d; reflexivity. Qed.

Lemma passable_spec s r c :
  passable s r c = true <->
  in_grid r c /\ (grid_get (grid s) r c = Some "."%char \/ grid_get (grid s) r c = Some "+"%char).
Proof.
  unfold passable. rewrite andb_true_iff, in_gridb_spec.
  destruct (grid_get (grid s) r c) as [ch|].
  - rewrite orb_true_iff, !Ascii.eqb_eq.
    split.
    + intros [? [E|E]]; (split; [done|]); [left|right]; congruence.
    + intros [? [E|E]]; (split; [done|]); [left|right]; congruence.
  - split; [by intros [_ ?]|by intros [_ [?|?]]].
Qed.

(** On a consistent state the code's test is the rule. *)
Lemma passable_legal s i p r c :
  wf_state s -> players s !! i = Some p -> Player.active p = true ->
  (r, c) <> (Player.x p, Player.y p) ->
  passable s r c = true <-> legal_destination s i r c.
Proof.
  intros Hwf Hi Ha Hne. pose proof (wf_index s) as Hidx.
  pose proof Hwf as (Hs & Hlen & Hpl & Hcell).
  rewrite passable_spec. unfold legal_destination. split.
  - intros [Hin Hch]. split; [done|]. split.
    + destruct Hch as [-> | ->]; done.
    + intros (k & q & Hk & Hq & Haq & <- & <-).
      destruct (Hpl k q Hq Haq) as (_ & _ & Hm). rewrite Hm in Hch.
      pose proof (marker_not_terrain k (Hidx _ _ Hwf Hq)) as Ht.
      destruct Hch as [[= E]|[= E]]; by rewrite E in Ht.
  - intros (Hin & Hobs & Hocc). split; [done|].
    destruct (grid_get_is_Some (grid s) r c Hs Hin) as [ch Hch].
    destruct (Hcell r c ch Hin Hch) as [Ht|(k & q & Hq & Haq & Hx & Hy & ->)].
    + rewrite Hch in *. apply is_terrain_cases in Ht as [->|[->| ->]]; auto. done.
    + destruct (decide (k = i)) as [->|Hki].
      * rewrite Hi in Hq. injection Hq as <-. by subst.
      * exfalso. apply Hocc. by exists k, q.
Qed.

Lemma moved_wf s i p r c :
  wf_state s -> players s !! i = Some p -> Player.active p = true ->
  passable s r c = true -> wf_state (moved s i p r c).
Proof.
  intros Hwf Hi Ha Hpass. pose proof (wf_index s) as Hidx.
  pose proof Hwf as (Hs & Hlen & Hpl & Hcell).
  apply passable_spec in Hpass as [Hin Hch].
  destruct (Hpl i p Hi Ha) as (Hinp & Hhp & Hmp).
  assert (Hi4 := Hidx _ _ Hwf Hi).
  assert (Hsrc : ~ (Player.x p = r /\ Player.y p = c)).
  { intros [<- <-]. rewrite Hmp in Hch. pose proof (marker_not_terrain i Hi4) as Ht.
    destruct Hch as [[= E]|[= E]]; by rewrite E in Ht. }
  assert (Hs1 : grid_shape (gset (grid s) (Player.x p) (Player.y p) ".")) by by apply gset_shape.
  assert (Hbonus : 0 <= pickup_bonus s r c).
  { unfold pickup_bonus. case_bool_decide; lia. }
  assert (Hother : forall k q, k <> i -> players s !! k = Some q -> Player.active q = true ->
            ~ (Player.x p = Player.x q /\ Player.y p = Player.y q) /\
            ~ (r = Player.x q /\ c = Player.y q)).
  { intros k q Hk Hq Haq. destruct (Hpl k q Hq Haq) as (_ & _ & Hmq). split.
    - intros [Hx Hy]. apply Hk. symmetry. by apply (wf_distinct s i k p q).
    - intros [-> ->]. rewrite Hmq in Hch.
      pose proof (marker_not_terrain k (Hidx _ _ Hwf Hq)) as Ht.
      destruct Hch as [[= E]|[= E]]; by rewrite E in Ht. }
  split; [by apply gset_shape|]. split; [simpl; by rewrite length_insert|]. split.
  - intros k q Hk Haq. simpl in Hk. simpl.
    destruct (decide (k = i)) as [->|Hki].
    + rewrite list_lookup_insert_eq in Hk by (by eapply lookup_lt_Some).
      injection Hk as <-. simpl. split; [done|]. split; [lia|].
      by rewrite gset_same.
    + rewrite list_lookup_insert_ne in Hk by done.
      destruct (Hpl k q Hk Haq) as (Hinq & Hhq & Hmq).
      destruct (Hother k q Hki Hk Haq) as [H1 H2].
      split; [done|]. split; [done|].
      by rewrite !gset_other.
  - intros r' c' ch Hin'. simpl. rewrite grid_get_gset by done.
    destruct (decide (r = r' /\ c = c')) as [[<- <-]|Hnd].
    + intros [= <-]. right.
      exists i, (Player.mk r c (Player.hp p + pickup_bonus s r c) (Player.active p)).
      rewrite list_lookup_insert_eq by (by eapply lookup_lt_Some). done.
    + rewrite grid_get_gset by done.
      destruct (decide (Player.x p = r' /\ Player.y p = c')) as [[<- <-]|Hns].
      * intros [= <-]. by left.
      * intros Hch'. destruct (Hcell r' c' ch Hin' Hch') as [?|(k & q & Hq & Haq & Hx & Hy & ->)];
          [by left|right].
        exists k, q. rewrite list_lookup_insert_ne; [done|].
        intros <-. rewrite Hi in Hq. injection Hq as <-. by apply Hns.
Qed.

Lemma dir_inb_in_grid p st d :
  in_grid (Player.x p) (Player.y p) -> 0 < st ->
  dir_inb d (dest p st d).1 (dest p st d).2 = in_gridb (dest p st d).1 (dest p st d).2.
Proof.
  unfold in_grid, in_gridb, GRID_ROWS, GRID_COLS. intros [Hx Hy] Hst.
  apply Bool.eq_iff_eq_true.
  destruct d; simpl; unfold GRID_ROWS, GRID_COLS;
    rewrite ?andb_true_iff, ?Z.leb_le, ?Z.ltb_lt; lia.
Qed.

Lemma dir_upd_dest p st d :
  dir_upd d (dest p st d).1 (dest p st d).2 p =
  Player.mk (dest p st d).1 (dest p st d).2 (Player.hp p) (Player.active p).
Proof. by destruct d. Qed.

Lemma dest_moves p st d : 0 < st -> dest p st d <> (Player.x p, Player.y p).
Proof.
  intros Hst E. pose proof (f_equal fst E) as E1. pose proof (f_equal snd E) as E2.
  destruct d; simpl in *; lia.
Qed.

Lemma wp_moveDir w i p st d (Q : unit -> World -> Prop) :
  wf_state (g_gameState w) -> registry_ok w ->
  players (g_gameState w) !! i = Some p -> Player.active p = true -> 0 < st ->
  (forall w',
     let s := g_gameState w in
     let s' := if passable s (dest p st d).1 (dest p st d).2
               then moved s i p (dest p st d).1 (dest p st d).2 else s in
     g_gameState w' = s' ->
     delivered (fun _ => false) (buildStateString_of s') (set_gs w s') w' ->
     Q tt w') ->
  wp (moveDir i (Player.x p) (Player.y p) st d) w Q.
Proof.
  intros Hwf Hok Hi Ha Hst HQ.
  pose proof Hwf as (Hs & Hlen & Hpl & Hcell).
  destruct (Hpl i p Hi Ha) as (Hinp & Hhp & Hmp).
  unfold moveDir. apply wp_bind. eapply wp_getPlayer; [exact Hi|].
  rewrite dir_inb_in_grid by done.
  pose proof (dir_upd_dest p st d) as Hupd.
  set (r := (dest p st d).1) in *. set (c := (dest p st d).2) in *.
  set (s := g_gameState w) in *.
  assert (Hfin : forall s', wf_state s' ->
            (forall w', g_gameState w' = s' ->
               delivered (fun _ => false) (buildStateString_of s') (set_gs w s') w' -> Q tt w') ->
            wp (refreshPlayerPositions ;;; broadcastState) (set_gs w s') Q).
  { intros s' Hwf' HQ'. apply wp_bind, wp_refresh_wf; [done|].
    apply wp_broadcastState; [done|]. intros w' Hd. apply HQ'; [|done]. apply Hd. }
  unfold moveTo. apply wp_bind.
  destruct (in_gridb r c) eqn:Hin.
  - apply in_gridb_spec in Hin as Hin'.
    destruct (grid_get_is_Some (grid s) r c Hs Hin') as [ch Hch].
    apply wp_bind. eapply wp_readGrid; [exact Hch|]. apply wp_ret.
    assert (Hp : passable s r c = (Ascii.eqb ch "." || Ascii.eqb ch "+")).
    { unfold passable. by rewrite Hin, Hch. }
    specialize (HQ). cbv zeta in HQ. rewrite Hp in HQ.
    destruct (Ascii.eqb ch "." || Ascii.eqb ch "+") eqn:Hfree.
    + (* the move is made *)
      assert (Hsrc : ~ (Player.x p = r /\ Player.y p = c)).
      { intros [Hx Hy]. apply (dest_moves p st d Hst).
        rewrite (surjective_pairing (dest p st d)). by f_equal. }
      apply wp_bind. unfold when at 1. apply wp_bind.
      apply wp_writeGrid; [done..|]. apply wp_bind.
      eapply wp_updPlayer; [exact Hi|]. apply wp_bind.
      cbn [set_gs g_gameState grid players clientCount].
      eapply wp_readGrid.
      { cbn [set_gs g_gameState grid players clientCount].
        rewrite gset_other by done. exact Hch. }
      apply wp_bind.
      assert (Hnew : wp (writeGrid r c (marker i)) (set_gs w
           (mkGameState (gset (grid s) (Player.x p) (Player.y p) ".")
              (<[i := Player.mk r c (Player.hp p + pickup_bonus s r c) (Player.active p)]> (players s))
              (clientCount s)))
           (fun _ w2 => wp (refreshPlayerPositions;;; broadcastState) w2 Q)).
      { apply wp_writeGrid; [by apply gset_shape|done|].
        cbn [set_gs g_gameState grid players clientCount].
        apply (Hfin (moved s i p r c)); [|done].
        by apply moved_wf. }
      rewrite Hupd.
      apply wp_when; intros Hplus.
      * eapply wp_updPlayer.
        { cbn [set_gs g_gameState grid players clientCount].
          apply list_lookup_insert_eq. by eapply lookup_lt_Some. }
        cbn [set_gs g_gameState grid players clientCount].
        rewrite list_insert_insert_eq. unfold Player.set_hp. simpl.
        apply Ascii.eqb_eq in Hplus. subst ch.
        assert (pickup_bonus s r c = 5) as Hb.
        { unfold pickup_bonus. by rewrite bool_decide_eq_true_2. }
        by rewrite Hb in Hnew.
      * assert (pickup_bonus s r c = 0) as Hb.
        { unfold pickup_bonus. rewrite bool_decide_eq_false_2; [done|].
          rewrite Hch. intros [= ->]. done. }
        rewrite Hb, Z.add_0_r in Hnew. exact Hnew.
    + apply wp_bind, (wp_ret tt).
      replace w with (set_gs w s) by (by destruct w). by apply Hfin.
  - apply wp_ret. apply wp_bind, (wp_ret tt).
    assert (Hp : passable s r c = false) by (unfold passable; by rewrite Hin).
    cbv zeta in HQ. rewrite Hp in HQ.
    replace w with (set_gs w s) by (by destruct w). by apply Hfin.
Qed.

Lemma delivered_broadcast_done w s' w' :
  g_gameState w' = s' ->
  delivered (fun _ => false) (buildStateString_of s') (set_gs w s') w' ->
  broadcast_done w w'.
Proof.
  intros Hgs (_ & _ & _ & _ & _ & _ & _ & evs & Htr & Hsound & Hcompl).
  exists evs. rewrite Hgs. split; [done|]. split.
  - intros k sid Hk Hl. apply (Hcompl k sid); try done.
    by apply lookup_lt_Some in Hk.
  - intros e He. destruct (Hsound e He) as (k & sid & _ & _ & Hk & Hcase).
    by exists k, sid.
Qed.

Lemma moved_cells s i p r c :
  grid_shape (grid s) -> in_grid (Player.x p) (Player.y p) -> in_grid r c ->
  (r, c) <> (Player.x p, Player.y p) ->
  grid_get (grid (moved s i p r c)) (Player.x p) (Player.y p) = Some "."%char /\
  grid_get (grid (moved s i p r c)) r c = Some (marker i) /\
  forall r' c', in_grid r' c' -> (r', c') <> (Player.x p, Player.y p) -> (r', c') <> (r, c) ->
    grid_get (grid (moved s i p r c)) r' c' = grid_get (grid s) r' c'.
Proof.
  intros Hs Hp Hin Hne. simpl. split; [|split].
  - rewrite gset_other; [by rewrite gset_same|by apply gset_shape|done..|].
    intros [E1 E2]. congruence.
  - rewrite gset_same; [done|by apply gset_shape|done..].
  - intros r' c' Hin' H1 H2. rewrite !gset_other; try done.
    + intros [E1 E2]. congruence.
    + by apply gset_shape.
    + intros [E1 E2]. congruence.
Qed.

(** What a MOVE or JUMP of an active player does in a consistent state. *)
Lemma move_spec (w : World) (i : nat) (p : Player.t) (jump : bool) (d : Dir) :
  wf_state (g_gameState w) -> registry_ok w ->
  players (g_gameState w) !! i = Some p -> Player.active p = true ->
  let s := g_gameState w in
  let r := (dest p (step_of jump) d).1 in
  let c := (dest p (step_of jump) d).2 in
  exists w',
    handleCommand i (move_cmd jump d) w = (Ok tt, w') /\
    broadcast_done w w' /\
    (legal_destination s i r c ->
       players (g_gameState w') =
         <[i := Player.mk r c (Player.hp p + pickup_bonus s r c) true]> (players s) /\
       clientCount (g_gameState w') = clientCount s /\
       grid_get (grid (g_gameState w')) (Player.x p) (Player.y p) = Some "."%char /\
       grid_get (grid (g_gameState w')) r c = Some (marker i) /\
       forall r' c', in_grid r' c' -> (r', c') <> (Player.x p, Player.y p) -> (r', c') <> (r, c) ->
         grid_get (grid (g_gameState w')) r' c' = grid_get (grid s) r' c') /\
    (~ legal_destination s i r c -> g_gameState w' = s).
Proof.
  intros Hwf Hok Hi Ha s r c.
  assert (Hst : 0 < step_of jump) by (destruct jump; simpl; lia).
  pose proof Hwf as (Hs & Hlen & Hpl & Hcell).
  destruct (Hpl i p Hi Ha) as (Hinp & Hhp & Hmp).
  pose proof (passable_legal s i p r c Hwf Hi Ha) as Hleg.
  assert (Hne : (r, c) <> (Player.x p, Player.y p)).
  { unfold r, c. rewrite <- surjective_pairing. by apply dest_moves. }
  specialize (Hleg Hne).
  rewrite handleCommand_move_cmd.
  assert (wp (let! p0 := getPlayer i in
              moveDir i (Player.x p0) (Player.y p0) (step_of jump) d) w
            (fun _ w' =>
               let s' := if passable s r c then moved s i p r c else s in
               g_gameState w' = s' /\
               delivered (fun _ => false) (buildStateString_of s') (set_gs w s') w')) as Hwp.
  { apply wp_bind. eapply wp_getPlayer; [exact Hi|].
    apply wp_moveDir; try done. }
  apply wp_elim in Hwp as ([] & w' & Hrun & Hgs & Hdel).
  exists w'. split; [done|]. split; [by eapply delivered_broadcast_done|].
  destruct (passable s r c) eqn:Hp.
  - split; [|intros Hn; exfalso; by apply Hn, Hleg].
    intros Hl. destruct Hl as (Hin & _). rewrite Hgs.
    destruct (moved_cells s i p r c Hs Hinp Hin Hne) as (H1 & H2 & H3).
    simpl. rewrite Ha. done.
  - split; [|done]. intros Hl%Hleg. congruence.
Qed.



(** C5.  A move onto a pickup cell gives the mover exactly 5 hp and puts
    its marker on the cell.  In every later consistent state in which the
    mover still stands there, a legal move away leaves the cell empty; and
    in every later consistent state in which the cell is still empty, a
    move of any active player onto it changes no hp. *)
Theorem pickup_consumed (w : World) (i : nat) (p : Player.t) (jump : bool) (d : Dir) :
  wf_state (g_gameState w) -> registry_ok w ->
  players (g_gameState w) !! i = Some p -> Player.active p = true ->
  let r := (dest p (step_of jump) d).1 in
  let c := (dest p (step_of jump) d).2 in
  in_grid r c -> grid_get (grid (g_gameState w)) r c = Some "+"%char ->
  exists w1,
    handleCommand i (move_cmd jump d) w = (Ok tt, w1) /\
    players (g_gameState w1) !! i = Some (Player.mk r c (Player.hp p + 5) true) /\
    grid_get (grid (g_gameState w1)) r c = Some (marker i) /\
    forall (w2 : World) (p2 : Player.t) (jump2 : bool) (d2 : Dir),
      wf_state (g_gameState w2) -> registry_ok w2 ->
      players (g_gameState w2) !! i = Some p2 -> Player.active p2 = true ->
      Player.x p2 = r -> Player.y p2 = c ->
      legal_destination (g_gameState w2) i
        (dest p2 (step_of jump2) d2).1 (dest p2 (step_of jump2) d2).2 ->
      exists w3,
        handleCommand i (move_cmd jump2 d2) w2 = (Ok tt, w3) /\
        grid_get (grid (g_gameState w3)) r c = Some "."%char /\
        forall (w4 : World) (j : nat) (q : Player.t) (jump4 : bool) (d4 : Dir),
          wf_state (g_gameState w4) -> registry_ok w4 ->
          grid_get (grid (g_gameState w4)) r c = Some "."%char ->
          players (g_gameState w4) !! j = Some q -> Player.active q = true ->
          dest q (step_of jump4) d4 = (r, c) ->
          exists w5,
            handleCommand j (move_cmd jump4 d4) w4 = (Ok tt, w5) /\
            players (g_gameState w5) !! j = Some (Player.mk r c (Player.hp q) true).
Proof.
  intros Hwf Hok Hi Ha r c Hin Hplus.
  assert (Hleg : legal_destination (g_gameState w) i r c).
  { apply (passable_legal _ i p); try done.
    - unfold r, c. rewrite <- surjective_pairing.
      apply dest_moves. destruct jump; simpl; lia.
    - apply passable_spec. split; [done|by right]. }
  destruct (move_spec w i p jump d Hwf Hok Hi Ha)
    as (w1 & Hrun & _ & Hmove & _).
  destruct (Hmove Hleg) as (Hpl & _ & _ & Hdst & _).
  exists w1. split; [done|]. split.
  { fold r c in Hpl. rewrite Hpl. rewrite list_lookup_insert_eq by (by eapply lookup_lt_Some).
    unfold pickup_bonus. by rewrite bool_decide_eq_true_2. }
  split; [done|].
  intros w2 p2 jump2 d2 Hwf2 Hok2 Hi2 Ha2 Hx2 Hy2 Hleg2.
  destruct (move_spec w2 i p2 jump2 d2 Hwf2 Hok2 Hi2 Ha2)
    as (w3 & Hrun3 & _ & Hmove3 & _).
  destruct (Hmove3 Hleg2) as (_ & _ & Hsrc & _).
  exists w3. split; [done|]. split; [by rewrite <- Hx2, <- Hy2|].
  intros w4 j q jump4 d4 Hwf4 Hok4 Hdot Hj Haq Hdest.
  destruct (move_spec w4 j q jump4 d4 Hwf4 Hok4 Hj Haq)
    as (w5 & Hrun5 & _ & Hmove5 & _).
  rewrite Hdest in Hmove5. simpl in Hmove5.
  assert (Hleg4 : legal_destination (g_gameState w4) j r c).
  { apply (passable_legal _ j q); try done.
    - rewrite <- Hdest. apply dest_moves. destruct jump4; simpl; lia.
    - apply passable_spec. split; [done|by left]. }
  destruct (Hmove5 Hleg4) as (Hpl5 & _).
  exists w5. split; [done|].
  rewrite Hpl5, list_lookup_insert_eq by (by eapply lookup_lt_Some).
  unfold pickup_bonus. rewrite bool_decide_eq_false_2 by (by rewrite Hdot).
  by rewrite Z.add_0_r.
Qed.

(** The pickup theorem at work: B steps from (1,2) onto the pickup at (1,3). *)
Lemma pickup_consumed_witness :
  wf_state (g_gameState world_near_pickup) /\ registry_ok world_near_pickup /\
  players (g_gameState world_near_pickup) !! 1%nat = Some (Player.mk 1 2 100 true) /\
  in_grid 1 3 /\ grid_get (grid (g_gameState world_near_pickup)) 1 3 = Some "+"%char /\
  exists w1,
    handleCommand 1%nat (move_cmd false RIGHT) world_near_pickup = (Ok tt, w1) /\
    players (g_gameState w1) !! 1%nat = Some (Player.mk 1 3 105 true) /\
    grid_get (grid (g_gameState w1)) 1 3 = Some "B"%char.
Proof.
  assert (Hwf : wf_state (g_gameState world_near_pickup))
    by (apply wf_stateb_sound; vm_compute; reflexivity).
  assert (Hok : registry_ok world_near_pickup)
    by (apply registry_okb_sound; vm_compute; reflexivity).
  assert (Hin : in_grid 1 3) by (unfold in_grid, GRID_ROWS, GRID_COLS; lia).
  split; [exact Hwf|]. split; [exact Hok|]. split; [reflexivity|].
  split; [exact Hin|]. split; [reflexivity|].
  destruct (pickup_consumed world_near_pickup 1%nat (Player.mk 1 2 100 true) false RIGHT
              Hwf Hok eq_refl eq_refl Hin eq_refl) as (w1 & Hrun & Hp & Hc & _).
  exists w1. split; [exact Hrun|]. split; [exact Hp|exact Hc].
Defined.

(** C10.  initGameState returns and leaves a 5x5 grid whose only obstacle
    is at (2,2) and whose pickups are at (3,1), (0,4), (1,3) and (2,3) (the
    obstacle first put at (1,3) is overwritten by a pickup), every other
    cell empty; the four players have x = y = -1, hp = 100 and are not
    active; clientCount is 0. *)
Theorem initGameState_layout :
  fst (initGameState world0) = Ok tt /\
  let s := g_gameState (snd (initGameState world0)) in
  grid_shape (grid s) /\
  (forall r c, in_grid r c -> grid_get (grid s) r c = Some (expected_initial_cell r c)) /\
  (forall r c, in_grid r c ->
     (grid_get (grid s) r c = Some "#"%char <-> (r, c) = (2, 2)) /\
     (grid_get (grid s) r c = Some "+"%char <->
        (r, c) = (3, 1) \/ (r, c) = (0, 4) \/ (r, c) = (1, 3) \/ (r, c) = (2, 3))) /\
  players s = [Player.mk (-1) (-1) 100 false; Player.mk (-1) (-1) 100 false;
               Player.mk (-1) (-1) 100 false; Player.mk (-1) (-1) 100 false] /\
  clientCount s = 0.
Proof.
  split; [reflexivity|]. cbv zeta.
  assert (Hcells : forall r c, in_grid r c ->
            grid_get (grid (g_gameState (snd (initGameState world0)))) r c
            = Some (expected_initial_cell r c)).
  { intros r c [Hr Hc]. unfold GRID_ROWS, GRID_COLS in *.
    assert (r = 0 \/ r = 1 \/ r = 2 \/ r = 3 \/ r = 4) as Er by lia.
    assert (c = 0 \/ c = 1 \/ c = 2 \/ c = 3 \/ c = 4) as Ec by lia.
    destruct Er as [->|[->|[->|[->| ->]]]], Ec as [->|[->|[->|[->| ->]]]]; reflexivity. }
  split; [apply grid_shapeb_spec; reflexivity|]. split; [exact Hcells|].
  split; [|split; reflexivity].
  intros r c Hin. rewrite (Hcells r c Hin). destruct Hin as [Hr Hc].
  unfold GRID_ROWS, GRID_COLS in *.
  assert (r = 0 \/ r = 1 \/ r = 2 \/ r = 3 \/ r = 4) as Er by lia.
  assert (c = 0 \/ c = 1 \/ c = 2 \/ c = 3 \/ c = 4) as Ec by lia.
  destruct Er as [->|[->|[->|[->| ->]]]], Ec as [->|[->|[->|[->| ->]]]];
    (split; split; intros E); try discriminate E; try reflexivity;
    try (exfalso; intuition discriminate); intuition reflexivity.
Qed.

(** ** The world a computation leaves, whether it returns or raises *)




(** ** Commands that start with MOVE or JUMP *)

Lemma prefix_cons a s b t :
  String.prefix (String a s) (String b t) = if ascii_dec a b then String.prefix s t else false.
Proof. reflexivity. Qed.


Lemma delivered_registry_back skip data w w' k sid :
  delivered skip data w w' ->
  g_clientSockets w' !! k = Some (Some sid) -> g_clientSockets w !! k = Some (Some sid).
Proof.
  intros (_ & Hlen & Hreg & _) Hk.
  destruct (lookup_lt_is_Some_2 (g_clientSockets w) k) as [o Ho].
  { rewrite <- Hlen. by eapply lookup_lt_Some. }
  pose proof (Hreg k o Ho) as Hk'. rewrite Hk in Hk'. injection Hk' as Hk'.
  destruct (k <? _)%nat; [|congruence].
  destruct o as [s|]; [|done]. simpl in Hk'.
  destruct (skip k || live w s); congruence.
Qed.




(** ** Join states *)



Lemma find_slot_Some r idxs slot :
  find_slot r idxs = Ok (Some slot) -> r !! slot = Some None.
Proof.
  induction idxs as [|i idxs IH]; simpl; [done|].
  destruct (r !! i) as [[sid|]|] eqn:E; [done| |done].
  by intros [= <-].
Qed.





Lemma run_app acts1 acts2 w : run (acts1 ++ acts2) w = run acts2 (run acts1 w).
Proof. unfold run. by rewrite fold_left_app. Qed.

Lemma run_cons a acts w : run (a :: acts) w = run acts (snd (step a w)).
Proof. done. Qed.





(** ** Joining *)

(** After refreshPlayerPositions a marker on the grid is that of a drawn
    player standing there. *)
Lemma refreshed_markers s r c k :
  shape_ok s -> in_grid r c -> (k < MAX_CLIENTS)%nat ->
  grid_get (refresh_grid s) r c = Some (marker k) ->
  exists p, players s !! k = Some p /\ drawn p = true /\ stands_at p r c = true.
Proof.
  intros Hok Hin Hk. rewrite refresh_grid_cell by done.
  destruct (last_at (players s) 0 r c) as [k'|] eqn:E.
  - apply last_at_Some in E as (j & q & -> & Hq & Hd & Hat). simpl.
    intros [= Hm]. apply marker_inj in Hm; [by subst; eauto| |done].
    destruct Hok as (_ & Hlen & _). rewrite <- Hlen. by eapply lookup_lt_Some.
  - destruct (grid_get (grid s) r c) as [ch|]; [|done]. simpl. intros [= Hm].
    pose proof (clear_cell_terrain ch) as Ht. rewrite Hm in Ht.
    by rewrite marker_not_terrain in Ht.
Qed.

Lemma join_spec (w : World) (i sid : nat) :
  shape_ok (g_gameState w) -> registry_ok w ->
  (i < MAX_CLIENTS)%nat ->
  g_clientSockets w !! i = Some (Some sid) -> live w sid = true ->
  exists w',
    clientHandler_join i w = (Ok tt, w') /\
    players (g_gameState w') !! i = Some (Player.mk (Z.of_nat i) 0 100 true) /\
    (forall k, k <> i -> players (g_gameState w') !! k = players (g_gameState w) !! k) /\
    (exists evs : list Event,
       trace w' = (trace w ++ EvSend sid ("READY" +:+ nl) :: evs)%list /\
       EvSend sid (buildStateString_of (g_gameState w')) ∈ evs /\
       (forall k' sid', g_clientSockets w !! k' = Some (Some sid') -> live w sid' = true ->
          EvSend sid' (buildStateString_of (g_gameState w')) ∈ evs) /\
       (forall e, e ∈ evs -> exists sid',
          e = EvSend sid' (buildStateString_of (g_gameState w')) \/ e = EvClose sid')) /\
    (forall r c k, in_grid r c -> (k < MAX_CLIENTS)%nat ->
       grid_get (grid (g_gameState w')) r c = Some (marker k) ->
       exists p, players (g_gameState w') !! k = Some p /\ Player.active p = true /\
                 Player.x p = r /\ Player.y p = c) /\
    (forall r c, in_grid r c ->
       grid_get (grid (g_gameState w')) r c = Some (marker i) -> (r, c) = (Z.of_nat i, 0)).
Proof.
  intros Hsh Hok Hi Hreg Hlive.
  pose proof Hsh as (Hs & Hlen & Hin).
  destruct (lookup_lt_is_Some_2 (players (g_gameState w)) i) as [p0 Hp0]; [by rewrite Hlen|].
  assert (Hlt : (i < length (players (g_gameState w)))%nat) by by rewrite Hlen.
  set (s1 := mkGameState (grid (g_gameState w))
               (<[i := Player.mk (Z.of_nat i) 0 100 true]> (players (g_gameState w)))
               (clientCount (g_gameState w))).
  assert (Hsh1 : shape_ok s1).
  { split; [done|]. split; [simpl; by rewrite length_insert|].
    intros k p Hk Hd. simpl in Hk. destruct (decide (k = i)) as [->|Hne].
    - rewrite list_lookup_insert_eq in Hk by done. injection Hk as <-. simpl.
      unfold in_grid, GRID_ROWS, GRID_COLS, MAX_CLIENTS in *. lia.
    - rewrite list_lookup_insert_ne in Hk by done. by apply (Hin k). }
  set (w2 := add_event (set_gs w (refreshed s1)) (EvSend sid ("READY" +:+ nl))).
  assert (Hwp : wp (clientHandler_join i) w
            (fun _ w' => delivered (fun _ => false) (buildStateString_of (refreshed s1)) w2 w')).
  { unfold clientHandler_join.
    apply wp_bind. eapply wp_getSock; [exact Hreg|].
    apply wp_bind. eapply wp_updPlayer; [exact Hp0|].
    apply wp_bind. eapply wp_updPlayer.
    { cbn [set_gs g_gameState players]. by apply list_lookup_insert_eq. }
    cbn [set_gs g_gameState players grid clientCount]. rewrite list_insert_insert_eq.
    apply wp_bind. eapply wp_updPlayer.
    { cbn [set_gs g_gameState players]. by apply list_lookup_insert_eq. }
    cbn [set_gs g_gameState players grid clientCount]. rewrite list_insert_insert_eq.
    apply wp_bind. eapply wp_updPlayer.
    { cbn [set_gs g_gameState players]. by apply list_lookup_insert_eq. }
    cbn [set_gs g_gameState players grid clientCount]. rewrite list_insert_insert_eq.
    cbn [Player.set_x Player.set_y Player.set_hp Player.set_active
         Player.x Player.y Player.hp Player.active].
    fold s1. apply wp_bind. apply wp_refreshPlayerPositions; [done|].
    cbn [set_gs g_gameState g_clientSockets sockets trace].
    apply wp_bind, wp_bind. eapply wp_of_option; [done|].
    apply wp_sock_send; [done|].
    apply wp_broadcastState; [done|]. intros w' Hdel. exact Hdel. }
  apply wp_elim in Hwp as ([] & w' & Hrun & Hdel).
  pose proof Hdel as (Hgs & _ & _ & _ & _ & _ & _ & evs & Htr & Hsound & Hcompl).
  change (g_gameState w2) with (refreshed s1) in Hgs.
  exists w'. split; [done|]. rewrite Hgs. split; [|split; [|split; [|split]]].
  - simpl. by apply list_lookup_insert_eq.
  - intros k Hne. simpl. by apply list_lookup_insert_ne.
  - exists evs. split.
    { rewrite Htr. simpl. by rewrite <- app_assoc. }
    assert (Hall : forall k' sid', g_clientSockets w !! k' = Some (Some sid') ->
              live w sid' = true -> EvSend sid' (buildStateString_of (refreshed s1)) ∈ evs).
    { intros k' sid' Hk' Hl'. apply (Hcompl k' sid'); try done.
      by apply lookup_lt_Some in Hk'. }
    split; [by apply (Hall i sid)|]. split; [exact Hall|].
    intros e He. destruct (Hsound e He) as (k' & sid' & _ & _ & _ & [[-> _]|[-> _]]); eauto.
  - intros r c k Hrc Hk Hm. simpl in Hm.
    destruct (refreshed_markers s1 r c k Hsh1 Hrc Hk Hm) as (p & Hp & Hd & Hat).
    exists p. apply andb_true_iff in Hd as [Ha _]. apply stands_at_spec in Hat as [Hx Hy].
    done.
  - intros r c Hrc Hm. simpl in Hm.
    destruct (refreshed_markers s1 r c i Hsh1 Hrc Hi Hm) as (p & Hp & Hd & Hat).
    simpl in Hp. rewrite list_lookup_insert_eq in Hp by done. injection Hp as <-.
    apply stands_at_spec in Hat as [Hx Hy]. simpl in Hx, Hy. by subst.
Qed.



(** ** SAY *)

Lemma wp_deliver_loop skip data w (Q : unit -> World -> Prop) :
  registry_ok w ->
  (forall w', delivered skip data w w' -> Q tt w') ->
  wp (for_each (seq 0 (length (g_clientSockets w))) (deliver_body skip data)) w Q.
Proof.
  intros Hok HQ. pose proof (wp_deliver skip data w Q Hok HQ) as H.
  unfold deliver in H. unfold wp, bind, getRegistry in H. exact H.
Qed.

Lemma handleCommand_say i text :
  handleCommand i ("SAY " +:+ text) =
  (let! p := getPlayer i in handleSay i ("SAY " +:+ text)).
Proof. reflexivity. Qed.

Lemma say_line_words i text :
  say_line i ("SAY " +:+ text) = chat_line i (String.concat "" (py_split " " text)).
Proof. reflexivity. Qed.

Lemma split_go_no_space s : forall cur,
  no_space s = true ->
  split_go " " cur s = [string_of_list_ascii (rev cur ++ list_ascii_of_string s)].
Proof.
  induction s as [|c s IH]; intros cur Hs; simpl.
  - by rewrite app_nil_r.
  - simpl in Hs. apply andb_true_iff in Hs as [Hc Hs].
    apply negb_true_iff in Hc. rewrite Hc. rewrite IH by done.
    simpl. by rewrite <- app_assoc.
Qed.

Lemma say_line_one_word i text :
  no_space text = true -> say_line i ("SAY " +:+ text) = chat_line i text.
Proof.
  intros Hs. rewrite say_line_words. unfold py_split.
  rewrite split_go_no_space by done. simpl.
  by rewrite string_of_list_ascii_of_string.
Qed.

(** What SAY does, whatever the words of the message. *)
Lemma say_spec (w : World) (i : nat) (cmd : string) :
  shape_ok (g_gameState w) -> registry_ok w -> (i < MAX_CLIENTS)%nat ->
  wp (let! p := getPlayer i in handleSay i cmd) w (fun _ w' =>
    players (g_gameState w') = players (g_gameState w) /\
    clientCount (g_gameState w') = clientCount (g_gameState w) /\
    exists evs1 evs2 : list Event,
      trace w' = (trace w ++ evs1 ++ evs2)%list /\
      (forall k sid, k <> i -> g_clientSockets w !! k = Some (Some sid) -> live w sid = true ->
         EvSend sid (say_line i cmd) ∈ evs1) /\
      (forall sid, g_clientSockets w !! i = Some (Some sid) ->
         EvSend sid (say_line i cmd) ∉ evs1) /\
      (forall e, e ∈ evs1 -> exists k sid,
         k <> i /\ g_clientSockets w !! k = Some (Some sid) /\
         (e = EvSend sid (say_line i cmd) \/ e = EvClose sid)) /\
      (forall k sid, g_clientSockets w !! k = Some (Some sid) -> live w sid = true ->
         EvSend sid (buildStateString_of (g_gameState w')) ∈ evs2) /\
      (forall e, e ∈ evs2 -> exists sid,
         e = EvSend sid (buildStateString_of (g_gameState w')) \/ e = EvClose sid)).
Proof.
  intros Hsh Hok Hi. pose proof Hsh as (Hs & Hlen & Hin).
  destruct (lookup_lt_is_Some_2 (players (g_gameState w)) i) as [p0 Hp0]; [by rewrite Hlen|].
  apply wp_bind. eapply wp_getPlayer; [exact Hp0|].
  unfold handleSay. apply wp_bind, wp_getRegistry. apply wp_bind.
  change (fun i0 : nat => let! sock := getSock i0 in
            match sock with
            | Some sid => when (negb (i0 =? i)%nat)
                            (try_except_socket_error (sock_send sid (say_line i cmd))
                                                     (drop_socket sid))
            | None => ret ()
            end)
    with (deliver_body (fun k => (k =? i)%nat) (say_line i cmd)).
  apply wp_deliver_loop; [done|]. intros w1 Hd1.
  pose proof Hd1 as (Hgs1 & _ & _ & _ & _ & _ & _ & evs1 & Htr1 & Hsound1 & Hcompl1).
  apply wp_bind. apply wp_refreshPlayerPositions; [by rewrite Hgs1|].
  assert (Hok2 : registry_ok (set_gs w1 (refreshed (g_gameState w1)))).
  { eapply delivered_registry_ok in Hd1; done. }
  apply wp_broadcastState; [done|]. intros w' Hd2.
  pose proof Hd2 as (Hgs2 & _ & _ & _ & _ & _ & _ & evs2 & Htr2 & Hsound2 & Hcompl2).
  cbn [set_gs g_gameState g_clientSockets trace] in Hgs2, Htr2, Hsound2, Hcompl2.
  rewrite Hgs1 in Hgs2, Hsound2, Hcompl2.
  rewrite Hgs2. split; [done|]. split; [done|].
  exists evs1, evs2. split; [by rewrite Htr2, Htr1, app_assoc|].
  split; [|split; [|split; [|split]]].
  - intros k sid Hne Hk Hl. apply (Hcompl1 k sid); try done.
    + by apply lookup_lt_Some in Hk.
    + by apply Nat.eqb_neq.
  - intros sid Hk He. destruct (Hsound1 _ He) as (k & sid' & _ & Hsk & Hk' & [[[= <-] _]|[? _]]);
      [|done].
    apply Nat.eqb_neq in Hsk. apply Hsk. by apply (Hok k i sid).
  - intros e He. destruct (Hsound1 _ He) as (k & sid & _ & Hsk & Hk & Hcase).
    exists k, sid. apply Nat.eqb_neq in Hsk. split; [done|]. split; [done|].
    destruct Hcase as [[-> _]|[-> _]]; auto.
  - intros k sid Hk Hl. destruct (delivered_live _ _ _ _ k sid Hd1 Hk Hl) as [Hk1 Hl1].
    apply (Hcompl2 k sid); try done.
    by apply lookup_lt_Some in Hk1.
  - intros e He. destruct (Hsound2 _ He) as (k & sid & _ & _ & _ & [[-> _]|[-> _]]); eauto.
Qed.

(** A says [hi] in [world_two]: B's session, which takes data, is sent
    [SAY Player0: hi] and never the line [Player0: hi]. *)
Lemma say_counterexample :
  let w' := snd (handleCommand 0%nat "SAY hi" world_two) in
  g_clientSockets world_two !! 1%nat = Some (Some 1%nat) /\ live world_two 1 = true /\
  (EvSend 1%nat "Player0: hi" ∉ trace w') /\
  (EvSend 1%nat "SAY Player0: hi" ∈ trace w').
Proof.
  cbv zeta. split; [reflexivity|]. split; [reflexivity|].
  split; apply (bool_decide_unpack _); vm_compute; exact I.
Qed.

(** C6, amended.  For a one-word text, [SAY <text>] from player [i]
    returns; every other session that takes data is sent the line
    [SAY Player<i>: <text>] (the SAY keyword stays on the wire), the sender
    is not; the players and the client counter are unchanged; and the
    state broadcast follows, to all sessions that take data, the sender
    included. *)
Theorem say_delivers_chat_line (w : World) (i : nat) (text : string) :
  shape_ok (g_gameState w) -> registry_ok w -> (i < MAX_CLIENTS)%nat ->
  no_space text = true ->
  exists w',
    handleCommand i ("SAY " +:+ text) w = (Ok tt, w') /\
    players (g_gameState w') = players (g_gameState w) /\
    clientCount (g_gameState w') = clientCount (g_gameState w) /\
    exists evs1 evs2 : list Event,
      trace w' = (trace w ++ evs1 ++ evs2)%list /\
      (forall k sid, k <> i -> g_clientSockets w !! k = Some (Some sid) -> live w sid = true ->
         EvSend sid (chat_line i text) ∈ evs1) /\
      (forall sid, g_clientSockets w !! i = Some (Some sid) ->
         EvSend sid (chat_line i text) ∉ evs1) /\
      (forall e, e ∈ evs1 -> exists k sid,
         k <> i /\ g_clientSockets w !! k = Some (Some sid) /\
         (e = EvSend sid (chat_line i text) \/ e = EvClose sid)) /\
      (forall k sid, g_clientSockets w !! k = Some (Some sid) -> live w sid = true ->
         EvSend sid (buildStateString_of (g_gameState w')) ∈ evs2) /\
      (forall e, e ∈ evs2 -> exists sid,
         e = EvSend sid (buildStateString_of (g_gameState w')) \/ e = EvClose sid).
Proof.
  intros Hsh Hok Hi Hs. rewrite handleCommand_say.
  pose proof (say_spec w i ("SAY " +:+ text) Hsh Hok Hi) as Hwp.
  apply wp_elim in Hwp as ([] & w' & Hrun & H).
  rewrite say_line_one_word in H by done.
  exists w'. split; [done|exact H].
Qed.

(** The chat theorem at work: A says [hi] in [world_two]. *)
Lemma say_delivers_chat_line_witness :
  shape_ok (g_gameState world_two) /\ registry_ok world_two /\ no_space "hi" = true /\
  exists w',
    handleCommand 0%nat "SAY hi" world_two = (Ok tt, w') /\
    players (g_gameState w') = players (g_gameState world_two).
Proof.
  assert (Hsh : shape_ok (g_gameState world_two)).
  { apply wf_shape_ok, wf_stateb_sound. vm_compute. reflexivity. }
  assert (Hok : registry_ok world_two) by (apply registry_okb_sound; vm_compute; reflexivity).
  assert (Hi : (0 < MAX_CLIENTS)%nat) by (unfold MAX_CLIENTS; lia).
  split; [exact Hsh|]. split; [exact Hok|]. split; [reflexivity|].
  destruct (say_delivers_chat_line world_two 0%nat "hi" Hsh Hok Hi eq_refl)
    as (w' & Hrun & Hp & _).
  exists w'. split; [exact Hrun|exact Hp].
Defined.

(** ** The two dispatchers *)

(** handleCommand runs the branch its dispatch selects. *)
Lemma handleCommand_dispatch i cmd :
  handleCommand i cmd = exec_selection i cmd (dispatch_impl cmd).
Proof.
  unfold handleCommand, exec_selection, dispatch_impl.
  destruct (String.prefix "MOVE" cmd).
  { unfold handleMove.
    destruct (str_in "UP" cmd); [done|]. destruct (str_in "DOWN" cmd); [done|].
    destruct (str_in "LEFT" cmd); [done|]. by destruct (str_in "RIGHT" cmd). }
  destruct (String.prefix "ATTACK" cmd); [done|].
  destruct (String.prefix "QUIT" cmd); [done|].
  destruct (String.prefix "JUMP" cmd).
  { unfold handleMove.
    destruct (str_in "UP" cmd); [done|]. destruct (str_in "DOWN" cmd); [done|].
    destruct (str_in "LEFT" cmd); [done|]. by destruct (str_in "RIGHT" cmd). }
  by destruct (String.prefix "SAY" cmd).
Qed.

(** The two dispatchers differ: on [MOVERIGHT] the code moves the player
    while strict tokenization finds no command; on [MOVE DOWN UP] the code
    goes up, tokenization down. *)
Lemma dispatch_differ :
  dispatch_impl "MOVERIGHT" = (Some KMove, Some RIGHT) /\
  dispatch_strict "MOVERIGHT" = (None, None) /\
  dispatch_impl "MOVE DOWN UP" = (Some KMove, Some UP) /\
  dispatch_strict "MOVE DOWN UP" = (Some KMove, Some DOWN) /\
  players (g_gameState (snd (handleCommand 0%nat "MOVERIGHT" world_two))) !! 0%nat
    = Some (Player.mk 0 1 100 true) /\
  players (g_gameState (snd (handleCommand_strict 0%nat "MOVERIGHT" world_two))) !! 0%nat
    = Some (Player.mk 0 0 100 true) /\
  ~ (forall i cmd w, dispatch_impl cmd = dispatch_strict cmd /\
                     handleCommand i cmd w = handleCommand_strict i cmd w).
Proof.
  repeat (split; [vm_compute; reflexivity|]).
  intros H. destruct (H 0%nat "MOVERIGHT" world_two) as [E _]. vm_compute in E. discriminate E.
Qed.

(** C7, amended.  On every line of the wire protocol ([MOVE <DIR>],
    [JUMP <DIR>], [ATTACK], [QUIT], [SAY <text>]) the implemented dispatch
    and strict tokenization select the same command and the same direction,
    so that handling the line either way gives the same result and the same
    world. *)
Theorem dispatch_refinement_on_protocol_lines (l : Line) (i : nat) (w : World) :
  dispatch_impl (line_text l) = dispatch_strict (line_text l) /\
  handleCommand i (line_text l) w = handleCommand_strict i (line_text l) w.
Proof.
  assert (Hsel : dispatch_impl (line_text l) = dispatch_strict (line_text l)).
  { destruct l as [jump d| | |text]; [by destruct jump, d|done|done|].
    reflexivity. }
  split; [done|]. unfold handleCommand_strict. by rewrite handleCommand_dispatch, Hsel.
Qed.

(** ** Frames: what a computation leaves untouched *)

Section Keeps.
Context {B : Type} (f : World -> B).

Lemma keeps_ret {A} (a : A) : keeps f (ret a).
Proof. done. Qed.

Lemma keeps_raise {A} e : keeps f (@raise A e).
Proof. done. Qed.

Lemma keeps_of_option {A} e (o : option A) : keeps f (of_option e o).
Proof. by destruct o. Qed.

Lemma keeps_bind {A C} (m : M A) (k : A -> M C) :
  keeps f m -> (forall a, keeps f (k a)) -> keeps f (bind m k).
Proof.
  intros Hm Hk w. unfold bind. specialize (Hm w).
  destruct (m w) as [[a|e] w1]; simpl in *; [|done].
  by rewrite Hk.
Qed.

Lemma keeps_when b (m : M unit) : keeps f m -> keeps f (when b m).
Proof. destruct b; [done|]. intros _. apply keeps_ret. Qed.

Lemma keeps_for_each {A} (l : list A) (body : A -> M unit) :
  (forall a, keeps f (body a)) -> keeps f (for_each l body).
Proof.
  intros Hb. induction l as [|a l IH]; simpl; [apply keeps_ret|].
  apply keeps_bind; [apply Hb|done].
Qed.

Lemma keeps_try {A} (m h : M A) :
  keeps f m -> keeps f h -> keeps f (try_except_socket_error m h).
Proof.
  intros Hm Hh w. unfold try_except_socket_error. specialize (Hm w).
  destruct (m w) as [[a|[]] w1]; simpl in *; try done.
  by rewrite Hh.
Qed.

End Keeps.

Lemma keeps_gs_count {A} (m : M A) : keeps g_gameState m -> keeps count_of m.
Proof. intros H w. unfold count_of. by rewrite H. Qed.

Lemma keeps_getRegistry {B} (f : World -> B) : keeps f getRegistry.
Proof. done. Qed.

Lemma keeps_getState {B} (f : World -> B) : keeps f getState.
Proof. done. Qed.

Lemma keeps_getSock {B} (f : World -> B) i : keeps f (getSock i).
Proof. apply keeps_bind; [done|]. intros r. apply keeps_of_option. Qed.

Lemma keeps_theSock {B} (f : World -> B) i : keeps f (theSock i).
Proof. apply keeps_bind; [apply keeps_getSock|]. intros o. apply keeps_of_option. Qed.

Lemma keeps_getPlayer {B} (f : World -> B) i : keeps f (getPlayer i).
Proof. apply keeps_bind; [done|]. intros r. apply keeps_of_option. Qed.

Lemma keeps_readGrid {B} (f : World -> B) r c : keeps f (readGrid r c).
Proof. apply keeps_bind; [done|]. intros s. apply keeps_of_option. Qed.

Lemma keeps_gs_setSock i v : keeps g_gameState (setSock i v).
Proof. intros w. unfold setSock, bind, getRegistry. by destruct (i <? _)%nat. Qed.

Lemma keeps_gs_sock_send sid data : keeps g_gameState (sock_send sid data).
Proof.
  intros w. unfold sock_send. destruct (sockets w !! sid) as [s|]; [|done].
  by destruct (peer_ok s && negb (closed s)).
Qed.

Lemma keeps_gs_sock_close sid : keeps g_gameState (sock_close sid).
Proof. intros w. rewrite sock_close_eq. apply closed_world_gs. Qed.

Lemma keeps_gs_drop_socket sid : keeps g_gameState (drop_socket sid).
Proof.
  apply keeps_bind; [apply keeps_gs_sock_close|]. intros _.
  apply keeps_bind; [apply keeps_getRegistry|]. intros r.
  apply keeps_bind; [apply keeps_of_option|]. intros k. apply keeps_gs_setSock.
Qed.

(** broadcastState never touches the game state: no player is deactivated
    and the client counter is not changed, whatever the sends do. *)
Lemma keeps_gs_broadcastState : keeps g_gameState broadcastState.
Proof.
  apply keeps_bind.
  { apply keeps_bind; [apply keeps_getState|]. intros s. apply keeps_ret. }
  intros str. apply keeps_bind; [apply keeps_getRegistry|]. intros r.
  apply keeps_for_each. intros k.
  apply keeps_bind; [apply keeps_getSock|]. intros [sid|]; [|apply keeps_ret].
  apply keeps_try; [apply keeps_gs_sock_send|apply keeps_gs_drop_socket].
Qed.

Lemma keeps_count_writeGrid r c v : keeps count_of (writeGrid r c v).
Proof.
  intros w. unfold writeGrid, bind, getState, of_option, count_of.
  by destruct (grid_set _ r c v).
Qed.

Lemma keeps_count_updPlayer i g : keeps count_of (updPlayer i g).
Proof.
  intros w. unfold updPlayer, bind, getState, of_option, count_of.
  by destruct (players _ !! i).
Qed.

Lemma keeps_count_refresh : keeps count_of refreshPlayerPositions.
Proof.
  apply keeps_bind.
  { apply keeps_for_each. intros r. apply keeps_for_each. intros c.
    apply keeps_bind; [apply keeps_readGrid|]. intros ch.
    apply keeps_when, keeps_count_writeGrid. }
  intros _. apply keeps_bind; [apply keeps_getState|]. intros s.
  apply keeps_for_each. intros i.
  apply keeps_bind; [apply keeps_getPlayer|]. intros p.
  apply keeps_when, keeps_count_writeGrid.
Qed.

Lemma keeps_count_cleanup i : keeps count_of (clientHandler_cleanup i).
Proof.
  apply keeps_bind; [apply keeps_count_updPlayer|]. intros _.
  apply keeps_bind; [apply keeps_getPlayer|]. intros p.
  apply keeps_bind; [apply keeps_count_writeGrid|]. intros _.
  apply keeps_bind; [apply keeps_gs_count, keeps_gs_setSock|]. intros _.
  apply keeps_bind; [apply keeps_count_refresh|]. intros _.
  apply keeps_gs_count, keeps_gs_broadcastState.
Qed.

(** C1 (defect).  The block clientHandler runs when its loop ends never
    changes clientCount.  After one connection is accepted and its handler
    runs, a transport error or a closed stream on the first read leaves the
    player inactive and the registry slot free but clientCount at 1, where
    a QUIT brings it back to 0. *)
Theorem cleanup_keeps_clientCount :
  (forall i w, clientCount (g_gameState (snd (clientHandler_cleanup i w)))
               = clientCount (g_gameState w)) /\
  clientCount (g_gameState world_one_accepted) = 1 /\
  (let w := snd (clientHandler 0 [RecvFails] world_one_accepted) in
   is_active (g_gameState w) 0 = false /\
   g_clientSockets w = [None; None; None; None] /\
   clientCount (g_gameState w) = 1) /\
  (let w := snd (clientHandler 0 [Recv ""] world_one_accepted) in
   is_active (g_gameState w) 0 = false /\
   g_clientSockets w = [None; None; None; None] /\
   clientCount (g_gameState w) = 1) /\
  (let w := snd (clientHandler 0 [Recv "QUIT"] world_one_accepted) in
   is_active (g_gameState w) 0 = false /\
   g_clientSockets w = [None; None; None; None] /\
   clientCount (g_gameState w) = 0).
Proof.
  split; [intros i w; apply (keeps_count_cleanup i w)|].
  repeat split; vm_compute; reflexivity.
Qed.

(** C2 (defect).  broadcastState never changes the game state.  With the
    client of player B gone, the broadcast that follows a move of player A
    still reaches A, closes B's socket and frees B's registry slot, but
    player B stays active and clientCount stays 2; when B's handler then
    runs its last block, B becomes inactive and clientCount is still 2. *)
Theorem broadcast_failure_keeps_count :
  (forall w, g_gameState (snd (broadcastState w)) = g_gameState w) /\
  live world_b_gone 1 = false /\
  (let w := run [Command 0%nat "MOVE RIGHT"] world_b_gone in
   EvSend 0%nat (buildStateString_of (g_gameState w)) ∈ trace w /\
   g_clientSockets w = [Some 0%nat; None; None; None] /\
   is_closedb w 1 = true /\
   is_active (g_gameState w) 1 = true /\
   clientCount (g_gameState w) = 2) /\
  (let w := run [Command 0%nat "MOVE RIGHT"; Cleanup 1%nat] world_b_gone in
   is_active (g_gameState w) 1 = false /\
   clientCount (g_gameState w) = 2).
Proof.
  split; [apply keeps_gs_broadcastState|].
  split; [reflexivity|]. split.
  - cbv zeta. split; [apply (bool_decide_unpack _); vm_compute; exact I|].
    repeat split; vm_compute; reflexivity.
  - repeat split; vm_compute; reflexivity.
Qed.

(** ** ATTACK *)






Lemma set_gs_id w : set_gs w (g_gameState w) = w.
Proof. by destruct w. Qed.





Lemma closed_world_Some w sid s :
  sockets w !! sid = Some s ->
  closed_world w sid =
  mkWorld (g_gameState w) (g_clientSockets w)
          (<[sid := mkSocket (peer_ok s) true]> (sockets w)) (trace w ++ [EvClose sid]).
Proof. unfold closed_world. by intros ->. Qed.
















(** ** Two remarks on the sessions *)

(** X4.  What broadcastState does get right: with a registry that names
    each socket once it returns, leaves the game state alone, sends the one
    rendered state to every registered socket that takes data, and closes
    and unregisters every registered socket that does not. *)
Lemma broadcast_reaches_live_sessions (w : World) :
  registry_ok w ->
  exists w',
    broadcastState w = (Ok tt, w') /\
    g_gameState w' = g_gameState w /\
    broadcast_done w w' /\
    (forall k sid, g_clientSockets w !! k = Some (Some sid) -> live w sid = true ->
       g_clientSockets w' !! k = Some (Some sid) /\ live w' sid = true) /\
    (forall k sid, g_clientSockets w !! k = Some (Some sid) -> live w sid = false ->
       g_clientSockets w' !! k = Some None /\ is_closedb w' sid = true).
Proof.
  intros Hok.
  assert (Hwp : wp broadcastState w (fun _ w' =>
            delivered (fun _ => false) (buildStateString_of (g_gameState w)) w w'))
    by (by apply wp_broadcastState).
  apply wp_elim in Hwp as ([] & w' & Hrun & Hd).
  pose proof Hd as (Hgs & _).
  exists w'. split; [done|]. split; [done|]. split; [|split].
  - apply (delivered_broadcast_done w (g_gameState w')); [done|].
    rewrite Hgs, set_gs_id. exact Hd.
  - intros k sid Hk Hl. by eapply delivered_live.
  - intros k sid Hk Hl. by eapply delivered_dead.
Qed.

(** Why the attack theorem asks that a player about to be eliminated still
    has its socket:
    once a failed broadcast has freed the slot of the still active player
    B, the ATTACK that brings B to 0 hp raises AttributeError on
    [g_clientSockets[i].sendall], leaving B active at 0 hp. *)
Lemma attack_without_session_raises :
  g_clientSockets world_b_gone_weak !! 1%nat = Some None /\
  players (g_gameState world_b_gone_weak) !! 1%nat = Some (Player.mk 1 0 10 true) /\
  fst (handleCommand 0%nat "ATTACK" world_b_gone_weak) = Raise AttributeError /\
  players (g_gameState (snd (handleCommand 0%nat "ATTACK" world_b_gone_weak))) !! 1%nat
    = Some (Player.mk 1 0 0 true).
Proof. repeat split; vm_compute; reflexivity. Qed.

(** * Further properties of the code *)

(** ** refreshPlayerPositions and buildStateString *)

Lemma last_at_max ps : forall i r c k j p,
  last_at ps i r c = Some k -> ps !! j = Some p ->
  drawn p = true -> stands_at p r c = true -> (i + j <= k)%nat.
Proof.
  induction ps as [|q ps IH]; intros i r c k j p; simpl; [done|].
  destruct (last_at ps (S i) r c) as [k'|] eqn:E.
  - intros [= <-] Hj Hd Hat. destruct j as [|j].
    + apply last_at_Some in E as (j' & _ & -> & _). lia.
    + simpl in Hj. pose proof (IH (S i) r c k' j p E Hj Hd Hat). lia.
  - destruct (drawn q && stands_at q r c) eqn:E2; [|done]. intros [= <-] Hj Hd Hat.
    destruct j as [|j]; [lia|]. simpl in Hj.
    by rewrite (last_at_None ps (S i) r c j p E Hj Hd) in Hat.
Qed.

(** X1.  On a state of the right shape (5x5 grid, four players, every
    drawn player inside the grid) refreshPlayerPositions returns and
    changes the grid only.  A cell on which drawn players (active, hp > 0)
    stand shows the marker of the one with the highest index; any other
    cell keeps an obstacle or a pickup and is empty otherwise. *)
Theorem refresh_draws_players (w : World) :
  shape_ok (g_gameState w) ->
  exists g',
    refreshPlayerPositions w
      = (Ok tt, set_gs w (mkGameState g' (players (g_gameState w))
                                      (clientCount (g_gameState w)))) /\
    grid_shape g' /\
    (forall r c k p,
       in_grid r c -> players (g_gameState w) !! k = Some p ->
       drawn p = true -> Player.x p = r -> Player.y p = c ->
       (forall k' p', (k < k')%nat -> players (g_gameState w) !! k' = Some p' ->
                      drawn p' = true -> ~ (Player.x p' = r /\ Player.y p' = c)) ->
       grid_get g' r c = Some (marker k)) /\
    (forall r c ch,
       in_grid r c -> grid_get (grid (g_gameState w)) r c = Some ch ->
       (forall k p, players (g_gameState w) !! k = Some p -> drawn p = true ->
                    ~ (Player.x p = r /\ Player.y p = c)) ->
       grid_get g' r c =
         Some (if Ascii.eqb ch "#" || Ascii.eqb ch "+" then ch else "."%char)).
Proof.
  intros Hsh. pose proof Hsh as (Hs & Hlen & Hin).
  exists (refresh_grid (g_gameState w)). split; [|split; [|split]].
  - assert (Hwp : wp refreshPlayerPositions w
              (fun _ w' => w' = set_gs w (refreshed (g_gameState w))))
      by (by apply wp_refreshPlayerPositions).
    apply wp_elim in Hwp as ([] & w' & Hrun & ->). exact Hrun.
  - by apply refresh_grid_shape.
  - intros r c k p Hrc Hk Hd Hx Hy Hmax. rewrite refresh_grid_cell by done.
    assert (Hat : stands_at p r c = true) by by apply stands_at_spec.
    destruct (last_at (players (g_gameState w)) 0 r c) as [k'|] eqn:E.
    + pose proof (last_at_max _ _ _ _ _ k p E Hk Hd Hat) as Hle. simpl in Hle.
      apply last_at_Some in E as (j & q & -> & Hq & Hdq & Hatq). simpl in *.
      destruct (decide (k = j)) as [->|Hne]; [done|].
      exfalso. apply (Hmax j q); [lia|done..|]. by apply stands_at_spec.
    + by rewrite (last_at_None _ _ _ _ k p E Hk Hd) in Hat.
  - intros r c ch Hrc Hch Hnone. rewrite refresh_grid_cell by done.
    destruct (last_at (players (g_gameState w)) 0 r c) as [k'|] eqn:E.
    + apply last_at_Some in E as (j & q & -> & Hq & Hdq & Hatq).
      exfalso. apply (Hnone j q Hq Hdq). by apply stands_at_spec.
    + rewrite Hch. simpl. f_equal. unfold clear_cell.
      by destruct (Ascii.eqb ch "#"), (Ascii.eqb ch "+").
Qed.

(** The refresh theorem at work on [world_two]. *)
Lemma refresh_draws_players_witness :
  shape_ok (g_gameState world_two) /\
  exists g',
    refreshPlayerPositions world_two
      = (Ok tt, set_gs world_two (mkGameState g' (players (g_gameState world_two))
                                              (clientCount (g_gameState world_two)))) /\
    grid_shape g'.
Proof.
  assert (Hsh : shape_ok (g_gameState world_two)).
  { apply wf_shape_ok, wf_stateb_sound. vm_compute. reflexivity. }
  split; [exact Hsh|].
  destruct (refresh_draws_players world_two Hsh) as (g' & Hrun & Hs & _).
  exists g'. split; [exact Hrun|exact Hs].
Defined.

Lemma refreshed_shape_ok s : shape_ok s -> shape_ok (refreshed s).
Proof.
  intros (Hs & Hlen & Hin). split; [by apply refresh_grid_shape|]. by split.
Qed.

Lemma refreshed_idem s : shape_ok s -> refreshed (refreshed s) = refreshed s.
Proof.
  intros Hsh. pose proof (refreshed_shape_ok s Hsh) as Hsh'.
  pose proof Hsh as (Hs & Hlen & Hin).
  assert (refresh_grid (refreshed s) = refresh_grid s) as Hg;
    [|unfold refreshed at 1; by rewrite Hg].
  apply grid_ext; [by apply refresh_grid_shape, refresh_grid_shape
                  |by apply refresh_grid_shape|].
  intros r c Hrc. rewrite (refresh_grid_cell (refreshed s)) by done.
  cbn [refreshed players grid]. rewrite (refresh_grid_cell s) by done.
  destruct (last_at (players s) 0 r c) as [k|]; [done|].
  destruct (grid_get (grid s) r c) as [ch|]; [|done]. simpl. f_equal.
  apply clear_cell_id, clear_cell_terrain.
Qed.

(** X2.  refreshPlayerPositions is idempotent: on a state of the right
    shape, running it a second time returns and changes nothing. *)
Theorem refresh_twice (w : World) :
  shape_ok (g_gameState w) ->
  exists w',
    refreshPlayerPositions w = (Ok tt, w') /\
    refreshPlayerPositions w' = (Ok tt, w').
Proof.
  intros Hsh.
  assert (Hwp : wp refreshPlayerPositions w
            (fun _ w' => w' = set_gs w (refreshed (g_gameState w))))
    by (by apply wp_refreshPlayerPositions).
  apply wp_elim in Hwp as ([] & w' & Hrun & ->).
  eexists. split; [exact Hrun|].
  assert (Hwp : wp refreshPlayerPositions (set_gs w (refreshed (g_gameState w)))
            (fun _ w' => w' = set_gs w (refreshed (g_gameState w)))).
  { apply wp_refreshPlayerPositions; [by apply refreshed_shape_ok|].
    cbn [set_gs g_gameState]. rewrite refreshed_idem by done. done. }
  apply wp_elim in Hwp as ([] & w' & Hrun' & ->). exact Hrun'.
Qed.

(** The idempotence theorem at work on [world_two]. *)
Lemma refresh_twice_witness :
  shape_ok (g_gameState world_two) /\
  exists w',
    refreshPlayerPositions world_two = (Ok tt, w') /\
    refreshPlayerPositions w' = (Ok tt, w').
Proof.
  assert (Hsh : shape_ok (g_gameState world_two)).
  { apply wf_shape_ok, wf_stateb_sound. vm_compute. reflexivity. }
  split; [exact Hsh|]. exact (refresh_twice world_two Hsh).
Defined.

Lemma imap_agree {A B} (l l' : list A) : forall (f : nat -> A -> B),
  length l = length l' ->
  (forall i a a', l !! i = Some a -> l' !! i = Some a' -> f i a = f i a') ->
  imap f l = imap f l'.
Proof.
  revert l'. induction l as [|a l IH]; intros [|a' l'] f Hlen Hf; try done.
  simpl. f_equal.
  - by apply (Hf 0%nat).
  - apply IH; [simpl in Hlen; lia|]. intros i b b' Hb Hb'. by apply (Hf (S i)).
Qed.

(** X3.  buildStateString shows the grid and the active players only: two
    states with the same grid, the same active flags and the same
    dictionaries for the active players give the same string, whatever hp
    and coordinates the inactive players hold and whatever clientCount is. *)
Theorem state_string_hides_inactive (s s' : GameState) :
  grid s = grid s' -> length (players s) = length (players s') ->
  (forall i p p', players s !! i = Some p -> players s' !! i = Some p' ->
     Player.active p = Player.active p' /\ (Player.active p = true -> p = p')) ->
  buildStateString_of s = buildStateString_of s'.
Proof.
  intros Hg Hlen Hp. unfold buildStateString_of. rewrite Hg. do 6 f_equal.
  apply imap_agree; [done|]. intros i p p' Hi Hi'.
  destruct (Hp i p p' Hi Hi') as [Ha Heq]. rewrite <- Ha.
  destruct (Player.active p); [by rewrite Heq|done].
Qed.

(** The theorem at work: a player who quit, with stale hp, is not shown. *)
Lemma state_string_hides_inactive_witness :
  buildStateString_of
    (mkGameState (grid (g_gameState world_two))
                 [Player.mk 0 0 100 true; Player.mk 1 0 100 true;
                  Player.mk (-1) (-1) 100 false; Player.mk (-1) (-1) 100 false] 2)
  = buildStateString_of
    (mkGameState (grid (g_gameState world_two))
                 [Player.mk 0 0 100 true; Player.mk 1 0 100 true;
                  Player.mk 3 3 45 false; Player.mk (-1) (-1) 0 false] 4).
Proof.
  apply state_string_hides_inactive; [reflexivity|reflexivity|].
  intros i p p' Hi Hi'.
  destruct i as [|[|[|[|i]]]]; simpl in Hi, Hi'; try discriminate;
    injection Hi as <-; injection Hi' as <-; split; (reflexivity || discriminate).
Defined.

(** The broadcast lemma at work: in [world_b_gone] A's session takes the
    state, B's does not. *)
Lemma broadcast_reaches_live_sessions_witness :
  registry_ok world_b_gone /\ live world_b_gone 0 = true /\ live world_b_gone 1 = false /\
  exists w',
    broadcastState world_b_gone = (Ok tt, w') /\
    g_clientSockets w' !! 0%nat = Some (Some 0%nat) /\
    g_clientSockets w' !! 1%nat = Some None /\
    is_closedb w' 1 = true.
Proof.
  assert (Hok : registry_ok world_b_gone)
    by (apply registry_okb_sound; vm_compute; reflexivity).
  split; [exact Hok|]. split; [reflexivity|]. split; [reflexivity|].
  destruct (broadcast_reaches_live_sessions world_b_gone Hok)
    as (w' & Hrun & _ & _ & Hlive & Hdead).
  exists w'. split; [exact Hrun|].
  destruct (Hdead 1%nat 1%nat eq_refl eq_refl) as [H1 Hc].
  destruct (Hlive 0%nat 0%nat eq_refl eq_refl) as [H0 _].
  split; [exact H0|]. split; [exact H1|exact Hc].
Defined.

(** ** Lines no branch takes *)

Lemma handleCommand_invalid i cmd :
  is_invalid_line cmd = true ->
  handleCommand i cmd = (let! p := getPlayer i in reply_invalid i).
Proof.
  intros H. rewrite handleCommand_dispatch. unfold is_invalid_line in H.
  unfold exec_selection. destruct (dispatch_impl cmd) as [[[]|] [d|]]; done.
Qed.

(** X5.  A line that starts with none of MOVE, ATTACK, QUIT, JUMP, SAY, or
    that starts with MOVE or JUMP and names no direction, is answered with
    [Invalid command] on the sender's socket and nothing else happens: no
    state change, no broadcast.  When the sender's socket takes no data
    handleCommand raises socket.error (which ends the handler's loop); when
    the sender's slot is already free it raises AttributeError; in both
    cases the world is untouched. *)
Theorem invalid_line_reply (w : World) (i : nat) (p : Player.t) (cmd : string) :
  is_invalid_line cmd = true ->
  players (g_gameState w) !! i = Some p ->
  handleCommand i cmd w =
  match g_clientSockets w !! i with
  | Some (Some sid) =>
      if live w sid then (Ok tt, add_event w (EvSend sid "Invalid command"))
      else (Raise SocketError, w)
  | Some None => (Raise AttributeError, w)
  | None => (Raise IndexError, w)
  end.
Proof.
  intros Hcmd Hi. rewrite handleCommand_invalid by done.
  unfold bind at 1, getPlayer, bind at 1, getState, of_option, ret. rewrite Hi.
  unfold reply_invalid, theSock, getSock, bind, getRegistry, of_option, ret, raise.
  destruct (g_clientSockets w !! i) as [[sid|]|]; [|done|done].
  destruct (live w sid) eqn:El.
  - by rewrite sock_send_live.
  - by rewrite sock_send_dead.
Qed.

(** The theorem at work: A sends [DANCE], then [MOVE SIDEWAYS]. *)
Lemma invalid_line_reply_witness :
  is_invalid_line "DANCE" = true /\ is_invalid_line "MOVE SIDEWAYS" = true /\
  handleCommand 0%nat "DANCE" world_two
    = (Ok tt, add_event world_two (EvSend 0%nat "Invalid command")) /\
  handleCommand 0%nat "MOVE SIDEWAYS" world_two
    = (Ok tt, add_event world_two (EvSend 0%nat "Invalid command")).
Proof.
  split; [reflexivity|]. split; [reflexivity|]. split.
  - exact (invalid_line_reply world_two 0%nat (Player.mk 0 0 100 true) "DANCE"
             eq_refl eq_refl).
  - exact (invalid_line_reply world_two 0%nat (Player.mk 0 0 100 true) "MOVE SIDEWAYS"
             eq_refl eq_refl).
Defined.

(** ** The accept loop *)

Lemma find_slot_seq r slot : forall n k,
  (k <= slot < k + n)%nat ->
  r !! slot = Some None ->
  (forall j, (k <= j < slot)%nat -> exists sid, r !! j = Some (Some sid)) ->
  find_slot r (seq k n) = Ok (Some slot).
Proof.
  induction n as [|n IH]; intros k Hk Hslot Hlow; [lia|]. simpl.
  destruct (decide (k = slot)) as [->|Hne].
  - by rewrite Hslot.
  - destruct (Hlow k) as [sid ->]; [lia|].
    apply IH; [lia|done|]. intros j Hj. apply Hlow. lia.
Qed.

Lemma find_slot_none r : forall n k,
  (forall j, (k <= j < k + n)%nat -> exists sid, r !! j = Some (Some sid)) ->
  find_slot r (seq k n) = Ok None.
Proof.
  induction n as [|n IH]; intros k Hall; [done|]. simpl.
  destruct (Hall k) as [sid ->]; [lia|].
  apply IH. intros j Hj. apply Hall. lia.
Qed.

Lemma new_socket_lookup w peer :
  sockets (with_new_socket w peer) !! length (sockets w) = Some (mkSocket peer false).
Proof. simpl. rewrite lookup_app_r by lia. by rewrite Nat.sub_diag. Qed.

Lemma insert_last {A} (l : list A) (x y : A) :
  <[length l := y]> (l ++ [x])%list = (l ++ [y])%list.
Proof.
  induction l as [|a l IH]; [done|]. simpl. by rewrite IH.
Qed.

(** X6.  When clientCount has reached MAX_CLIENTS the accept loop gives the
    new connection no slot: it sends [Server is full.], closes the socket
    and leaves the game state and the registry alone.  When that send
    fails, socket.error leaves the block with the socket still open (the
    loop of main has no handler for it). *)
Theorem accept_rejects_when_full (w : World) (peer : bool) :
  Z.of_nat MAX_CLIENTS <= clientCount (g_gameState w) ->
  main_accept peer w =
  if peer
  then (Ok None,
        mkWorld (g_gameState w) (g_clientSockets w)
                (sockets w ++ [mkSocket true true])
                (trace w ++ [EvSend (length (sockets w)) "Server is full.";
                             EvClose (length (sockets w))]))
  else (Raise SocketError, with_new_socket w false).
Proof.
  intros Hfull. unfold main_accept. fold (with_new_socket w peer).
  change (clientCount (g_gameState (with_new_socket w peer)))
    with (clientCount (g_gameState w)).
  destruct (Z.leb_spec (Z.of_nat MAX_CLIENTS) (clientCount (g_gameState w))); [|lia].
  unfold bind at 1. destruct peer.
  - rewrite sock_send_live by (unfold live; by rewrite new_socket_lookup).
    unfold bind. rewrite sock_close_eq.
    erewrite closed_world_Some by (exact (new_socket_lookup w true)).
    unfold ret. f_equal. cbn [add_event with_new_socket g_gameState g_clientSockets sockets trace peer_ok].
    by rewrite insert_last, <- app_assoc.
  - by rewrite sock_send_dead by (unfold live; by rewrite new_socket_lookup).
Qed.

(** The theorem at work: a fifth connection when four clients are counted. *)
Lemma accept_rejects_when_full_witness :
  let w := set_gs world_two (mkGameState (grid (g_gameState world_two))
                                         (players (g_gameState world_two)) 4) in
  Z.of_nat MAX_CLIENTS <= clientCount (g_gameState w) /\
  fst (main_accept true w) = Ok None /\
  g_clientSockets (snd (main_accept true w)) = g_clientSockets w /\
  fst (main_accept false w) = Raise SocketError.
Proof.
  cbv zeta.
  set (w := set_gs world_two (mkGameState (grid (g_gameState world_two))
                                          (players (g_gameState world_two)) 4)).
  assert (H : Z.of_nat MAX_CLIENTS <= clientCount (g_gameState w)) by (vm_compute; discriminate).
  split; [exact H|].
  rewrite (accept_rejects_when_full w true H), (accept_rejects_when_full w false H).
  repeat split.
Defined.

(** X7.  While clientCount is below MAX_CLIENTS the accept loop gives the
    new connection the lowest free slot: the socket is registered there,
    clientCount goes up by one, nothing is sent and nothing else changes. *)
Theorem accept_grants_lowest_free_slot (w : World) (peer : bool) (slot : nat) :
  clientCount (g_gameState w) < Z.of_nat MAX_CLIENTS ->
  (slot < MAX_CLIENTS)%nat ->
  g_clientSockets w !! slot = Some None ->
  (forall j, (j < slot)%nat -> exists sid, g_clientSockets w !! j = Some (Some sid)) ->
  main_accept peer w =
  (Ok (Some slot),
   mkWorld (mkGameState (grid (g_gameState w)) (players (g_gameState w))
                        (clientCount (g_gameState w) + 1))
           (<[slot := Some (length (sockets w))]> (g_clientSockets w))
           (sockets w ++ [mkSocket peer false])
           (trace w)).
Proof.
  intros Hcount Hslot Hfree Hlow. unfold main_accept. fold (with_new_socket w peer).
  change (clientCount (g_gameState (with_new_socket w peer)))
    with (clientCount (g_gameState w)).
  destruct (Z.leb_spec (Z.of_nat MAX_CLIENTS) (clientCount (g_gameState w))); [lia|].
  unfold bind at 1, getRegistry.
  change (g_clientSockets (with_new_socket w peer)) with (g_clientSockets w).
  rewrite (find_slot_seq _ slot); [|lia|done|intros j Hj; apply Hlow; lia].
  unfold bind at 1, setSock, bind at 1, getRegistry.
  change (g_clientSockets (with_new_socket w peer)) with (g_clientSockets w).
  apply lookup_lt_Some in Hfree as Hlt.
  destruct (Nat.ltb_spec slot (length (g_clientSockets w))); [|lia].
  reflexivity.
Qed.

(** The theorem at work: a third connection in [world_two] gets slot 2. *)
Lemma accept_grants_lowest_free_slot_witness :
  clientCount (g_gameState world_two) < Z.of_nat MAX_CLIENTS /\
  g_clientSockets world_two = [Some 0%nat; Some 1%nat; None; None] /\
  fst (main_accept true world_two) = Ok (Some 2%nat) /\
  g_clientSockets (snd (main_accept true world_two))
    = [Some 0%nat; Some 1%nat; Some 2%nat; None].
Proof.
  assert (Hc : clientCount (g_gameState world_two) < Z.of_nat MAX_CLIENTS)
    by (vm_compute; reflexivity).
  assert (Hs : (2 < MAX_CLIENTS)%nat) by (unfold MAX_CLIENTS; lia).
  assert (Hlow : forall j, (j < 2)%nat ->
            exists sid, g_clientSockets world_two !! j = Some (Some sid)).
  { intros j Hj. destruct j as [|[|j]]; [by exists 0%nat|by exists 1%nat|lia]. }
  split; [exact Hc|]. split; [reflexivity|].
  rewrite (accept_grants_lowest_free_slot world_two true 2 Hc Hs eq_refl Hlow).
  split; reflexivity.
Defined.

(** ** The handler's loop *)



(** ** Chat, end to end *)

Lemma str_app_empty_r (s : string) : s +:+ "" = s.
Proof.
  induction s as [|c s IH]; [done|].
  change (String c (s +:+ "") = String c s). by rewrite IH.
Qed.

Lemma str_app_snoc (l : list ascii) (c : ascii) (t : string) :
  string_of_list_ascii (l ++ [c]) +:+ t = string_of_list_ascii l +:+ String c t.
Proof.
  induction l as [|a l IH]; [done|].
  change (String a (string_of_list_ascii (l ++ [c]) +:+ t)
          = String a (string_of_list_ascii l +:+ String c t)).
  by rewrite IH.
Qed.

Lemma concat_empty_cons (x : string) (l : list string) :
  String.concat "" (x :: l) = x +:+ String.concat "" l.
Proof.
  destruct l as [|y l]; [|reflexivity].
  change (x = x +:+ ""). by rewrite str_app_empty_r.
Qed.

Lemma concat_split_go (s : string) : forall cur,
  String.concat "" (split_go " " cur s)
  = string_of_list_ascii (rev cur) +:+ remove_spaces s.
Proof.
  induction s as [|c s IH]; intros cur.
  - simpl. by rewrite str_app_empty_r.
  - cbn [split_go remove_spaces]. destruct (Ascii.eqb c " ").
    + by rewrite concat_empty_cons, IH.
    + rewrite IH. cbn [rev]. apply str_app_snoc.
Qed.

Lemma concat_tail_split_go (s : string) : forall cur,
  String.concat "" (tail (split_go " " cur s)) = remove_spaces (after_space s).
Proof.
  induction s as [|c s IH]; intros cur; [done|].
  cbn [split_go after_space]. destruct (Ascii.eqb c " ").
  - cbn [tail]. by rewrite concat_split_go.
  - apply IH.
Qed.

(** X9.  The line SAY sends is [SAY Player<i>: ] followed by what the
    command holds behind its first space, with every space removed: the
    words of a chat message reach the other players run together. *)
Theorem say_line_removes_spaces (i : nat) (cmd : string) :
  say_line i cmd = "SAY Player" +:+ pretty i +:+ ": " +:+ remove_spaces (after_space cmd).
Proof. unfold say_line, py_split. by rewrite concat_tail_split_go. Qed.

(** X10.  What the client prints: a chat line appears without the SAY
    keyword, as [Player<i>: <text without spaces>]; the state string, the
    READY line, the quit message, the death notice, the refusal of a full
    server and the reply to an invalid command are printed as sent. *)
Theorem client_prints_server_messages (i : nat) (cmd : string) (s : GameState) :
  client_display (say_line i cmd)
    = "Player" +:+ pretty i +:+ ": " +:+ remove_spaces (after_space cmd) /\
  client_display (buildStateString_of s) = buildStateString_of s /\
  client_display ("READY" +:+ nl) = "READY" +:+ nl /\
  client_display (quit_message i) = quit_message i /\
  client_display (death_notice i) = death_notice i /\
  client_display "Server is full." = "Server is full." /\
  client_display "Invalid command" = "Invalid command".
Proof.
  split; [|by repeat split].
  unfold say_line, py_split. by rewrite concat_tail_split_go.
Qed.




(** ** A join on a start cell that is taken *)

(** X12.  A join does not look at who stands on the start cell: when
    another active player is at (i, 0) as the handler of slot [i] enters
    the game, the join goes through and leaves two active players on one
    cell. *)
Theorem join_on_taken_start_cell (w : World) (i sid k : nat) (q : Player.t) :
  shape_ok (g_gameState w) -> registry_ok w ->
  (i < MAX_CLIENTS)%nat ->
  g_clientSockets w !! i = Some (Some sid) -> live w sid = true ->
  k <> i -> players (g_gameState w) !! k = Some q -> Player.active q = true ->
  (Player.x q, Player.y q) = (Z.of_nat i, 0) ->
  exists w',
    clientHandler_join i w = (Ok tt, w') /\
    players (g_gameState w') !! i = Some (Player.mk (Z.of_nat i) 0 100 true) /\
    players (g_gameState w') !! k = Some q /\
    ~ players_safe (g_gameState w').
Proof.
  intros Hsh Hok Hi Hreg Hlive Hk Hq Ha Hpos.
  destruct (join_spec w i sid Hsh Hok Hi Hreg Hlive) as (w' & Hrun & Hpi & Hoth & _).
  exists w'. split; [done|]. split; [done|].
  assert (Hq' : players (g_gameState w') !! k = Some q) by by rewrite Hoth.
  split; [done|]. intros Hsafe.
  destruct (Hsafe i _ Hpi eq_refl) as (_ & _ & Halone).
  by apply (Halone k q).
Qed.

(** The theorem at work: A has quit, B has moved up to (0,0), and a new
    client has been given slot 0. *)
Lemma join_on_taken_start_cell_witness :
  shape_ok (g_gameState world_start_taken) /\ registry_ok world_start_taken /\
  g_clientSockets world_start_taken !! 0%nat = Some (Some 2%nat) /\
  players (g_gameState world_start_taken) !! 1%nat = Some (Player.mk 0 0 100 true) /\
  exists w', clientHandler_join 0 world_start_taken = (Ok tt, w') /\
             ~ players_safe (g_gameState w').
Proof.
  assert (Hsh : shape_ok (g_gameState world_start_taken)).
  { apply wf_shape_ok, wf_stateb_sound. vm_compute. reflexivity. }
  assert (Hok : registry_ok world_start_taken).
  { apply registry_okb_sound. vm_compute. reflexivity. }
  assert (Hreg : g_clientSockets world_start_taken !! 0%nat = Some (Some 2%nat))
    by (vm_compute; reflexivity).
  assert (Hq : players (g_gameState world_start_taken) !! 1%nat = Some (Player.mk 0 0 100 true))
    by (vm_compute; reflexivity).
  split; [exact Hsh|]. split; [exact Hok|]. split; [exact Hreg|]. split; [exact Hq|].
  destruct (join_on_taken_start_cell world_start_taken 0 2 1 (Player.mk 0 0 100 true)
              Hsh Hok) as (w' & Hrun & _ & _ & Hns);
    [unfold MAX_CLIENTS; lia | exact Hreg | vm_compute; reflexivity | lia
    | exact Hq | reflexivity | reflexivity |].
  exists w'. split; [exact Hrun|exact Hns].
Defined.

(** ** QUIT *)

Lemma handleCommand_quit i cmd :
  String.prefix "QUIT" cmd = true ->
  handleCommand i cmd = (let! p := getPlayer i in handleQuit i (Player.x p) (Player.y p)).
Proof.
  intros H. unfold handleCommand. destruct cmd as [|b t]; [done|].
  assert (Hb : b = "Q"%char).
  { rewrite prefix_cons in H. by destruct (ascii_dec "Q" b). }
  subst b.
  change (String.prefix "MOVE" (String "Q" t)) with false.
  change (String.prefix "ATTACK" (String "Q" t)) with false.
  cbv iota. by rewrite H.
Qed.

Lemma add_events_nil w : add_events w [] = w.
Proof. destruct w. unfold add_events. simpl. by rewrite app_nil_r. Qed.

Lemma add_events_cons w e evs :
  add_events (add_event w e) evs = add_events w (e :: evs).
Proof. unfold add_events, add_event. simpl. by rewrite <- app_assoc. Qed.

Lemma quit_events_sockets w w' msg regs :
  sockets w' = sockets w -> quit_events w' msg regs = quit_events w msg regs.
Proof.
  intros Hs. induction regs as [|[sid|] regs IH]; simpl; [done| |done].
  unfold live. rewrite Hs. by rewrite IH.
Qed.

(** The loop sends until a socket takes no data, and changes nothing but
    the trace. *)
Lemma quit_loop_run (i : nat) (n : nat) : forall (k : nat) (w : World),
  (k + n <= length (g_clientSockets w))%nat ->
  exists res,
    for_each (seq k n) (quit_loop_body i) w
    = (res, add_events w (quit_events w (quit_message i)
                            (take n (drop k (g_clientSockets w))))) /\
    (res = Ok tt \/ res = Raise SocketError).
Proof.
  induction n as [|n IH]; intros k w Hk.
  - exists (Ok tt). simpl. rewrite add_events_nil. by split; [|left].
  - destruct (lookup_lt_is_Some_2 (g_clientSockets w) k) as [o Ho]; [lia|].
    rewrite (drop_S _ _ _ Ho). cbn [seq for_each take].
    unfold bind at 1. unfold quit_loop_body at 1. unfold bind at 1.
    unfold getSock, bind, getRegistry. rewrite Ho. cbn [of_option ret].
    destruct o as [sid|].
    + cbn [quit_events]. destruct (live w sid) eqn:Hl.
      * rewrite sock_send_live by done.
        destruct (IH (S k) (add_event w (EvSend sid (quit_message i)))) as (res & Hrun & Hres).
        { simpl. lia. }
        exists res. split; [|done]. rewrite Hrun. f_equal.
        rewrite add_events_cons. cbn [add_event g_clientSockets].
        by rewrite (quit_events_sockets w).
      * rewrite sock_send_dead by done. exists (Raise SocketError).
        rewrite add_events_nil. by split; [|right].
    + cbn [quit_events].
      destruct (IH (S k) w) as (res & Hrun & Hres); [lia|].
      exists res. by split.
Qed.

Lemma wp_quit_loop (i : nat) w (Q : unit -> World -> Prop) :
  Q tt (add_events w (quit_events w (quit_message i) (g_clientSockets w))) ->
  wp (try_except_socket_error
        (let! r := getRegistry in for_each (seq 0 (length r)) (quit_loop_body i))
        (ret tt)) w Q.
Proof.
  intros HQ. unfold wp, try_except_socket_error, bind, getRegistry.
  destruct (quit_loop_run i (length (g_clientSockets w)) 0 w) as (res & Hrun & Hres); [lia|].
  rewrite Hrun. rewrite drop_0, firstn_all in *.
  by destruct Hres as [-> | ->].
Qed.

Lemma quit_spec (w : World) (i sid : nat) (p : Player.t) (cmd : string) :
  shape_ok (g_gameState w) -> registry_ok w ->
  players (g_gameState w) !! i = Some p -> in_grid (Player.x p) (Player.y p) ->
  g_clientSockets w !! i = Some (Some sid) -> is_Some (sockets w !! sid) ->
  String.prefix "QUIT" cmd = true ->
  let s' := quit_state (g_gameState w) i p in
  exists w' (evs : list Event),
    handleCommand i cmd w = (Ok tt, w') /\
    g_gameState w' = s' /\
    g_clientSockets w' !! i = Some None /\
    is_closedb w' sid = true /\
    trace w' = (trace w ++ quit_events w (quit_message i) (g_clientSockets w)
                        ++ EvClose sid :: evs)%list /\
    (forall k sid', k <> i -> g_clientSockets w !! k = Some (Some sid') -> live w sid' = true ->
       g_clientSockets w' !! k = Some (Some sid') /\
       EvSend sid' (buildStateString_of s') ∈ evs) /\
    (forall e, e ∈ evs -> exists k sid',
       k <> i /\ g_clientSockets w !! k = Some (Some sid') /\
       (e = EvSend sid' (buildStateString_of s') \/ e = EvClose sid')) /\
    registry_ok w'.
Proof.
  intros Hsh Hok Hp Hin Hreg [sk Hsk] Hcmd s'.
  pose proof Hsh as (Hs & Hlen & Hdr).
  rewrite handleCommand_quit by done.
  assert (Hlt : (i < length (g_clientSockets w))%nat) by by eapply lookup_lt_Some.
  assert (Hpl : (i < length (players (g_gameState w)))%nat) by by eapply lookup_lt_Some.
  set (qe := quit_events w (quit_message i) (g_clientSockets w)).
  set (w5 := mkWorld s' (<[i := None]> (g_clientSockets w))
                     (<[sid := mkSocket (peer_ok sk) true]> (sockets w))
                     ((trace w ++ qe) ++ [EvClose sid])).
  set (s1 := mkGameState (gset (grid (g_gameState w)) (Player.x p) (Player.y p) ".")
               (<[i := Player.mk (-1) (-1) (Player.hp p) false]> (players (g_gameState w)))
               (clientCount (g_gameState w))).
  assert (wp (let! p0 := getPlayer i in handleQuit i (Player.x p0) (Player.y p0)) w
            (fun _ w' => delivered (fun _ => false) (buildStateString_of s') w5 w')) as Hwp.
  { apply wp_bind. eapply wp_getPlayer; [exact Hp|]. unfold handleQuit.
    apply wp_bind. eapply wp_updPlayer; [exact Hp|].
    apply wp_bind. eapply wp_updPlayer.
    { cbn [set_gs g_gameState players]. by apply list_lookup_insert_eq. }
    apply wp_bind. eapply wp_updPlayer.
    { cbn [set_gs g_gameState players]. apply list_lookup_insert_eq.
      by rewrite length_insert. }
    cbn [set_gs g_gameState players grid clientCount g_clientSockets sockets trace].
    rewrite !list_insert_insert_eq.
    apply wp_bind. apply wp_writeGrid; [done|done|].
    cbn [set_gs g_gameState players grid clientCount g_clientSockets sockets trace].
    match goal with |- wp _ ?W _ => replace W with (set_gs w s1) by (by destruct p) end.
    apply wp_bind. eapply wp_getSock; [exact Hreg|].
    apply wp_bind. apply wp_when; [intros _|intros Hf; by apply bool_decide_eq_false_1 in Hf as []].
    - apply wp_bind.
      change (wp (try_except_socket_error
                    (let! r := getRegistry in for_each (seq 0 (length r)) (quit_loop_body i))
                    (ret tt)) (set_gs w s1)
                 (fun _ w1 =>
                    wp ((let! sid0 := theSock i in sock_close sid0) ;;;
                        setSock i None ;;; addClientCount (-1)) w1
                       (fun _ w2 => wp (refreshPlayerPositions ;;; broadcastState) w2
                          (fun _ w' => delivered (fun _ => false) (buildStateString_of s') w5 w')))).
      apply wp_quit_loop.
      rewrite (quit_events_sockets w) by done.
      cbn [set_gs g_clientSockets]. fold qe.
      apply wp_bind. apply wp_bind. eapply wp_theSock; [exact Hreg|].
      apply wp_sock_close. rewrite (closed_world_Some _ _ sk) by done.
      cbn [add_events set_gs g_gameState g_clientSockets sockets trace].
      apply wp_bind. apply wp_setSock; [done|].
      apply wp_addClientCount.
      cbn [set_registry set_gs g_gameState g_clientSockets sockets trace grid players clientCount s1].
      apply wp_bind. apply wp_refreshPlayerPositions.
      { cbn [set_gs g_gameState]. split; [by apply gset_shape|].
        split; [cbn [players]; by rewrite length_insert|].
        intros k q Hq Hd. cbn [players] in Hq.
        destruct (decide (k = i)) as [->|Hne].
        - rewrite list_lookup_insert_eq in Hq by done. by injection Hq as <-.
        - rewrite list_lookup_insert_ne in Hq by done. by eapply Hdr. }
      apply wp_broadcastState.
      + intros a b x Ha Hb. cbn [set_gs set_registry g_clientSockets] in Ha, Hb.
        destruct (decide (a = i)) as [->|Ha'];
          [by rewrite list_lookup_insert_eq in Ha|].
        destruct (decide (b = i)) as [->|Hb'];
          [by rewrite list_lookup_insert_eq in Hb|].
        rewrite list_lookup_insert_ne in Ha, Hb by done. by eapply Hok.
      + intros w' Hdel. exact Hdel. }
  apply wp_elim in Hwp as ([] & w' & Hrun & Hdel).
  pose proof Hdel as (Hgs & Hlenr & Hregs & Hlive & Hclosed & Hdead & Hlens & evs & Htr & Hsound & Hcompl).
  assert (Hi5 : g_clientSockets w5 !! i = Some None) by by apply list_lookup_insert_eq.
  assert (Hk5 : forall k, k <> i -> g_clientSockets w5 !! k = g_clientSockets w !! k).
  { intros k Hk. by apply list_lookup_insert_ne. }
  assert (Hl5 : forall sid', sid' <> sid -> live w5 sid' = live w sid').
  { intros sid' Hne. unfold live, w5. cbn [sockets]. by rewrite list_lookup_insert_ne. }
  exists w', evs. split; [done|]. split; [done|]. split.
  { rewrite (Hregs i None Hi5). by destruct (i <? _)%nat. }
  split.
  { apply Hclosed. unfold is_closedb, w5. cbn [sockets].
    rewrite list_lookup_insert_eq; [done|]. by eapply lookup_lt_Some. }
  split.
  { rewrite Htr. unfold w5. cbn [trace]. by rewrite <- !app_assoc. }
  split.
  - intros k sid' Hk Hr Hl.
    assert (Hne : sid' <> sid).
    { intros ->. apply Hk. by eapply Hok. }
    assert (Hr5 : g_clientSockets w5 !! k = Some (Some sid')) by by rewrite Hk5.
    assert (Hlw5 : live w5 sid' = true) by by rewrite Hl5.
    split.
    + rewrite (Hregs k _ Hr5). apply lookup_lt_Some in Hr5.
      destruct (Nat.ltb_spec k (length (g_clientSockets w5))); [|lia].
      simpl. by rewrite Hlw5.
    + apply (Hcompl k sid'); try done. by eapply lookup_lt_Some.
  - split.
    + intros e He. destruct (Hsound e He) as (k & sid' & _ & _ & Hk & Hcase).
      assert (Hne : k <> i) by (intros ->; congruence).
      exists k, sid'. split; [done|]. rewrite Hk5 in Hk by done. split; [done|].
      destruct Hcase as [[-> _]|[-> _]]; [by left|by right].
    + apply (delivered_registry_ok (fun _ => false) (buildStateString_of s') w5); [|done].
      intros a b x Ha Hb.
      destruct (decide (a = i)) as [->|Ha']; [congruence|].
      destruct (decide (b = i)) as [->|Hb']; [congruence|].
      rewrite Hk5 in Ha, Hb by done. by eapply Hok.
Qed.

(** X13.  QUIT of a player who stands on the grid and holds a session: the
    command returns; the player is made inactive and put at (-1, -1) with
    its hp kept, its cell is cleared, and clientCount goes down by one; the
    quit message goes to the registered sockets in slot order (the
    quitter's own included) up to the first that takes no data; then the
    quitter's socket is closed and its slot freed, and the new state is
    broadcast to every other session that takes data. *)
Theorem quit_leaves_the_game (w : World) (i sid : nat) (p : Player.t) (cmd : string) :
  shape_ok (g_gameState w) -> registry_ok w ->
  players (g_gameState w) !! i = Some p -> in_grid (Player.x p) (Player.y p) ->
  g_clientSockets w !! i = Some (Some sid) -> is_Some (sockets w !! sid) ->
  String.prefix "QUIT" cmd = true ->
  let s' := quit_state (g_gameState w) i p in
  exists w' (evs : list Event),
    handleCommand i cmd w = (Ok tt, w') /\
    g_gameState w' = s' /\
    g_clientSockets w' !! i = Some None /\
    is_closedb w' sid = true /\
    trace w' = (trace w ++ quit_events w (quit_message i) (g_clientSockets w)
                        ++ EvClose sid :: evs)%list /\
    (forall k sid', k <> i -> g_clientSockets w !! k = Some (Some sid') -> live w sid' = true ->
       g_clientSockets w' !! k = Some (Some sid') /\
       EvSend sid' (buildStateString_of s') ∈ evs) /\
    (forall e, e ∈ evs -> exists k sid',
       k <> i /\ g_clientSockets w !! k = Some (Some sid') /\
       (e = EvSend sid' (buildStateString_of s') \/ e = EvClose sid')).
Proof.
  intros Hsh Hok Hp Hin Hreg Hs Hcmd s'.
  destruct (quit_spec w i sid p cmd Hsh Hok Hp Hin Hreg Hs Hcmd)
    as (w' & evs & H1 & H2 & H3 & H4 & H5 & H6 & H7 & _).
  by exists w', evs.
Qed.

(** The theorem at work: A quits in [world_two]. *)
Lemma quit_leaves_the_game_witness :
  shape_ok (g_gameState world_two) /\ registry_ok world_two /\
  players (g_gameState world_two) !! 0%nat = Some (Player.mk 0 0 100 true) /\
  in_grid 0 0 /\
  g_clientSockets world_two !! 0%nat = Some (Some 0%nat) /\
  is_Some (sockets world_two !! 0%nat) /\
  String.prefix "QUIT" "QUIT" = true /\
  exists w', handleCommand 0 "QUIT" world_two = (Ok tt, w') /\
             g_clientSockets w' !! 0%nat = Some None /\
             g_clientSockets w' !! 1%nat = Some (Some 1%nat).
Proof.
  assert (Hsh : shape_ok (g_gameState world_two)).
  { apply wf_shape_ok, wf_stateb_sound. vm_compute. reflexivity. }
  assert (Hok : registry_ok world_two).
  { apply registry_okb_sound. vm_compute. reflexivity. }
  assert (Hp : players (g_gameState world_two) !! 0%nat = Some (Player.mk 0 0 100 true))
    by (vm_compute; reflexivity).
  assert (Hin : in_grid 0 0) by (unfold in_grid, GRID_ROWS, GRID_COLS; lia).
  assert (Hreg : g_clientSockets world_two !! 0%nat = Some (Some 0%nat))
    by (vm_compute; reflexivity).
  assert (Hs : is_Some (sockets world_two !! 0%nat)) by (vm_compute; eauto).
  do 6 (split; [assumption|]). split; [reflexivity|].
  destruct (quit_leaves_the_game world_two 0 0 (Player.mk 0 0 100 true) "QUIT"
              Hsh Hok Hp Hin Hreg Hs eq_refl)
    as (w' & evs & Hrun & _ & Hi & _ & _ & Hoth & _).
  exists w'. split; [exact Hrun|]. split; [exact Hi|].
  apply (Hoth 1%nat 1%nat); [lia|vm_compute; reflexivity|vm_compute; reflexivity].
Defined.

(** ** The end of a session *)

Lemma py_index_wrap (i : Z) : -5 <= i < 5 -> py_index 5 i = Some (Z.to_nat (i mod 5)).
Proof.
  intros H. unfold py_index.
  destruct (Z.leb_spec 0 i).
  - destruct (Z.ltb_spec i (Z.of_nat 5)); [|lia]. cbn [andb].
    by rewrite Z.mod_small by lia.
  - cbn [andb]. destruct (Z.leb_spec (- Z.of_nat 5) i); [|lia].
    destruct (Z.ltb_spec i 0); [|lia]. cbn [andb]. do 2 f_equal.
    apply (Z.mod_unique_pos _ _ (-1)); lia.
Qed.

Lemma grid_set_wrap g r c v :
  grid_shape g -> -5 <= r < 5 -> -5 <= c < 5 ->
  grid_set g r c v = Some (gset g (r mod GRID_ROWS) (c mod GRID_COLS) v).
Proof.
  intros Hs Hr Hc. unfold GRID_ROWS, GRID_COLS.
  assert (Hin : in_grid (r mod 5) (c mod 5)).
  { unfold in_grid, GRID_ROWS, GRID_COLS.
    pose proof (Z.mod_pos_bound r 5). pose proof (Z.mod_pos_bound c 5). lia. }
  rewrite <- (grid_set_in g _ _ v Hs Hin).
  destruct Hin as [Hr' Hc']. unfold GRID_ROWS, GRID_COLS in *.
  pose proof Hs as [Hl Hrows].
  unfold grid_set, py_get, py_set. rewrite Hl.
  rewrite (py_index_wrap r) by done. rewrite (py_index_in_range 5 (r mod 5)) by lia.
  destruct (g !! Z.to_nat (r mod 5)) as [row|] eqn:Hrow; [|done].
  assert (Hlen : length row = 5%nat).
  { rewrite Forall_forall in Hrows. apply Hrows. by eapply list_elem_of_lookup_2. }
  rewrite Hlen. rewrite (py_index_wrap c) by done.
  by rewrite (py_index_in_range 5 (c mod 5)) by lia.
Qed.

Lemma wp_writeGrid_wrap r c v w (Q : unit -> World -> Prop) :
  grid_shape (grid (g_gameState w)) -> -5 <= r < 5 -> -5 <= c < 5 ->
  Q tt (set_gs w (mkGameState (gset (grid (g_gameState w)) (r mod GRID_ROWS) (c mod GRID_COLS) v)
                              (players (g_gameState w)) (clientCount (g_gameState w)))) ->
  wp (writeGrid r c v) w Q.
Proof.
  intros Hs Hr Hc HQ. unfold wp, writeGrid, bind, getState.
  by rewrite grid_set_wrap.
Qed.

(** What the block after the loop does for a player whose coordinates
    Python accepts as indices. *)
Lemma cleanup_spec (w : World) (i : nat) (p : Player.t) :
  shape_ok (g_gameState w) -> registry_ok w ->
  players (g_gameState w) !! i = Some p ->
  - GRID_ROWS <= Player.x p < GRID_ROWS -> - GRID_COLS <= Player.y p < GRID_COLS ->
  (i < length (g_clientSockets w))%nat ->
  let s' := cleanup_state (g_gameState w) i p in
  exists w' (evs : list Event),
    clientHandler_cleanup i w = (Ok tt, w') /\
    g_gameState w' = s' /\
    g_clientSockets w' !! i = Some None /\
    (forall sid, live w' sid = live w sid) /\
    (forall sid k, g_clientSockets w !! i = Some (Some sid) ->
       g_clientSockets w' !! k <> Some (Some sid)) /\
    trace w' = (trace w ++ evs)%list /\
    (forall k sid', k <> i -> g_clientSockets w !! k = Some (Some sid') -> live w sid' = true ->
       g_clientSockets w' !! k = Some (Some sid') /\
       EvSend sid' (buildStateString_of s') ∈ evs) /\
    (forall e, e ∈ evs -> exists k sid',
       k <> i /\ g_clientSockets w !! k = Some (Some sid') /\
       (e = EvSend sid' (buildStateString_of s') \/ e = EvClose sid')).
Proof.
  intros Hsh Hok Hp Hx Hy Hlt s'.
  pose proof Hsh as (Hs & Hlen & Hdr).
  assert (Hpl : (i < length (players (g_gameState w)))%nat) by by eapply lookup_lt_Some.
  set (w5 := mkWorld s' (<[i := None]> (g_clientSockets w)) (sockets w) (trace w)).
  assert (wp (clientHandler_cleanup i) w
            (fun _ w' => delivered (fun _ => false) (buildStateString_of s') w5 w')) as Hwp.
  { unfold clientHandler_cleanup.
    apply wp_bind. eapply wp_updPlayer; [exact Hp|].
    apply wp_bind. eapply wp_getPlayer.
    { cbn [set_gs g_gameState players]. by apply list_lookup_insert_eq. }
    apply wp_bind. apply wp_writeGrid_wrap; [done|done|done|].
    cbn [set_gs g_gameState players grid clientCount g_clientSockets sockets trace].
    apply wp_bind. apply wp_setSock; [done|].
    cbn [set_registry set_gs g_gameState players grid clientCount g_clientSockets sockets trace].
    apply wp_bind. apply wp_refreshPlayerPositions.
    { cbn [set_registry set_gs g_gameState players grid clientCount].
      split; [by apply gset_shape|].
      split; [cbn [players]; by rewrite length_insert|].
      intros k q Hq Hd. cbn [players] in Hq.
      destruct (decide (k = i)) as [->|Hne].
      - rewrite list_lookup_insert_eq in Hq by done. by injection Hq as <-.
      - rewrite list_lookup_insert_ne in Hq by done. by eapply Hdr. }
    apply wp_broadcastState.
    + intros a b x Ha Hb. cbn [set_gs set_registry g_clientSockets] in Ha, Hb.
      destruct (decide (a = i)) as [->|Ha'];
        [by rewrite list_lookup_insert_eq in Ha|].
      destruct (decide (b = i)) as [->|Hb'];
        [by rewrite list_lookup_insert_eq in Hb|].
      rewrite list_lookup_insert_ne in Ha, Hb by done. by eapply Hok.
    + intros w' Hdel. exact Hdel. }
  apply wp_elim in Hwp as ([] & w' & Hrun & Hdel).
  pose proof Hdel as (Hgs & Hlenr & Hregs & Hlive & Hclosed & Hdead & Hlens & evs & Htr & Hsound & Hcompl).
  assert (Hi5 : g_clientSockets w5 !! i = Some None) by by apply list_lookup_insert_eq.
  assert (Hk5 : forall k, k <> i -> g_clientSockets w5 !! k = g_clientSockets w !! k).
  { intros k Hk. by apply list_lookup_insert_ne. }
  exists w', evs. split; [done|]. split; [done|]. split.
  { rewrite (Hregs i None Hi5). by destruct (i <? _)%nat. }
  split; [done|]. split.
  { intros sid k Hi Hk.
    apply (delivered_registry_back _ _ _ _ _ _ Hdel) in Hk.
    destruct (decide (k = i)) as [->|Hne]; [congruence|].
    rewrite Hk5 in Hk by done. apply Hne. by eapply Hok. }
  split; [done|]. split.
  - intros k sid' Hk Hr Hl.
    assert (Hr5 : g_clientSockets w5 !! k = Some (Some sid')) by by rewrite Hk5.
    split.
    + by apply (delivered_live _ _ _ _ _ _ Hdel Hr5).
    + apply (Hcompl k sid'); try done. by eapply lookup_lt_Some.
  - intros e He. destruct (Hsound e He) as (k & sid' & _ & _ & Hk & Hcase).
    assert (Hne : k <> i) by (intros ->; congruence).
    exists k, sid'. split; [done|]. rewrite Hk5 in Hk by done. split; [done|].
    destruct Hcase as [[-> _]|[-> _]]; [by left|by right].
Qed.


(** X14.  The block a handler runs when its loop has ended: the player is
    made inactive, the cell at its coordinates is cleared and the grid
    redrawn, the slot is freed, and the state is broadcast to every other
    session that takes data.  A coordinate from -5 to -1 is taken from the
    end of the list, so for a player that QUIT left at (-1, -1) the cell
    cleared is the corner (4, 4).  The socket of the slot is not closed:
    it is as live as before, and no slot names it any more. *)
Theorem cleanup_frees_slot (w : World) (i : nat) (p : Player.t) :
  shape_ok (g_gameState w) -> registry_ok w ->
  players (g_gameState w) !! i = Some p ->
  - GRID_ROWS <= Player.x p < GRID_ROWS -> - GRID_COLS <= Player.y p < GRID_COLS ->
  (i < length (g_clientSockets w))%nat ->
  let s' := cleanup_state (g_gameState w) i p in
  exists w' (evs : list Event),
    clientHandler_cleanup i w = (Ok tt, w') /\
    g_gameState w' = s' /\
    g_clientSockets w' !! i = Some None /\
    (forall sid, live w' sid = live w sid) /\
    (forall sid k, g_clientSockets w !! i = Some (Some sid) ->
       g_clientSockets w' !! k <> Some (Some sid)) /\
    trace w' = (trace w ++ evs)%list /\
    (forall k sid', k <> i -> g_clientSockets w !! k = Some (Some sid') -> live w sid' = true ->
       g_clientSockets w' !! k = Some (Some sid') /\
       EvSend sid' (buildStateString_of s') ∈ evs) /\
    (forall e, e ∈ evs -> exists k sid',
       k <> i /\ g_clientSockets w !! k = Some (Some sid') /\
       (e = EvSend sid' (buildStateString_of s') \/ e = EvClose sid')).
Proof. apply cleanup_spec. Qed.

(** The theorem at work: the cleanup of A after its QUIT writes the corner
    cell and leaves the state as it was. *)
Lemma cleanup_frees_slot_witness :
  shape_ok (g_gameState world_a_quit) /\ registry_ok world_a_quit /\
  players (g_gameState world_a_quit) !! 0%nat = Some (Player.mk (-1) (-1) 100 false) /\
  cleanup_state (g_gameState world_a_quit) 0 (Player.mk (-1) (-1) 100 false)
  = refreshed (mkGameState (gset (grid (g_gameState world_a_quit)) 4 4 ".")
                           (players (g_gameState world_a_quit))
                           (clientCount (g_gameState world_a_quit))) /\
  exists w', clientHandler_cleanup 0 world_a_quit = (Ok tt, w') /\
             g_gameState w' = g_gameState world_a_quit.
Proof.
  assert (Hsh : shape_ok (g_gameState world_a_quit)).
  { apply wf_shape_ok, wf_stateb_sound. vm_compute. reflexivity. }
  assert (Hok : registry_ok world_a_quit).
  { apply registry_okb_sound. vm_compute. reflexivity. }
  assert (Hp : players (g_gameState world_a_quit) !! 0%nat
               = Some (Player.mk (-1) (-1) 100 false)) by (vm_compute; reflexivity).
  split; [exact Hsh|]. split; [exact Hok|]. split; [exact Hp|].
  split; [vm_compute; reflexivity|].
  destruct (cleanup_frees_slot world_a_quit 0 (Player.mk (-1) (-1) 100 false) Hsh Hok Hp)
    as (w' & evs & Hrun & Hgs & _).
  - unfold GRID_ROWS. simpl. lia.
  - unfold GRID_COLS. simpl. lia.
  - vm_compute. lia.
  - exists w'. split; [exact Hrun|]. rewrite Hgs. vm_compute. reflexivity.
Defined.



(** ** clientCount never falls below the number of occupied slots *)

Section Respects.
Context (R : World -> World -> Prop) `{!Reflexive R, !Transitive R}.

Lemma respects_ret {A} (a : A) : respects R (ret a).
Proof. intros w. simpl. reflexivity. Qed.

Lemma respects_raise {A} e : respects R (@raise A e).
Proof. intros w. simpl. reflexivity. Qed.

Lemma respects_of_option {A} e (o : option A) : respects R (of_option e o).
Proof. destruct o; [apply respects_ret|apply respects_raise]. Qed.

Lemma respects_bind {A C} (m : M A) (k : A -> M C) :
  respects R m -> (forall a, respects R (k a)) -> respects R (bind m k).
Proof.
  intros Hm Hk w. unfold bind. specialize (Hm w).
  destruct (m w) as [[a|e] w1]; simpl in *; [|done].
  etrans; [exact Hm|apply Hk].
Qed.

Lemma respects_when b (m : M unit) : respects R m -> respects R (when b m).
Proof. destruct b; [done|]. intros _. apply respects_ret. Qed.

Lemma respects_for_each {A} (l : list A) (body : A -> M unit) :
  (forall a, respects R (body a)) -> respects R (for_each l body).
Proof.
  intros Hb. induction l as [|a l IH]; simpl; [apply respects_ret|].
  apply respects_bind; [apply Hb|done].
Qed.

Lemma respects_try {A} (m h : M A) :
  respects R m -> respects R h -> respects R (try_except_socket_error m h).
Proof.
  intros Hm Hh w. unfold try_except_socket_error. specialize (Hm w).
  destruct (m w) as [[a|[]] w1]; simpl in *; try done.
  etrans; [exact Hm|apply Hh].
Qed.

Lemma respects_getState : respects R getState.
Proof. intros w. simpl. reflexivity. Qed.

Lemma respects_getRegistry : respects R getRegistry.
Proof. intros w. simpl. reflexivity. Qed.

Lemma respects_getSock i : respects R (getSock i).
Proof. apply respects_bind; [apply respects_getRegistry|]. intros r. apply respects_of_option. Qed.

Lemma respects_theSock i : respects R (theSock i).
Proof. apply respects_bind; [apply respects_getSock|]. intros o. apply respects_of_option. Qed.

Lemma respects_getPlayer i : respects R (getPlayer i).
Proof. apply respects_bind; [apply respects_getState|]. intros s. apply respects_of_option. Qed.

Lemma respects_readGrid r c : respects R (readGrid r c).
Proof. apply respects_bind; [apply respects_getState|]. intros s. apply respects_of_option. Qed.

End Respects.

#[local] Instance slack_le_refl : Reflexive slack_le.
Proof. intros w. split; [done|lia]. Qed.

#[local] Instance slack_le_trans : Transitive slack_le.
Proof. intros w1 w2 w3 [H1 H2] [H3 H4]. split; [congruence|lia]. Qed.

(** A block that leaves the registry and clientCount alone. *)
Lemma slack_le_same w w' :
  g_clientSockets w' = g_clientSockets w ->
  clientCount (g_gameState w') = clientCount (g_gameState w) ->
  slack_le w w'.
Proof. intros Hr Hc. unfold slack_le, slack, occupied. rewrite Hr, Hc. split; [done|lia]. Qed.

Lemma slack_writeGrid r c v : respects slack_le (writeGrid r c v).
Proof.
  intros w. unfold writeGrid, bind, getState, of_option.
  destruct (grid_set _ r c v); by apply slack_le_same.
Qed.

Lemma slack_updPlayer i g : respects slack_le (updPlayer i g).
Proof.
  intros w. unfold updPlayer, bind, getState, of_option.
  destruct (players _ !! i); by apply slack_le_same.
Qed.

Lemma slack_sock_send sid data : respects slack_le (sock_send sid data).
Proof.
  intros w. unfold sock_send. destruct (sockets w !! sid) as [s|]; [|reflexivity].
  destruct (peer_ok s && negb (closed s)); by apply slack_le_same.
Qed.

Lemma slack_sock_close sid : respects slack_le (sock_close sid).
Proof.
  intros w. rewrite sock_close_eq. cbn [snd]. apply slack_le_same;
    [apply closed_world_registry|by rewrite closed_world_gs].
Qed.

Lemma occupied_insert_None (r : list (option nat)) : forall i,
  (length (filter (fun o : option nat => is_Some o) (<[i := None]> r))
   <= length (filter (fun o : option nat => is_Some o) r))%nat.
Proof.
  induction r as [|o r IH]; intros i; [done|].
  destruct i as [|i]; simpl.
  - rewrite filter_cons_False by (by intros [? ?]).
    destruct o; [rewrite filter_cons_True by eauto; simpl; lia
                |rewrite filter_cons_False by (by intros [? ?]); lia].
  - specialize (IH i). destruct o.
    + rewrite !filter_cons_True by eauto. simpl. lia.
    + by rewrite !filter_cons_False by (by intros [? ?]).
Qed.

Lemma occupied_insert_free (r : list (option nat)) : forall i sid,
  r !! i = Some (Some sid) ->
  length (filter (fun o : option nat => is_Some o) r)
  = S (length (filter (fun o : option nat => is_Some o) (<[i := None]> r))).
Proof.
  induction r as [|o r IH]; intros i sid Hi; [done|].
  destruct i as [|i]; simpl in *.
  - injection Hi as ->. rewrite filter_cons_True by eauto.
    by rewrite filter_cons_False by (by intros [? ?]).
  - specialize (IH i sid Hi). destruct o.
    + rewrite !filter_cons_True by eauto. simpl. lia.
    + by rewrite !filter_cons_False by (by intros [? ?]).
Qed.

Lemma occupied_insert_take (r : list (option nat)) : forall i sid,
  r !! i = Some None ->
  length (filter (fun o : option nat => is_Some o) (<[i := Some sid]> r))
  = S (length (filter (fun o : option nat => is_Some o) r)).
Proof.
  induction r as [|o r IH]; intros i sid Hi; [done|].
  destruct i as [|i]; simpl in *.
  - injection Hi as ->.
    by rewrite (filter_cons_False _ None) by (by intros [? ?]).
  - specialize (IH i sid Hi). destruct o.
    + rewrite !filter_cons_True by eauto. simpl. lia.
    + by rewrite !filter_cons_False by (by intros [? ?]).
Qed.

Lemma slack_setSock_None i : respects slack_le (setSock i None).
Proof.
  intros w. unfold setSock, bind, getRegistry.
  destruct (i <? length (g_clientSockets w))%nat; [|reflexivity].
  split; simpl; [by rewrite length_insert|].
  unfold slack, occupied. simpl.
  pose proof (occupied_insert_None (g_clientSockets w) i). lia.
Qed.

Lemma slack_release_slot i : respects slack_le (release_slot i).
Proof.
  intros w. unfold release_slot, bind at 1 2, theSock, getSock, bind at 1 2, getRegistry.
  cbn [of_option ret].
  destruct (g_clientSockets w !! i) as [[sid|]|] eqn:Hi; cbn [of_option ret raise snd];
    [|reflexivity..].
  rewrite sock_close_eq. unfold bind at 1, setSock, bind at 1, getRegistry.
  rewrite closed_world_registry.
  apply lookup_lt_Some in Hi as Hlt.
  destruct (Nat.ltb_spec i (length (g_clientSockets w))); [|lia].
  simpl. split; simpl; [by rewrite length_insert|].
  unfold slack, occupied. simpl. rewrite closed_world_gs.
  rewrite (occupied_insert_free _ _ _ Hi). lia.
Qed.

Ltac slack_step :=
  first
    [ apply slack_release_slot
    | apply slack_writeGrid | apply slack_updPlayer
    | apply slack_sock_send | apply slack_sock_close | apply slack_setSock_None
    | apply (respects_ret slack_le) | apply (respects_raise slack_le) | apply (respects_of_option slack_le)
    | apply (respects_getState slack_le) | apply (respects_getRegistry slack_le) | apply (respects_getSock slack_le)
    | apply (respects_theSock slack_le) | apply (respects_getPlayer slack_le) | apply (respects_readGrid slack_le)
    | apply (respects_when slack_le) | apply (respects_try slack_le)
    | apply (respects_for_each slack_le); intros ?
    | apply (respects_bind slack_le); [|intros ?]
    | match goal with
      | |- respects _ (match ?x with _ => _ end) => destruct x
      end ].

Lemma slack_refresh : respects slack_le refreshPlayerPositions.
Proof. unfold refreshPlayerPositions. repeat slack_step. Qed.

Lemma slack_drop_socket sid : respects slack_le (drop_socket sid).
Proof. unfold drop_socket. repeat slack_step. Qed.

Lemma slack_broadcastState : respects slack_le broadcastState.
Proof.
  unfold broadcastState, buildStateString. repeat slack_step.
Qed.

Lemma slack_reply_invalid i : respects slack_le (reply_invalid i).
Proof. unfold reply_invalid. repeat slack_step. Qed.

Lemma slack_moveTo i ogx ogy nx ny inb upd :
  respects slack_le (moveTo i ogx ogy nx ny inb upd).
Proof.
  unfold moveTo. apply (respects_bind slack_le).
  { destruct inb; repeat slack_step. }
  intros free. apply (respects_bind slack_le); [repeat slack_step|]. intros _.
  apply (respects_bind slack_le); [apply slack_refresh|]. intros _.
  apply slack_broadcastState.
Qed.

Lemma slack_handleMove i ogx ogy st cmd : respects slack_le (handleMove i ogx ogy st cmd).
Proof.
  unfold handleMove.
  repeat (match goal with |- respects _ (if ?b then _ else _) => destruct b end);
    try apply slack_reply_invalid;
    (apply (respects_bind slack_le); [apply (respects_getPlayer slack_le)|]);
    intros p; apply slack_moveTo.
Qed.

Lemma slack_attackPlayer j ogx ogy i : respects slack_le (attackPlayer j ogx ogy i).
Proof.
  unfold attackPlayer.
  apply (respects_bind slack_le); [apply (respects_getPlayer slack_le)|]. intros p.
  apply (respects_when slack_le).
  apply (respects_bind slack_le); [repeat slack_step|]. intros _.
  apply (respects_bind slack_le); [apply (respects_getPlayer slack_le)|]. intros p'.
  apply (respects_when slack_le).
  apply (respects_bind slack_le); [repeat slack_step|]. intros _.
  apply (respects_bind slack_le); [apply slack_updPlayer|]. intros _.
  apply slack_release_slot.
Qed.

Lemma slack_handleAttack j : respects slack_le (handleAttack j).
Proof.
  unfold handleAttack.
  apply (respects_bind slack_le); [apply (respects_getPlayer slack_le)|]. intros p. cbv zeta.
  apply (respects_bind slack_le); [apply (respects_getState slack_le)|]. intros s.
  apply (respects_bind slack_le).
  { apply (respects_for_each slack_le). intros i. apply slack_attackPlayer. }
  intros _. apply (respects_bind slack_le); [apply slack_refresh|]. intros _.
  apply slack_broadcastState.
Qed.

Lemma slack_handleQuit i ogx ogy : respects slack_le (handleQuit i ogx ogy).
Proof.
  unfold handleQuit.
  do 4 (apply (respects_bind slack_le); [slack_step|]; intros _).
  apply (respects_bind slack_le); [apply (respects_getSock slack_le)|]. intros own.
  apply (respects_bind slack_le).
  { apply (respects_when slack_le).
    apply (respects_bind slack_le); [repeat slack_step|]. intros _.
    apply slack_release_slot. }
  intros _. apply (respects_bind slack_le); [apply slack_refresh|]. intros _.
  apply slack_broadcastState.
Qed.

Lemma slack_handleSay i cmd : respects slack_le (handleSay i cmd).
Proof.
  unfold handleSay. cbv zeta.
  apply (respects_bind slack_le); [apply (respects_getRegistry slack_le)|]. intros r.
  apply (respects_bind slack_le).
  { apply (respects_for_each slack_le). intros k.
    apply (respects_bind slack_le); [apply (respects_getSock slack_le)|].
    intros [sid|]; [|apply (respects_ret slack_le)].
    apply (respects_when slack_le), (respects_try slack_le);
      [apply slack_sock_send|apply slack_drop_socket]. }
  intros _. apply (respects_bind slack_le); [apply slack_refresh|]. intros _.
  apply slack_broadcastState.
Qed.

Lemma slack_handleCommand i cmd : respects slack_le (handleCommand i cmd).
Proof.
  unfold handleCommand.
  apply (respects_bind slack_le); [apply (respects_getPlayer slack_le)|]. intros p. cbv zeta.
  repeat (match goal with |- respects _ (if ?b then _ else _) => destruct b end);
    auto using slack_handleMove, slack_handleAttack, slack_handleQuit, slack_handleSay,
               slack_reply_invalid.
Qed.

Lemma slack_join i : respects slack_le (clientHandler_join i).
Proof.
  unfold clientHandler_join.
  apply (respects_bind slack_le); [apply (respects_getSock slack_le)|]. intros sock.
  do 4 (apply (respects_bind slack_le); [apply slack_updPlayer|]; intros _).
  apply (respects_bind slack_le); [apply slack_refresh|]. intros _.
  apply (respects_bind slack_le); [repeat slack_step|]. intros _.
  apply slack_broadcastState.
Qed.

Lemma slack_cleanup i : respects slack_le (clientHandler_cleanup i).
Proof.
  unfold clientHandler_cleanup.
  apply (respects_bind slack_le); [apply slack_updPlayer|]. intros _.
  apply (respects_bind slack_le); [apply (respects_getPlayer slack_le)|]. intros p.
  apply (respects_bind slack_le); [apply slack_writeGrid|]. intros _.
  apply (respects_bind slack_le); [apply slack_setSock_None|]. intros _.
  apply (respects_bind slack_le); [apply slack_refresh|]. intros _.
  apply slack_broadcastState.
Qed.

Lemma slack_peer_gone sid : respects slack_le (peer_gone sid).
Proof.
  intros w. unfold peer_gone. destruct (sockets w !! sid); [|reflexivity].
  by apply slack_le_same.
Qed.

Lemma find_slot_no_raise r : forall n k,
  (k + n <= length r)%nat ->
  (exists slot, find_slot r (seq k n) = Ok (Some slot) /\ (k <= slot < k + n)%nat) \/
  (find_slot r (seq k n) = Ok None /\
   forall j, (k <= j < k + n)%nat -> exists sid, r !! j = Some (Some sid)).
Proof.
  induction n as [|n IH]; intros k Hk.
  - right. split; [done|]. intros j Hj. lia.
  - simpl. destruct (lookup_lt_is_Some_2 r k) as [o Ho]; [lia|]. rewrite Ho.
    destruct o as [sid|].
    + destruct (IH (S k)) as [(slot & Hs & Hr)|[Hn Hall]]; [lia| |].
      * left. exists slot. split; [done|lia].
      * right. split; [done|]. intros j Hj.
        destruct (decide (j = k)) as [->|Hne]; [eauto|]. apply Hall. lia.
    + left. exists k. split; [done|lia].
Qed.

Lemma slack_main_accept peer : respects slack_le (main_accept peer).
Proof.
  intros w. unfold main_accept. fold (with_new_socket w peer).
  set (w1 := with_new_socket w peer).
  assert (H1 : slack_le w w1) by by apply slack_le_same.
  etrans; [exact H1|].
  destruct (Z.of_nat MAX_CLIENTS <=? clientCount (g_gameState w1)).
  - assert (Hr : respects slack_le
                (sock_send (length (sockets w)) "Server is full." ;;;
                 sock_close (length (sockets w)) ;;; ret (@None nat)))
      by repeat slack_step.
    apply Hr.
  - unfold bind at 1, getRegistry.
    destruct (find_slot (g_clientSockets w1) (seq 0 MAX_CLIENTS)) as [[slot|]|e] eqn:Hf;
      [|reflexivity..].
    apply find_slot_Some in Hf. apply lookup_lt_Some in Hf as Hlt.
    unfold bind at 1, setSock, bind at 1, getRegistry.
    rewrite (proj2 (Nat.ltb_lt _ _) Hlt).
    simpl. split; simpl; [by rewrite length_insert|].
    unfold slack, occupied. simpl.
    rewrite (occupied_insert_take _ _ _ Hf).
    change (g_clientSockets w1) with (g_clientSockets w). lia.
Qed.

Lemma slack_step_action a : respects slack_le (step a).
Proof.
  destruct a as [peer|i|i cmd|i|sid]; simpl.
  - apply (respects_bind slack_le); [apply slack_main_accept|]. intros o.
    apply (respects_ret slack_le).
  - apply slack_join.
  - apply slack_handleCommand.
  - apply slack_cleanup.
  - apply slack_peer_gone.
Qed.

Lemma slack_run acts : forall w, slack_le w (run acts w).
Proof.
  induction acts as [|a acts IH]; intros w; [reflexivity|].
  rewrite run_cons. etrans; [apply slack_step_action|apply IH].
Qed.

Lemma all_occupied (r : list (option nat)) :
  (forall j, (j < length r)%nat -> exists sid, r !! j = Some (Some sid)) ->
  length (filter (fun o : option nat => is_Some o) r) = length r.
Proof.
  induction r as [|o r IH]; intros H; [done|].
  destruct (H 0%nat) as [sid Hs]; [simpl; lia|]. simpl in Hs. injection Hs as ->.
  rewrite filter_cons_True by eauto. simpl. f_equal. apply IH.
  intros j Hj. apply (H (S j)). simpl. lia.
Qed.

(** X16.  Whatever blocks have run since the server started, in whatever
    order and whether they returned or raised, the registry has its four
    slots and clientCount is at least the number of slots that hold a
    socket: the counter may run ahead of the registry, never behind it. *)
Theorem clientCount_covers_registry (acts : list Action) :
  let w := run acts world_init in
  length (g_clientSockets w) = MAX_CLIENTS /\
  Z.of_nat (occupied w) <= clientCount (g_gameState w).
Proof.
  destruct (slack_run acts world_init) as [Hlen Hsl]. split; [exact Hlen|].
  change (slack world_init) with 0 in Hsl. unfold slack in Hsl. lia.
Qed.

(** X17.  In every world the server can reach, a connection that arrives
    while clientCount is below MAX_CLIENTS is given a slot: the search for
    a free slot never comes back empty, so the registry is never indexed by
    [None]. *)
Theorem accept_never_lacks_a_slot (acts : list Action) (peer : bool) :
  let w := run acts world_init in
  clientCount (g_gameState w) < Z.of_nat MAX_CLIENTS ->
  exists slot,
    (slot < MAX_CLIENTS)%nat /\
    g_clientSockets w !! slot = Some None /\
    (main_accept peer w).1 = Ok (Some slot).
Proof.
  intros w Hcount.
  destruct (slack_run acts world_init) as [Hlen Hsl]. fold w in Hlen, Hsl.
  change (slack world_init) with 0 in Hsl. unfold slack, occupied in Hsl.
  change (length (g_clientSockets world_init)) with MAX_CLIENTS in Hlen.
  destruct (find_slot_no_raise (g_clientSockets w) MAX_CLIENTS 0) as [(slot & Hf & Hr)|[_ Hall]];
    [lia| |].
  - exists slot. split; [lia|]. pose proof (find_slot_Some _ _ _ Hf) as Hfree.
    split; [done|].
    unfold main_accept. fold (with_new_socket w peer).
    change (clientCount (g_gameState (with_new_socket w peer)))
      with (clientCount (g_gameState w)).
    destruct (Z.leb_spec (Z.of_nat MAX_CLIENTS) (clientCount (g_gameState w))); [lia|].
    unfold bind at 1, getRegistry.
    change (g_clientSockets (with_new_socket w peer)) with (g_clientSockets w).
    rewrite Hf.
    unfold bind at 1, setSock, bind at 1, getRegistry.
    change (g_clientSockets (with_new_socket w peer)) with (g_clientSockets w).
    apply lookup_lt_Some in Hfree as Hlt.
    rewrite (proj2 (Nat.ltb_lt _ _) Hlt). reflexivity.
  - exfalso. rewrite all_occupied in Hsl.
    + rewrite Hlen in Hsl. lia.
    + intros j Hj. apply Hall. lia.
Qed.

(** The theorem at work: after two connections and a failed read of the
    first, a third connection gets the freed slot 0. *)
Lemma accept_never_lacks_a_slot_witness :
  clientCount (g_gameState (run [Accept true; Join 0%nat; Accept true; Join 1%nat;
                                 Cleanup 0%nat] world_init)) < Z.of_nat MAX_CLIENTS /\
  exists slot,
    (main_accept true (run [Accept true; Join 0%nat; Accept true; Join 1%nat;
                            Cleanup 0%nat] world_init)).1 = Ok (Some slot).
Proof.
  assert (H : clientCount (g_gameState (run [Accept true; Join 0%nat; Accept true; Join 1%nat;
                                             Cleanup 0%nat] world_init))
              < Z.of_nat MAX_CLIENTS) by (vm_compute; reflexivity).
  split; [exact H|].
  destruct (accept_never_lacks_a_slot [Accept true; Join 0%nat; Accept true; Join 1%nat;
                                       Cleanup 0%nat] true H) as (slot & _ & _ & Hacc).
  exists slot. exact Hacc.
Defined.

(** ** Where clientCount changes *)

Ltac count_step :=
  first
    [ apply keeps_count_writeGrid | apply keeps_count_updPlayer
    | apply keeps_count_refresh
    | apply keeps_gs_count, keeps_gs_broadcastState
    | apply keeps_gs_count, keeps_gs_sock_send
    | apply keeps_gs_count, keeps_gs_drop_socket
    | apply (keeps_ret count_of) | apply (keeps_raise count_of)
    | apply (keeps_of_option count_of)
    | apply (keeps_getState count_of) | apply (keeps_getRegistry count_of)
    | apply (keeps_getSock count_of) | apply (keeps_theSock count_of)
    | apply (keeps_getPlayer count_of) | apply (keeps_readGrid count_of)
    | apply (keeps_when count_of) | apply (keeps_try count_of)
    | apply (keeps_for_each count_of); intros ?
    | apply (keeps_bind count_of); [|intros ?]
    | match goal with
      | |- keeps _ (match ?x with _ => _ end) => destruct x
      end ].

Lemma keeps_count_reply_invalid i : keeps count_of (reply_invalid i).
Proof. unfold reply_invalid. repeat count_step. Qed.

Lemma keeps_count_moveTo i ogx ogy nx ny inb upd :
  keeps count_of (moveTo i ogx ogy nx ny inb upd).
Proof.
  unfold moveTo. apply (keeps_bind count_of).
  { destruct inb; repeat count_step. }
  intros free. apply (keeps_bind count_of); [repeat count_step|]. intros _.
  apply (keeps_bind count_of); [apply keeps_count_refresh|]. intros _.
  apply keeps_gs_count, keeps_gs_broadcastState.
Qed.

Lemma keeps_count_handleMove i ogx ogy st cmd : keeps count_of (handleMove i ogx ogy st cmd).
Proof.
  unfold handleMove.
  repeat (match goal with |- keeps _ (if ?b then _ else _) => destruct b end);
    try apply keeps_count_reply_invalid;
    (apply (keeps_bind count_of); [apply (keeps_getPlayer count_of)|]);
    intros p; apply keeps_count_moveTo.
Qed.

Lemma keeps_count_handleSay i cmd : keeps count_of (handleSay i cmd).
Proof.
  unfold handleSay. cbv zeta.
  apply (keeps_bind count_of); [apply (keeps_getRegistry count_of)|]. intros r.
  apply (keeps_bind count_of).
  { apply (keeps_for_each count_of). intros k.
    apply (keeps_bind count_of); [apply (keeps_getSock count_of)|].
    intros [sid|]; [|apply (keeps_ret count_of)].
    apply (keeps_when count_of), (keeps_try count_of);
      [apply keeps_gs_count, keeps_gs_sock_send|apply keeps_gs_count, keeps_gs_drop_socket]. }
  intros _. apply (keeps_bind count_of); [apply keeps_count_refresh|]. intros _.
  apply keeps_gs_count, keeps_gs_broadcastState.
Qed.

Lemma keeps_count_join i : keeps count_of (clientHandler_join i).
Proof.
  unfold clientHandler_join.
  apply (keeps_bind count_of); [apply (keeps_getSock count_of)|]. intros sock.
  do 4 (apply (keeps_bind count_of); [apply keeps_count_updPlayer|]; intros _).
  apply (keeps_bind count_of); [apply keeps_count_refresh|]. intros _.
  apply (keeps_bind count_of); [repeat count_step|]. intros _.
  apply keeps_gs_count, keeps_gs_broadcastState.
Qed.

(** X18.  clientCount is changed by nothing but an accept and the commands
    dispatched to ATTACK or QUIT: a join, a MOVE, JUMP or SAY, an invalid
    line, the cleanup after the loop and the loss of a peer leave it as it
    is, whether the block returns or raises. *)
Theorem clientCount_kept_by_other_blocks (a : Action) (w : World) :
  touches_count a = false ->
  clientCount (g_gameState (step a w).2) = clientCount (g_gameState w).
Proof.
  intros Ha. change (count_of (step a w).2 = count_of w). revert w.
  change (keeps count_of (step a)).
  destruct a as [peer|i|i cmd|i|sid]; simpl in *; [done| | | |].
  - apply keeps_count_join.
  - unfold handleCommand.
    apply (keeps_bind count_of); [apply (keeps_getPlayer count_of)|]. intros p. cbv zeta.
    destruct (String.prefix "MOVE" cmd); [apply keeps_count_handleMove|].
    destruct (String.prefix "ATTACK" cmd); [done|].
    destruct (String.prefix "QUIT" cmd); [done|].
    destruct (String.prefix "JUMP" cmd); [apply keeps_count_handleMove|].
    destruct (String.prefix "SAY" cmd); [apply keeps_count_handleSay|].
    apply keeps_count_reply_invalid.
  - apply keeps_count_cleanup.
  - intros w. unfold peer_gone, count_of. by destruct (sockets w !! sid).
Qed.

(** The theorem at work: a chat line of A in [world_two]. *)
Lemma clientCount_kept_by_other_blocks_witness :
  touches_count (Command 0 "SAY hello") = false /\
  clientCount (g_gameState (step (Command 0 "SAY hello") world_two).2) = 2.
Proof.
  split; [reflexivity|].
  rewrite (clientCount_kept_by_other_blocks (Command 0 "SAY hello") world_two eq_refl).
  vm_compute. reflexivity.
Defined.

(** ** A join whose client is already gone *)

Lemma bind_eq {A B} (m : M A) (k : A -> M B) w a w' :
  m w = (Ok a, w') -> bind m k w = k a w'.
Proof. unfold bind. by intros ->. Qed.

Lemma updPlayer_eq i f w p :
  players (g_gameState w) !! i = Some p ->
  updPlayer i f w
  = (Ok tt, set_gs w (mkGameState (grid (g_gameState w)) (<[i := f p]> (players (g_gameState w)))
                                  (clientCount (g_gameState w)))).
Proof. intros H. unfold updPlayer, bind, getState. by rewrite H. Qed.

Lemma refresh_eq w :
  shape_ok (g_gameState w) ->
  refreshPlayerPositions w = (Ok tt, set_gs w (refreshed (g_gameState w))).
Proof.
  intros Hsh.
  assert (Hwp : wp refreshPlayerPositions w
            (fun _ w' => w' = set_gs w (refreshed (g_gameState w))))
    by (by apply wp_refreshPlayerPositions).
  apply wp_elim in Hwp as ([] & w' & Hrun & ->). exact Hrun.
Qed.

(** X19.  When the client is gone before its handler enters the game, the
    handler still puts the player on its start cell, active with hp 100,
    and draws it; then the READY send raises socket.error, which nothing
    catches: the thread ends there, neither the loop nor the block after it
    runs, and the player stays in the game with nobody behind it. *)
Theorem join_with_peer_gone (w : World) (i sid : nat) (script : list recv_result) :
  shape_ok (g_gameState w) -> (i < MAX_CLIENTS)%nat ->
  g_clientSockets w !! i = Some (Some sid) -> live w sid = false ->
  let w' := set_gs w (refreshed (mkGameState
                        (grid (g_gameState w))
                        (<[i := Player.mk (Z.of_nat i) 0 100 true]> (players (g_gameState w)))
                        (clientCount (g_gameState w)))) in
  clientHandler_join i w = (Raise SocketError, w') /\
  clientHandler i script w = (Raise SocketError, w').
Proof.
  intros Hsh Hi Hreg Hdead w'.
  pose proof Hsh as (Hs & Hlen & Hin).
  destruct (lookup_lt_is_Some_2 (players (g_gameState w)) i) as [p0 Hp0]; [by rewrite Hlen|].
  assert (Hlt : (i < length (players (g_gameState w)))%nat) by by rewrite Hlen.
  set (s1 := mkGameState (grid (g_gameState w))
               (<[i := Player.mk (Z.of_nat i) 0 100 true]> (players (g_gameState w)))
               (clientCount (g_gameState w))).
  assert (Hsh1 : shape_ok s1).
  { split; [done|]. split; [simpl; by rewrite length_insert|].
    intros k p Hk Hd. simpl in Hk. destruct (decide (k = i)) as [->|Hne].
    - rewrite list_lookup_insert_eq in Hk by done. injection Hk as <-. simpl.
      unfold in_grid, GRID_ROWS, GRID_COLS, MAX_CLIENTS in *. lia.
    - rewrite list_lookup_insert_ne in Hk by done. by apply (Hin k). }
  assert (Hsock : getSock i w = (Ok (Some sid), w)).
  { unfold getSock, bind, getRegistry. by rewrite Hreg. }
  assert (Hjoin : clientHandler_join i w = (Raise SocketError, w')).
  { unfold clientHandler_join.
    rewrite (bind_eq _ _ _ _ _ Hsock).
    rewrite (bind_eq _ _ _ _ _ (updPlayer_eq i _ w p0 Hp0)).
    erewrite bind_eq; [|apply updPlayer_eq; cbn [set_gs g_gameState players];
                         by apply list_lookup_insert_eq].
    cbn [set_gs g_gameState players grid clientCount]. rewrite list_insert_insert_eq.
    erewrite bind_eq; [|apply updPlayer_eq; cbn [set_gs g_gameState players];
                         by apply list_lookup_insert_eq].
    cbn [set_gs g_gameState players grid clientCount]. rewrite list_insert_insert_eq.
    erewrite bind_eq; [|apply updPlayer_eq; cbn [set_gs g_gameState players];
                         by apply list_lookup_insert_eq].
    cbn [set_gs g_gameState players grid clientCount]. rewrite list_insert_insert_eq.
    cbn [Player.set_x Player.set_y Player.set_hp Player.set_active
         Player.x Player.y Player.hp Player.active].
    fold s1. erewrite bind_eq; [|by apply refresh_eq].
    cbn [set_gs g_gameState g_clientSockets sockets trace].
    unfold bind, of_option, ret. rewrite sock_send_dead by done. done. }
  split; [exact Hjoin|].
  unfold clientHandler. rewrite (bind_eq _ _ _ _ _ Hsock).
  unfold bind at 1. by rewrite Hjoin.
Qed.

(** The theorem at work: a connection whose client has gone is accepted,
    and its handler starts. *)
Lemma join_with_peer_gone_witness :
  shape_ok (g_gameState world_dead_on_arrival) /\
  g_clientSockets world_dead_on_arrival !! 0%nat = Some (Some 0%nat) /\
  live world_dead_on_arrival 0 = false /\
  (clientHandler 0 [Recv "MOVE RIGHT"] world_dead_on_arrival).1 = Raise SocketError /\
  players (g_gameState (clientHandler 0 [Recv "MOVE RIGHT"] world_dead_on_arrival).2) !! 0%nat
  = Some (Player.mk 0 0 100 true).
Proof.
  assert (Hsh : shape_ok (g_gameState world_dead_on_arrival)).
  { apply wf_shape_ok, wf_stateb_sound. vm_compute. reflexivity. }
  assert (Hreg : g_clientSockets world_dead_on_arrival !! 0%nat = Some (Some 0%nat))
    by (vm_compute; reflexivity).
  assert (Hdead : live world_dead_on_arrival 0 = false) by (vm_compute; reflexivity).
  split; [exact Hsh|]. split; [exact Hreg|]. split; [exact Hdead|].
  destruct (join_with_peer_gone world_dead_on_arrival 0 0 [Recv "MOVE RIGHT"] Hsh) as [_ Hrun];
    [unfold MAX_CLIENTS; lia|exact Hreg|exact Hdead|].
  rewrite Hrun. split; reflexivity.
Defined.
